(** * Report-extraction pipeline: a shallow embedding

    The development follows the Python sources file by file:
    [py] holds the few pieces of the Python runtime the code relies on
    (strings, JSON values, exceptions, truthiness), [templates] and [schema]
    the normalisation of a model answer against a template, [sync_runner] the
    rate limiter, the retry wrapper and the concurrent dispatcher, [text]
    more of the runtime (characters, slices, splitting and joining),
    [config_env] the complete settings, read from the environment,
    [sync_input] and [sync_output] the reading of the records from a sheet
    and the writing of the result files, and [batch_runner] the request-file
    writer, the result parser and the batch life cycle. After these come
    [patient_friendly], [convert_to_finetune] and [cli].

    Conventions.
    - A Python [str] is a Rocq [string]; whitespace and letter case are the
      ASCII ones.
    - A Python [float] is an exact rational ([Q]): delays and clock readings
      are computed without rounding.
    - A [dict] with string keys is a [gmap string _]; a value obtained from
      [json.loads] is a [json] tree whose objects are association lists read
      with first-match lookup.
    - A call that may raise returns [exn + A] (left: the exception raised).
    - A line of a sheet is the dict [csv.DictReader] makes of it: a
      [gmap string (option string)] whose cells are [None] where the line is
      shorter than the header. *)

From Stdlib Require Import Ascii String QArith Qminmax Qpower Lqa.
From stdpp Require Import gmap strings list fin_maps pretty.

Local Open Scope string_scope.
Set Warnings "-register-all".

(** ** The Python runtime *)

Module py.

Inductive exn : Type :=
| ApiError (msg : string)
| KeyError (key : string)
| IndexError
| TypeError
| AttributeError
| ValueError (msg : string)
| JSONDecodeError (doc : string)
| RuntimeError (msg : string).

Inductive json : Type :=
| JNull
| JBool (b : bool)
| JInt (z : Z)
| JFloat (q : Q)
| JStr (s : string)
| JArr (items : list json)
| JObj (members : list (string * json)).

(** [str.isspace] on ASCII: tab, newline, vertical tab, form feed, carriage
    return, the four separators 28..31 and the blank. *)
Definition is_space (c : ascii) : bool :=
  let n := nat_of_ascii c in
  ((9 <=? n)%nat && (n <=? 13)%nat) || ((28 <=? n)%nat && (n <=? 32)%nat).

Fixpoint lstrip (s : string) : string :=
  match s with
  | EmptyString => EmptyString
  | String c r => if is_space c then lstrip r else s
  end.

Fixpoint rstrip (s : string) : string :=
  match s with
  | EmptyString => EmptyString
  | String c r =>
      match rstrip r with
      | EmptyString => if is_space c then EmptyString else String c EmptyString
      | r' => String c r'
      end
  end.

Definition strip (s : string) : string := rstrip (lstrip s).

Definition lower_char (c : ascii) : ascii :=
  let n := nat_of_ascii c in
  if ((65 <=? n)%nat && (n <=? 90)%nat) then ascii_of_nat (n + 32) else c.

Fixpoint lower (s : string) : string :=
  match s with
  | EmptyString => EmptyString
  | String c r => String (lower_char c) (lower r)
  end.

Fixpoint startswith (p s : string) : bool :=
  match p, s with
  | EmptyString, _ => true
  | String a p', String b s' => if Ascii.eqb a b then startswith p' s' else false
  | String _ _, EmptyString => false
  end.

(** [p in s] for two strings. *)
Fixpoint contains (p s : string) : bool :=
  startswith p s ||
  match s with
  | EmptyString => false
  | String _ s' => contains p s'
  end.

Fixpoint all_chars (p : ascii -> bool) (s : string) : bool :=
  match s with
  | EmptyString => true
  | String c r => p c && all_chars p r
  end.

(** Truth value of an object, as [if x:] and [not x] take it. *)
Definition truthy (v : json) : bool :=
  match v with
  | JNull => false
  | JBool b => b
  | JInt z => negb (z =? 0)%Z
  | JFloat q => negb (Qeq_bool q 0)
  | JStr s => negb (String.eqb s "")
  | JArr l => match l with [] => false | _ => true end
  | JObj kv => match kv with [] => false | _ => true end
  end.

Fixpoint assoc (k : string) (kv : list (string * json)) : option json :=
  match kv with
  | [] => None
  | (k', v) :: rest => if String.eqb k k' then Some v else assoc k rest
  end.

(** [d.get(k)] on a dict: [None] (here [JNull]) when the key is absent. *)
Definition dict_get (kv : list (string * json)) (k : string) : json :=
  default JNull (assoc k kv).

(** [x.get(k)] on an arbitrary object: only a dict has the method. *)
Definition get (x : json) (k : string) : exn + json :=
  match x with
  | JObj kv => inr (dict_get kv k)
  | _ => inl AttributeError
  end.

(** [x[k]] with a string key. *)
Definition getitem (x : json) (k : string) : exn + json :=
  match x with
  | JObj kv => match assoc k kv with Some v => inr v | None => inl (KeyError k) end
  | _ => inl TypeError
  end.

(** [x[0]]: a list or a string is indexed, a dict is searched for the key 0,
    which a dict decoded from JSON never has. *)
Definition getitem0 (x : json) : exn + json :=
  match x with
  | JArr (v :: _) => inr v
  | JArr [] => inl IndexError
  | JStr (String c _) => inr (JStr (String c EmptyString))
  | JStr EmptyString => inl IndexError
  | JObj _ => inl (KeyError "0")
  | _ => inl TypeError
  end.

(** What the code takes from the interpreter and the standard library without
    defining it: the JSON decoder and the two renderings [str(exc)] and
    [str(value)]. *)
Class Runtime : Type := {
  json_loads : string -> exn + json;
  str_exn : exn -> string;
  str_json : json -> string
}.

(** A small error monad over [exn + _]. *)
Definition bind {A B : Type} (m : exn + A) (f : A -> exn + B) : exn + B :=
  match m with
  | inl e => inl e
  | inr a => f a
  end.

End py.

Notation "x <-! m ; k" := (py.bind m (fun x => k))
  (at level 100, m at next level, right associativity, only parsing).

(** ** templates.py *)

Module templates.

Record FieldConfig : Type := {
  name : string;
  display_name : string;
  description : string;
  field_type : string;
  enum_values : option (list string);
  required : bool;
  example : string
}.

Record ExtractionTemplate : Type := {
  template_id : string;
  template_name : string;
  fields : list FieldConfig
}.

Section Registry.
(** The registry of templates is a table of the application. *)
Variable TEMPLATES : gmap string ExtractionTemplate.

(** The ValueError raised for an unknown template carries the id asked for. *)
Definition get_template (tid : string) : py.exn + ExtractionTemplate :=
  match TEMPLATES !! tid with
  | Some t => inr t
  | None => inl (py.ValueError tid)
  end.

End Registry.

End templates.

(** ** schema.py *)

Module schema.
Import py templates.

Record ExtractionResult : Type := {
  id_value : string;
  _data : gmap string json
}.

Definition set_id (r : ExtractionResult) (i : string) : ExtractionResult :=
  {| id_value := i; _data := _data r |}.

Definition setitem (r : ExtractionResult) (k : string) (v : json) : ExtractionResult :=
  {| id_value := id_value r; _data := <[k := v]> (_data r) |}.

Definition _clean_str (value : json) : option string :=
  match value with
  | JStr s => let text := strip s in if String.eqb text "" then None else Some text
  | _ => None
  end.

(** The body of the loop over [template.fields]. *)
Definition normalise_field (raw : list (string * json)) (result : ExtractionResult)
    (field : FieldConfig) : ExtractionResult :=
  let value := dict_get raw (name field) in
  match value with
  | JNull => setitem result (name field) (JStr "")
  | JStr _ =>
      match _clean_str value with
      | Some cleaned => if truthy (JStr cleaned)
                        then setitem result (name field) (JStr cleaned)
                        else setitem result (name field) (JStr "")
      | None => setitem result (name field) (JStr "")
      end
  | _ => setitem result (name field) value
  end.

Section Normalise.
Variable TEMPLATES : gmap string ExtractionTemplate.

Definition normalise_extraction (raw : list (string * json)) (tid : string)
    : exn + ExtractionResult :=
  let result := {| id_value := ""; _data := ∅ |} in
  let result :=
    match dict_get raw "id_value" with
    | JStr s => set_id result (strip s)
    | _ => match dict_get raw "id" with
           | JStr s => set_id result (strip s)
           | _ => result
           end
    end in
  template <-! get_template TEMPLATES tid;
  inr (foldl (normalise_field raw) result (fields template)).

End Normalise.

End schema.

(** ** sync_runner.py *)

Module sync_runner.
Import py templates.
Local Open Scope Q_scope.

(** A record keeps the line it was read from as [csv.DictReader] hands it
    over: a dict from the column names of the header to the cells of the
    line, which holds [None] for a column the line is too short for. The
    cells of a line longer than the header, which the reader keeps under the
    key [None] and the code never looks up, are left out. *)
Record Record_ : Type := {
  id_value : string;
  text : string;
  row_data : gmap string (option string)
}.

Record RateLimitConfig : Type := {
  rpm : Z;
  concurrency : Z;
  timeout : Q;
  max_retries : Z;
  retry_backoff : Q
}.

Record AppConfig : Type := {
  base_url : string;
  model : string;
  response_temperature : Q;
  template_id : string;
  rate_limit : RateLimitConfig
}.

(** One finished unit of work: the record, the extraction if there is one,
    the error text if there is one. *)
Definition outcome : Type := Record_ * option schema.ExtractionResult * option string.

(** *** RateLimiter *)

Record RateLimiter : Type := {
  interval : Q;
  _next_slot : Q
}.

(** [RateLimiter(rpm)], built when the monotonic clock reads [now]. *)
Definition RateLimiter_init (rpm : Z) (now : Q) : RateLimiter :=
  {| interval := 60 / inject_Z (Z.max rpm 1); _next_slot := now |}.

(** [wait], run under the lock on a clock that a sleep advances by exactly
    the duration asked for: returns the limiter after the update and the
    clock reading at which the caller is let through. *)
Definition wait (self : RateLimiter) (clock : Q) : RateLimiter * Q :=
  let now := clock in
  let clock' :=
    if Qlt_le_dec now (_next_slot self)
    then now + (_next_slot self - now)
    else now in
  ({| interval := interval self;
      _next_slot := Qmax now (_next_slot self) + interval self |}, clock').

(** Successive calls of [wait]: the lock admits one caller at a time, and
    [idle] lists how long after each grant the next caller enters. The result
    lists the clock readings of the grants. *)
Fixpoint acquisitions (self : RateLimiter) (clock : Q) (idle : list Q) : list Q :=
  match idle with
  | [] => []
  | gap :: rest =>
      let '(self', granted) := wait self (clock + gap) in
      granted :: acquisitions self' granted rest
  end.

(** *** _extract_429_retry_delay *)

Definition is_digit (c : ascii) : bool :=
  let n := nat_of_ascii c in (48 <=? n)%nat && (n <=? 57)%nat.

Definition is_num_char (c : ascii) : bool := is_digit c || Ascii.eqb c ".".

Definition is_quote (c : ascii) : bool :=
  Ascii.eqb c (ascii_of_nat 34) || Ascii.eqb c "'".

(** Longest prefix of characters satisfying [p], and what follows it. *)
Fixpoint span (p : ascii -> bool) (s : string) : string * string :=
  match s with
  | EmptyString => (EmptyString, EmptyString)
  | String c r =>
      if p c then let '(a, b) := span p r in (String c a, b)
      else (EmptyString, s)
  end.

(** A literal of the pattern matched at the head of [s] under IGNORECASE. *)
Fixpoint literal_ci (lit s : string) : option string :=
  match lit, s with
  | EmptyString, _ => Some s
  | String a lit', String b s' =>
      if Ascii.eqb (lower_char a) (lower_char b) then literal_ci lit' s' else None
  | String _ _, EmptyString => None
  end.

(** An optional quote character. *)
Definition opt_quote (s : string) : string :=
  match s with
  | String c r => if is_quote c then r else s
  | EmptyString => s
  end.

(** The tail [([\d.]+)\s*s] of the first and third patterns; the adjacent
    pieces match disjoint character classes, so the greedy match is the only
    candidate at a given position. *)
Definition number_then_s (s : string) : option string :=
  let '(num, rest) := span is_num_char s in
  if String.eqb num "" then None
  else
    match snd (span is_space rest) with
    | String c _ => if Ascii.eqb (lower_char c) "s" then Some num else None
    | EmptyString => None
    end.

(** [retry in ([\d.]+)\s*s] *)
Definition pattern1_at (s : string) : option string :=
  rest ← literal_ci "retry in " s; number_then_s rest.

(** The common head [retryDelay["']?\s*:\s*["']?] of the other two. *)
Definition retry_delay_head (s : string) : option string :=
  rest ← literal_ci "retryDelay" s;
  match snd (span is_space (opt_quote rest)) with
  | String c rest' =>
      if Ascii.eqb c ":" then Some (opt_quote (snd (span is_space rest'))) else None
  | EmptyString => None
  end.

(** [retryDelay["']?\s*:\s*["']?(\d+)] *)
Definition pattern2_at (s : string) : option string :=
  rest ← retry_delay_head s;
  let num := fst (span is_digit rest) in
  if String.eqb num "" then None else Some num.

(** [retryDelay["']?\s*:\s*["']?([\d.]+)\s*s] *)
Definition pattern3_at (s : string) : option string :=
  rest ← retry_delay_head s; number_then_s rest.

(** [re.search]: the match at the leftmost position that has one. *)
Fixpoint search (at_ : string -> option string) (s : string) : option string :=
  match at_ s with
  | Some g => Some g
  | None =>
      match s with
      | EmptyString => None
      | String _ s' => search at_ s'
      end
  end.

Fixpoint digits_value (s : string) (acc : N) : N :=
  match s with
  | EmptyString => acc
  | String c r => digits_value r (10 * acc + (N_of_ascii c - 48))%N
  end.

(** [float(group)] on a captured group, a string of digits and dots:
    [None] stands for the ValueError raised unless the group has digits and
    at most one dot. *)
Definition float_of_group (g : string) : option Q :=
  let '(whole, rest) := span is_digit g in
  let frac := match rest with String _ r => r | EmptyString => EmptyString end in
  if (String.eqb rest "" || startswith "." rest) && all_chars is_digit frac
     && negb (String.eqb (whole +:+ frac) "") then
    Some (Qred (inject_Z (Z.of_N (digits_value (whole +:+ frac) 0)) /
                inject_Z (10 ^ Z.of_nat (String.length frac))))
  else None.

Definition try_pattern (at_ : string -> option string) (error_msg : string) : option Q :=
  g ← search at_ error_msg; float_of_group g.

(** The three patterns are tried in order; a pattern whose group is not a
    number is passed over. *)
Definition _extract_429_retry_delay (error_msg : string) : option Q :=
  match try_pattern pattern1_at error_msg with
  | Some d => Some d
  | None =>
      match try_pattern pattern2_at error_msg with
      | Some d => Some d
      | None => try_pattern pattern3_at error_msg
      end
  end.

(** *** _call_with_retry *)

Definition is_429 (error_str : string) : bool :=
  contains "429" error_str
  || contains "RESOURCE_EXHAUSTED" error_str
  || contains "quota" (lower error_str).

(** The delay slept after a failed attempt that is not the last one. *)
Definition retry_delay (backoff : Q) (attempt : nat) (error_str : string) : Q :=
  if is_429 error_str then
    match _extract_429_retry_delay error_str with
    | Some suggested_delay =>
        if truthy (JFloat suggested_delay)
        then Qmin (suggested_delay + 2) 120
        else backoff ^ Z.of_nat attempt * 10
    | None => backoff ^ Z.of_nat attempt * 10
    end
  else backoff ^ Z.of_nat attempt.

(** What a call does besides returning: it passes the rate limiter, calls the
    client, sleeps. *)
Inductive event : Type :=
| Acquire
| Call (attempt : nat)
| Sleep (delay : Q).

Section Retry.
Context `{RT : Runtime}.

(** The client's answer to the n-th attempt of one call. *)
Variable op : nat -> exn + json.
Variable config : AppConfig.

(** The loop [for attempt in range(max_retries + 1)], with [todo] iterations
    left. A loop that runs out ends the function, which then returns [None]. *)
Fixpoint retry_loop (todo attempt : nat) : list event * (exn + json) :=
  match todo with
  | O => ([], inr JNull)
  | S todo' =>
      match op attempt with
      | inr resp => ([Acquire; Call attempt], inr resp)
      | inl exc =>
          let error_str := str_exn exc in
          if (max_retries (rate_limit config) <=? Z.of_nat attempt)%Z
          then ([Acquire; Call attempt], inl exc)
          else
            let delay := retry_delay (retry_backoff (rate_limit config)) attempt error_str in
            let '(trace, result) := retry_loop todo' (S attempt) in
            (Acquire :: Call attempt :: Sleep delay :: trace, result)
      end
  end.

Definition _call_with_retry : list event * (exn + json) :=
  retry_loop (Z.to_nat (max_retries (rate_limit config) + 1)) 0.

End Retry.

Definition attempts (trace : list event) : nat :=
  length (omap (λ e, match e with Call n => Some n | _ => None end) trace).

Definition sleeps (trace : list event) : list Q :=
  omap (λ e, match e with Sleep d => Some d | _ => None end) trace.

Definition total (ds : list Q) : Q := foldr Qplus 0 ds.

(** *** process_records *)

(** How a run ends. *)
Inductive run (A : Type) : Type :=
| Raises (e : exn)
| Hangs
| Returns (a : A).
Arguments Raises {A} e.
Arguments Hangs {A}.
Arguments Returns {A} a.

(** [d.setdefault(k, v)] on a dict. *)
Definition setdefault (kv : list (string * json)) (k : string) (v : json)
    : list (string * json) :=
  match assoc k kv with
  | Some _ => kv
  | None => kv ++ [(k, v)]
  end.

Section Dispatch.
Context `{RT : Runtime}.
Variable TEMPLATES : gmap string ExtractionTemplate.

(** [json.loads(x)]: anything but a string is a TypeError. *)
Definition loads (x : json) : exn + json :=
  match x with
  | JStr s => json_loads s
  | _ => inl TypeError
  end.

(** From the message content to the extraction: decode, add the record's id
    under [id_value] if the answer has none, normalise, and overwrite the id
    with the record's. *)
Definition extraction_of_content (record : Record_) (tid : string) (txt : json)
    : exn + schema.ExtractionResult :=
  data <-! loads txt;
  match data with
  | JObj kv =>
      result <-! schema.normalise_extraction TEMPLATES
                   (setdefault kv "id_value" (JStr (id_value record))) tid;
      inr (schema.set_id result (id_value record))
  | _ => inl AttributeError
  end.

(** [resp["choices"][0]["message"]["content"]] *)
Definition message_content (resp : json) : exn + json :=
  choices <-! getitem resp "choices";
  first <-! getitem0 choices;
  message <-! getitem first "message";
  getitem message "content".

Definition worker (config : AppConfig) (op : nat -> exn + json) (record : Record_)
    : outcome :=
  match (resp <-! snd (_call_with_retry op config);
         txt <-! message_content resp;
         extraction_of_content record (template_id config) txt) with
  | inr result => (record, Some result, None)
  | inl exc => (record, None, Some (str_exn exc))
  end.

(** [client i] answers the attempts made for the i-th record; [completion]
    lists the tasks in the order in which they finish, which is the order in
    which [as_completed] hands them over. A semaphore cannot be built on a
    negative value, and one built on 0 admits no worker. *)
Definition process_records (records : list Record_)
    (client : nat -> nat -> exn + json) (config : AppConfig)
    (completion : list nat) : run (list outcome) :=
  if (concurrency (rate_limit config) <? 0)%Z
  then Raises (ValueError "Semaphore initial value must be >= 0")
  else
    match get_template TEMPLATES (template_id config) with
    | inl e => Raises e
    | inr _ =>
        if (concurrency (rate_limit config) =? 0)%Z
           && match records with [] => false | _ => true end
        then Hangs
        else Returns (omap (λ i, worker config (client i) <$> records !! i) completion)
    end.

End Dispatch.

End sync_runner.

(** ** config.py *)

Module config.
Import sync_runner.

(** The preset providers and their base URLs, in the order of the table. *)
Definition API_PROVIDERS : list (string * string) :=
  [ ("siliconflow", "https://api.siliconflow.cn/v1");
    ("aliyun", "https://dashscope.aliyuncs.com/compatible-mode/v1");
    ("openai", "https://api.openai.com/v1");
    ("deepseek", "https://api.deepseek.com/v1");
    ("qianduoduo", "https://api2.aigcbest.top/v1") ].

Definition get_provider (self : AppConfig) : option string :=
  fst <$> List.find (λ p, String.eqb (base_url self) (snd p)) API_PROVIDERS.

End config.

(** ** More of the Python runtime: text *)

Module text.
Local Open Scope list_scope.
Import py.

(** A string holds the UTF-8 bytes of a text; a character starts at every
    byte that is not a continuation byte. *)
Definition is_continuation (c : ascii) : bool :=
  let n := nat_of_ascii c in (128 <=? n)%nat && (n <? 192)%nat.

(** [len(s)] *)
Fixpoint len (s : string) : nat :=
  match s with
  | EmptyString => O
  | String c r => if is_continuation c then len r else S (len r)
  end.

(** The first [n] characters of [s]. *)
Fixpoint take (n : nat) (s : string) : string :=
  match s with
  | EmptyString => EmptyString
  | String c r =>
      if is_continuation c then String c (take n r)
      else match n with
           | O => EmptyString
           | S m => String c (take m r)
           end
  end.

(** [s[:n]]: a negative bound counts from the end. *)
Definition slice_to (n : Z) (s : string) : string :=
  if (0 <=? n)%Z then take (Z.to_nat n) s
  else take (Z.to_nat (Z.of_nat (len s) + n)) s.

(** [s.split(sep)] for a separator of one character. *)
Fixpoint split (sep : ascii) (s : string) : list string :=
  match s with
  | EmptyString => [EmptyString]
  | String c r =>
      if Ascii.eqb c sep then EmptyString :: split sep r
      else match split sep r with
           | [] => [String c EmptyString]
           | w :: ws => String c w :: ws
           end
  end.

(** [sep.join(parts)] *)
Fixpoint join (sep : string) (parts : list string) : string :=
  match parts with
  | [] => EmptyString
  | [p] => p
  | p :: rest => p +:+ sep +:+ join sep rest
  end.

Definition newline : string := String (ascii_of_nat 10) EmptyString.

End text.

(** ** config.py: the complete settings *)

Module config_env.
Local Open Scope list_scope.
Import py.

Record CsvConfig : Type := {
  text_column_candidates : list string;
  id_column_candidates : list string;
  default_encoding : string;
  max_chars : Z
}.

(** The settings as [config.py] declares them; [sync_runner.AppConfig] holds
    the fields the runners read. *)
Record AppConfig : Type := {
  base_url : string;
  model : string;
  output_dir : string;
  response_temperature : Q;
  api_key : string;
  template_id : string;
  rate_limit : sync_runner.RateLimitConfig;
  csv : CsvConfig
}.

Definition runner_config (c : AppConfig) : sync_runner.AppConfig :=
  {| sync_runner.base_url := base_url c;
     sync_runner.model := model c;
     sync_runner.response_temperature := response_temperature c;
     sync_runner.template_id := template_id c;
     sync_runner.rate_limit := rate_limit c |}.

Definition DEFAULT_BASE_URL : string := "https://api.siliconflow.cn/v1".
Definition DEFAULT_MODEL : string := "Qwen/Qwen3-Omni-30B-A3B-Instruct".
Definition DEFAULT_OUTPUT_DIR : string := "outputs".

Record ProviderConfig : Type := {
  provider_base_url : string;
  default_model : string;
  api_key_env : string
}.

(** The table of presets with all its columns, in the order of the source. *)
Definition API_PROVIDERS : list (string * ProviderConfig) :=
  [ ("siliconflow",
     {| provider_base_url := "https://api.siliconflow.cn/v1";
        default_model := "Qwen/Qwen3-Omni-30B-A3B-Instruct";
        api_key_env := "SILICONFLOW_API_KEY" |});
    ("aliyun",
     {| provider_base_url := "https://dashscope.aliyuncs.com/compatible-mode/v1";
        default_model := "qwen-plus";
        api_key_env := "ALIYUN_API_KEY" |});
    ("openai",
     {| provider_base_url := "https://api.openai.com/v1";
        default_model := "gpt-4";
        api_key_env := "OPENAI_API_KEY" |});
    ("deepseek",
     {| provider_base_url := "https://api.deepseek.com/v1";
        default_model := "deepseek-chat";
        api_key_env := "DEEPSEEK_API_KEY" |});
    ("qianduoduo",
     {| provider_base_url := "https://api2.aigcbest.top/v1";
        default_model := "gpt-4.1-mini";
        api_key_env := "QIANDUODUO_API_KEY" |}) ].

(** [AppConfig()] *)
Definition defaults : AppConfig :=
  {| base_url := DEFAULT_BASE_URL;
     model := DEFAULT_MODEL;
     output_dir := DEFAULT_OUTPUT_DIR;
     response_temperature := 0;
     api_key := "";
     template_id := "rcc";
     rate_limit := {| sync_runner.rpm := 30; sync_runner.concurrency := 5;
                      sync_runner.timeout := 60; sync_runner.max_retries := 3;
                      sync_runner.retry_backoff := 2 |};
     csv := {| text_column_candidates := ["检查所见"; "所见"; "检查所见描述"];
               id_column_candidates := ["门诊号/住院号"; "住院号"; "病历号"; "病人ID"];
               default_encoding := "utf-8-sig";
               max_chars := 10000 |} |}.

(** The conversions [int(s)] and [float(s)] of a string, which raise a
    ValueError on a text that is not a number. *)
Class Conversions : Type := {
  int_of_str : string -> exn + Z;
  float_of_str : string -> exn + Q
}.

(** The process environment. *)
Definition environ : Type := gmap string string.

(** [os.getenv(name, default)] *)
Definition getenv (env : environ) (name : string) (dflt : string) : string :=
  default dflt (env !! name).

Fixpoint lookup_provider (name : string) (table : list (string * ProviderConfig))
    : option ProviderConfig :=
  match table with
  | [] => None
  | (n, p) :: rest => if String.eqb name n then Some p else lookup_provider name rest
  end.

Section FromEnv.
Context `{CV : Conversions}.
Variable env : environ.

(** [int(os.getenv(name, default))] and [float(os.getenv(name, default))]:
    a number given as the default converts to itself. *)
Definition int_env (name : string) (dflt : Z) : exn + Z :=
  match env !! name with
  | Some s => int_of_str s
  | None => inr dflt
  end.

Definition float_env (name : string) (dflt : Q) : exn + Q :=
  match env !! name with
  | Some s => float_of_str s
  | None => inr dflt
  end.

Definition from_env (provider : option string) : exn + AppConfig :=
  let config := defaults in
  let preset :=
    match provider with
    | Some p => if String.eqb p "" then None else lookup_provider p API_PROVIDERS
    | None => None
    end in
  let '(url, mdl, key) :=
    match preset with
    | Some provider_config =>
        (provider_base_url provider_config,
         default_model provider_config,
         getenv env (api_key_env provider_config) "")
    | None =>
        (getenv env "API_BASE_URL" (getenv env "SILICONFLOW_BASE_URL" (base_url config)),
         getenv env "API_MODEL" (getenv env "SILICONFLOW_MODEL" (model config)),
         getenv env "API_KEY" (getenv env "SILICONFLOW_API_KEY" ""))
    end in
  let out := getenv env "RCC_OUTPUT_DIR" (output_dir config) in
  let tid := getenv env "EXTRACTION_TEMPLATE" (template_id config) in
  temperature <-! float_env "RCC_TEMPERATURE" (response_temperature config);
  let rate := rate_limit config in
  rpm <-! int_env "RCC_RPM" (sync_runner.rpm rate);
  concurrency <-! int_env "RCC_CONCURRENCY" (sync_runner.concurrency rate);
  timeout <-! float_env "RCC_TIMEOUT" (sync_runner.timeout rate);
  max_retries <-! int_env "RCC_MAX_RETRIES" (sync_runner.max_retries rate);
  retry_backoff <-! float_env "RCC_RETRY_BACKOFF" (sync_runner.retry_backoff rate);
  let csv_cfg := csv config in
  chars <-! int_env "RCC_MAX_CHARS" (max_chars csv_cfg);
  let encoding := getenv env "RCC_CSV_ENCODING" (default_encoding csv_cfg) in
  inr {| base_url := url; model := mdl; output_dir := out;
         response_temperature := temperature; api_key := key; template_id := tid;
         rate_limit := {| sync_runner.rpm := rpm;
                          sync_runner.concurrency := concurrency;
                          sync_runner.timeout := timeout;
                          sync_runner.max_retries := max_retries;
                          sync_runner.retry_backoff := retry_backoff |};
         csv := {| text_column_candidates := text_column_candidates csv_cfg;
                   id_column_candidates := id_column_candidates csv_cfg;
                   default_encoding := encoding;
                   max_chars := chars |} |}.

End FromEnv.

Definition get_provider (self : AppConfig) : option string :=
  config.get_provider (runner_config self).

Definition KEY_VARIABLES : list string :=
  [ "API_KEY"; "SILICONFLOW_API_KEY"; "ALIYUN_API_KEY"; "OPENAI_API_KEY";
    "DEEPSEEK_API_KEY"; "QIANDUODUO_API_KEY" ].

Definition no_api_key : exn :=
  RuntimeError "未设置 API Key。请设置环境变量：API_KEY 或 SILICONFLOW_API_KEY 或 ALIYUN_API_KEY 等".

(** The chain of [or] over the variables: the first value that is set and
    not empty. *)
Fixpoint first_set (env : environ) (names : list string) : option string :=
  match names with
  | [] => None
  | name :: rest =>
      match env !! name with
      | Some s => if String.eqb s "" then first_set env rest else Some s
      | None => first_set env rest
      end
  end.

(** The part of [ensure_api_key] that reads the environment. *)
Definition key_from_environment (env : environ) : exn + string :=
  match first_set env KEY_VARIABLES with
  | Some k => inr k
  | None => inl no_api_key
  end.

Definition ensure_api_key (env : environ) (config : option AppConfig) : exn + string :=
  match config with
  | Some c =>
      if negb (String.eqb (api_key c) "") then inr (api_key c)
      else key_from_environment env
  | None => key_from_environment env
  end.

End config_env.

(** ** sync_runner.py: reading the records *)

Module sync_input.
Local Open Scope list_scope.
Import py text sync_runner.

(** [d[k] = v] on a dict kept in insertion order: a key that is present
    keeps its place and takes the new value. *)
Fixpoint dict_set (k v : string) (d : list (string * string)) : list (string * string) :=
  match d with
  | [] => [(k, v)]
  | (k', v') :: rest =>
      if String.eqb k k' then (k', v) :: rest else (k', v') :: dict_set k v rest
  end.

(** [{col.lower(): col for col in col_list}] *)
Definition lower_map (col_list : list string) : list (string * string) :=
  foldl (λ d col, dict_set (lower col) col d) [] col_list.

Definition _auto_detect_column (columns candidates keywords : list string)
    : option string :=
  let col_list := columns in
  match List.find (λ cand, bool_decide (cand ∈ col_list)) candidates with
  | Some cand => Some cand
  | None =>
      snd <$> List.find (λ entry, forallb (λ keyword, contains keyword (fst entry)) keywords)
                        (lower_map col_list)
  end.

(** A line of the file as [csv.DictReader] hands it over: every column of
    the header is a key, and the cell of a column the line is too short for
    is [None]. *)
Definition row : Type := gmap string (option string).

(** [row.get(col) or ""]: a cell that is missing, [None] or empty counts as
    the empty text. *)
Definition get_or_empty (r : row) (col : string) : string :=
  match r !! col with
  | Some (Some value) => value
  | Some None | None => ""
  end.

(** [str(row.get(col, ""))]: the text of a [None] cell is ["None"]. *)
Definition str_get (r : row) (col : string) : string :=
  match r !! col with
  | Some (Some value) => value
  | Some None => "None"
  | None => ""
  end.

(** The text of one row: the cells of the text columns that are not blank,
    each under a label when there are several columns. *)
Definition text_of_row (text_columns : list string) (r : row) : string :=
  let text_parts :=
    omap (λ col,
            let value := strip (get_or_empty r col) in
            if String.eqb value "" then None
            else if (1 <? length text_columns)%nat
                 then Some ("[" +:+ col +:+ "]" +:+ newline +:+ value)
                 else Some value)
         text_columns in
  match text_parts with
  | [] => ""
  | _ => join (newline +:+ newline) text_parts
  end.

(** The loop over the rows; [records] holds what was kept so far. *)
Fixpoint read_rows (text_columns : list string) (id_column : string)
    (max_chars : Z) (limit : option Z) (records : list Record_) (rows : list row)
    : list Record_ :=
  match rows with
  | [] => records
  | r :: rest =>
      let text := text_of_row text_columns r in
      if String.eqb text "" then
        read_rows text_columns id_column max_chars limit records rest
      else
        let text := if (max_chars <? Z.of_nat (len text))%Z
                    then slice_to max_chars text else text in
        let cell := strip (str_get r id_column) in
        let records :=
          records ++
          [ {| id_value := if String.eqb cell ""
                           then "row_" +:+ pretty (length records + 1)%nat
                           else cell;
               text := text;
               row_data := r |} ] in
        if match limit with
           | Some l => (l <=? Z.of_nat (length records))%Z
           | None => false
           end
        then records
        else read_rows text_columns id_column max_chars limit records rest
  end.

Definition no_header : exn := ValueError "CSV 未包含表头".
Definition no_text_column : exn :=
  ValueError ("未找到" +:+ String (ascii_of_nat 34) "检查所见"
              +:+ String (ascii_of_nat 34) "列，请使用 --text-col 或 --text-cols 指定").

Section Read.
Context `{RT : Runtime}.

(** [str(list)] of a list of strings. *)
Definition str_list (l : list string) : string := str_json (JArr (JStr <$> l)).

Definition missing_columns (missing columns : list string) : exn :=
  ValueError ("指定的列不存在：" +:+ str_list missing +:+ "。可用列：" +:+ str_list columns).

Definition missing_column (text_col : string) (columns : list string) : exn :=
  ValueError ("列 '" +:+ text_col +:+ "' 不存在。可用列：" +:+ str_list columns).

Definition given (o : option string) : bool :=
  match o with
  | Some s => negb (String.eqb s "")
  | None => false
  end.

(** The columns the text is taken from. *)
Definition text_columns_of (columns : list string) (config : config_env.AppConfig)
    (text_col text_cols : option string) : exn + list string :=
  if given text_cols then
    let text_columns :=
      omap (λ col, if String.eqb (strip col) "" then None else Some (strip col))
           (split "," (default "" text_cols)) in
    let missing := List.filter (λ col, negb (bool_decide (col ∈ columns))) text_columns in
    match missing with
    | [] => inr text_columns
    | _ => inl (missing_columns missing columns)
    end
  else if given text_col then
    let c := default "" text_col in
    if bool_decide (c ∈ columns) then inr [c]
    else inl (missing_column c columns)
  else
    match _auto_detect_column columns
            (config_env.text_column_candidates (config_env.csv config)) ["查"; "见"] with
    | Some detected =>
        if String.eqb detected "" then inl no_text_column else inr [detected]
    | None => inl no_text_column
    end.

(** The column the id is taken from: the one asked for, else a detected one,
    else the first column. *)
Definition id_column_of (columns : list string) (config : config_env.AppConfig)
    (id_col : option string) : exn + string :=
  let id_column :=
    if given id_col then id_col
    else _auto_detect_column columns
           (config_env.id_column_candidates (config_env.csv config)) ["号"] in
  if given id_column then inr (default "" id_column)
  else match columns with
       | c :: _ => inr c
       | [] => inl IndexError
       end.

(** [fieldnames] is the header ([None] for a file without one) and [rows]
    are the lines below it; whether the file exists and how it is decoded
    are left to the caller. *)
Definition read_csv_records (fieldnames : option (list string)) (rows : list row)
    (config : config_env.AppConfig) (text_col text_cols id_col : option string)
    (limit : option Z) : exn + list Record_ :=
  match fieldnames with
  | None => inl no_header
  | Some columns =>
      text_columns <-! text_columns_of columns config text_col text_cols;
      id_column <-! id_column_of columns config id_col;
      inr (read_rows text_columns id_column
             (config_env.max_chars (config_env.csv config)) limit [] rows)
  end.

End Read.

End sync_input.

(** ** schema.py and sync_runner.py: writing the results *)

Module sync_output.
Local Open Scope list_scope.
Import py templates sync_runner.

(** [ExtractionResult.__getitem__], [get], [to_dict], and [flatten_for_csv]. *)
Definition getitem (self : schema.ExtractionResult) (key : string) : json :=
  default JNull (schema._data self !! key).

Definition get (self : schema.ExtractionResult) (key : string) (dflt : json) : json :=
  default dflt (schema._data self !! key).

(** The dict starts as [{"id": id_value}] and is updated with the fields. *)
Definition to_dict (self : schema.ExtractionResult) : gmap string json :=
  schema._data self ∪ {[ "id" := JStr (schema.id_value self) ]}.

Definition flatten_for_csv (result : schema.ExtractionResult) : gmap string json :=
  schema._data result.

(** One line of the JSONL file. *)
Record json_line : Type := {
  line_id : string;
  raw_text : string;
  extraction : option (gmap string json);
  error : option string
}.

(** [csv.DictWriter.writerow] with the default [extrasaction] and [restval]:
    a key outside the field names is a ValueError (whose message, which
    lists the keys, is cut short here), a field name without a value is
    written as the empty text. *)
Definition wrong_fields : exn := ValueError "dict contains fields not in fieldnames".

Definition writerow (fieldnames : list string) (rowdict : gmap string json)
    : exn + list json :=
  if bool_decide (map_Forall (λ key _, key ∈ fieldnames) rowdict)
  then inr ((λ key, default (JStr "") (rowdict !! key)) <$> fieldnames)
  else inl wrong_fields.

(** The two files: the lines of the JSONL file, the header and the rows of
    the CSV file. *)
Record files : Type := {
  jsonl : list json_line;
  header : list string;
  rows : list (list json)
}.

(** The body of the loop over the results; an [ExtractionResult] is true as
    every object without a length is. *)
Definition write_result (out : files) (o : outcome) : exn + files :=
  let '(record, extraction, error) := o in
  let row_dict : gmap string json :=
    <[ "error" := JStr (default "" error) ]> {[ "id" := JStr (id_value record) ]} in
  let line payload :=
    {| line_id := id_value record; raw_text := text record;
       extraction := payload; error := error |} in
  let '(json_line, row_dict) :=
    match extraction with
    | Some e => (line (Some (to_dict e)), flatten_for_csv e ∪ row_dict)
    | None => (line None, row_dict)
    end in
  cells <-! writerow (header out) row_dict;
  inr {| jsonl := jsonl out ++ [json_line]; header := header out;
         rows := rows out ++ [cells] |}.

Fixpoint write_results (out : files) (results : list outcome) : exn + files :=
  match results with
  | [] => inr out
  | o :: rest => out' <-! write_result out o; write_results out' rest
  end.

Section Write.
Variable TEMPLATES : gmap string ExtractionTemplate.

(** Returns the content of the two files, before it is encoded; what is
    left of them when a row is refused is not described. *)
Definition write_outputs (results : list outcome) (config : AppConfig) : exn + files :=
  template <-! get_template TEMPLATES (template_id config);
  let fieldnames := ["id"] ++ (name <$> fields template) ++ ["error"] in
  write_results {| jsonl := []; header := fieldnames; rows := [] |} results.

End Write.

End sync_output.

(** ** batch_runner.py *)

Module batch_runner.
Import py templates sync_runner.
Local Open Scope Q_scope.

(** One line of the request file. *)
Record payload : Type := {
  custom_id : string;
  body_model : string;
  system_content : string;
  user_content : string;
  temperature : Q
}.

Definition build_batch_payload (record : Record_) (config : AppConfig)
    (system_prompt : string) (custom_id : option string) : payload :=
  {| custom_id := match custom_id with
                  | Some c => if String.eqb c "" then id_value record else c
                  | None => id_value record
                  end;
     body_model := model config;
     system_content := system_prompt;
     user_content := text record;
     temperature := response_temperature config |}.

(** What the loop of [write_request_jsonl] carries: the counters, the map
    from submission key to record, and the lines written so far. *)
Record writer : Type := {
  seen_counts : gmap string nat;
  id_map : gmap string Record_;
  written : list payload
}.

Definition write_request (config : AppConfig) (system_prompt : string)
    (w : writer) (record : Record_) : writer :=
  let base_id := if String.eqb (id_value record) "" then "row" else id_value record in
  let count := default 0%nat (seen_counts w !! base_id) in
  let unique_id :=
    if (count =? 0)%nat then base_id
    else base_id +:+ "__" +:+ pretty (count + 1)%nat in
  {| seen_counts := <[base_id := (count + 1)%nat]> (seen_counts w);
     id_map := <[unique_id := record]> (id_map w);
     written := written w ++
                [build_batch_payload record config system_prompt (Some unique_id)] |}.

Section Batch.
Context `{RT : Runtime}.
Variable TEMPLATES : gmap string ExtractionTemplate.
(** The prompt text built from a template is not modelled. *)
Variable build_prompt : ExtractionTemplate -> string.

Definition build_system_prompt (tid : string) : exn + string :=
  template <-! get_template TEMPLATES tid; inr (build_prompt template).

(** Returns the lines of the request file and the map from key to record. *)
Definition write_request_jsonl (records : list Record_) (config : AppConfig)
    : exn + (list payload * gmap string Record_) :=
  system_prompt <-! build_system_prompt (template_id config);
  let w := foldl (write_request config system_prompt)
                 {| seen_counts := ∅; id_map := ∅; written := [] |} records in
  inr (written w, id_map w).

(** *** parse_batch_results *)

Definition unknown_error : string := "未知错误".
Definition missing_error : string := "批量任务无返回".

(** [id_map.get(custom_id)]: the keys are strings, so a key of another
    hashable type finds nothing, and a list or a dict cannot be hashed. *)
Definition id_map_get (id_map : gmap string Record_) (custom_id : json)
    : exn + option Record_ :=
  match custom_id with
  | JStr s => inr (id_map !! s)
  | JArr _ | JObj _ => inl TypeError
  | _ => inr None
  end.

(** The outcome a line yields for the record it belongs to. *)
Definition line_outcome (tid : string) (record : Record_) (response error : json)
    : outcome :=
  if truthy response && negb (truthy error) then
    match (body <-! getitem response "body";
           output <-! message_content body;
           extraction_of_content TEMPLATES record tid output) with
    | inr extraction => (record, Some extraction, None)
    | inl exc => (record, None, Some (str_exn exc))
    end
  else
    let error_msg := if truthy error then str_json error else unknown_error in
    (record, None, Some error_msg).

(** The body of the loop over the lines. *)
Definition parse_line (id_map : gmap string Record_) (tid : string)
    (results_dict : gmap string outcome) (line : string)
    : exn + gmap string outcome :=
  if String.eqb (strip line) "" then inr results_dict
  else
    entry <-! json_loads line;
    custom_id <-! get entry "custom_id";
    found <-! id_map_get id_map custom_id;
    match found with
    | None => inr results_dict
    | Some record =>
        response <-! get entry "response";
        error <-! get entry "error";
        inr (<[id_value record := line_outcome tid record response error]> results_dict)
    end.

Fixpoint parse_lines (id_map : gmap string Record_) (tid : string)
    (results_dict : gmap string outcome) (lines : list string)
    : exn + gmap string outcome :=
  match lines with
  | [] => inr results_dict
  | line :: rest =>
      results_dict' <-! parse_line id_map tid results_dict line;
      parse_lines id_map tid results_dict' rest
  end.

(** [lines] is the downloaded artifact, decoded and split into lines. *)
Definition parse_batch_results (records : list Record_)
    (id_map : gmap string Record_) (lines : list string) (tid : string)
    : exn + list outcome :=
  results_dict <-! parse_lines id_map tid ∅ lines;
  inr ((λ record,
          default (record, None, Some missing_error)
                  (results_dict !! id_value record)) <$> records).

End Batch.

(** *** The provider, the clock and the batch life cycle *)

(** The transport as the run sees it: the answer to the upload, the answer to
    the job creation (given the file id and the extra body), the answer to
    the n-th status query of a job, and the answer to the n-th download of a
    file (the artifact, decoded and split into lines). *)
Record SiliconClient : Type := {
  upload_jsonl : exn + json;
  create_batch : json -> json -> exn + json;
  retrieve_batch : json -> nat -> exn + json;
  download_file : json -> nat -> exn + list string
}.

(** What a run changes: the number of status queries and downloads made so
    far, the durations slept, oldest first, and the result files once they
    are written. *)
Record world : Type := {
  retrieved : nat;
  downloaded : nat;
  slept : list Q;
  outputs : option sync_output.files
}.

Definition M (A : Type) : Type := world -> world * run A.

Definition ret {A : Type} (a : A) : M A := λ w, (w, Returns a).
Definition raise {A : Type} (e : exn) : M A := λ w, (w, Raises e).
Definition hang {A : Type} : M A := λ w, (w, Hangs).

Definition seq_ {A B : Type} (m : M A) (f : A -> M B) : M B :=
  λ w, match m w with
       | (w', Returns a) => f a w'
       | (w', Raises e) => (w', Raises e)
       | (w', Hangs) => (w', Hangs)
       end.

Definition lift {A : Type} (r : exn + A) : M A :=
  match r with
  | inl e => raise e
  | inr a => ret a
  end.

(** [time.sleep]: a negative duration is a ValueError. *)
Definition negative_sleep : exn := ValueError "sleep length must be non-negative".

Definition sleep (d : Q) : M unit :=
  λ w, if Qle_bool 0 d
       then ({| retrieved := retrieved w; downloaded := downloaded w;
                slept := slept w ++ [d]; outputs := outputs w |}, Returns tt)
       else (w, Raises negative_sleep).

Definition retrieve (client : SiliconClient) (batch_id : json) : M json :=
  λ w, lift (retrieve_batch client batch_id (retrieved w))
         {| retrieved := S (retrieved w); downloaded := downloaded w;
            slept := slept w; outputs := outputs w |}.

(** A download either yields the artifact or the exception it raised, for
    the caller's [try]. *)
Definition download (client : SiliconClient) (file_id : json) : M (exn + list string) :=
  λ w, ({| retrieved := retrieved w; downloaded := S (downloaded w);
           slept := slept w; outputs := outputs w |},
        Returns (download_file client file_id (downloaded w))).

Notation "x <~ m ; k" := (seq_ m (fun x => k))
  (at level 100, m at next level, right associativity, only parsing).
Notation "m ;~ k" := (seq_ m (fun _ => k))
  (at level 100, right associativity, only parsing).

Definition is_str (v : json) (s : string) : bool :=
  match v with
  | JStr s' => String.eqb s' s
  | _ => false
  end.

(** [state in {"failed", "cancelled"}]: the state is hashed first. *)
Definition in_failed_cancelled (state : json) : exn + bool :=
  match state with
  | JArr _ | JObj _ => inl TypeError
  | _ => inr (is_str state "failed" || is_str state "cancelled")
  end.

(** [poll_batch]: the loop has no bound of its own; [fuel] bounds the number
    of status queries the model follows. *)
Fixpoint poll_batch (fuel : nat) (client : SiliconClient) (batch_id : json)
    (interval : Q) : M json :=
  match fuel with
  | O => hang
  | S fuel' =>
      status <~ retrieve client batch_id;
      state <~ lift (get status "status");
      if is_str state "completed" then ret status
      else
        stop <~ lift (in_failed_cancelled state);
        if stop : bool then ret status
        else sleep interval ;~ poll_batch fuel' client batch_id interval
  end.

(** The file id of an upload answer, under [id] or under [data.id]. *)
Definition file_id_of (file_info : json) : exn + json :=
  match file_info with
  | JObj kv =>
      let direct := dict_get kv "id" in
      if truthy direct then inr direct
      else
        match assoc "data" kv with
        | None => inr JNull
        | Some d => get d "id"
        end
  | _ => inr JNull
  end.

(** [for attempt in range(6)] over the refreshed status. *)
Fixpoint refresh (client : SiliconClient) (batch_id : json) (todo attempt : nat)
    (status output_file_id : json) : M (json * json) :=
  match todo with
  | O => ret (status, output_file_id)
  | S todo' =>
      sleep (2 * (inject_Z (Z.of_nat attempt) + 1)) ;~
      refreshed <~ retrieve client batch_id;
      output_file_id' <~ lift (get refreshed "output_file_id");
      if truthy output_file_id' then ret (refreshed, output_file_id')
      else refresh client batch_id todo' (S attempt) status output_file_id'
  end.

Definition not_generated : exn :=
  RuntimeError "批量任务已完成但尚未生成结果文件，请稍后重试".
Definition not_available : exn :=
  RuntimeError "结果文件暂不可用，请稍后重试下载".
Definition no_records : exn :=
  RuntimeError "未读取到任何记录，请检查 CSV 文件和列名配置".

(** [for attempt in range(8)] with its [else] branch. *)
Fixpoint download_loop (client : SiliconClient) (file_id : json)
    (todo attempt : nat) : M (list string) :=
  match todo with
  | O => raise not_available
  | S todo' =>
      answer <~ download client file_id;
      match answer with
      | inr result_bytes => ret result_bytes
      | inl _ =>
          sleep (2 * (inject_Z (Z.of_nat attempt) + 1)) ;~
          download_loop client file_id todo' (S attempt)
      end
  end.

Record report : Type := {
  batch : json;
  status : json;
  results : option (list outcome)
}.

Section Run.
Context `{RT : Runtime}.
Variable TEMPLATES : gmap string ExtractionTemplate.
Variable build_prompt : ExtractionTemplate -> string.

Definition unsupported (provider : option string) : exn :=
  RuntimeError ("批量推理模式当前仅支持 siliconflow、aliyun、openai。当前供应商："
                +:+ default "custom" provider
                +:+ "。请使用 --mode sync 进行同步模式处理。").

Definition no_file_id (file_info : json) : exn :=
  RuntimeError ("文件上传成功但未获取到文件ID，返回：" +:+ str_json file_info).

Definition supported (provider : option string) : bool :=
  match provider with
  | Some p => String.eqb p "siliconflow" || String.eqb p "aliyun" || String.eqb p "openai"
  | None => false
  end.

(** [SiliconClient(config)]: the constructor reads the API key, from the
    settings or else from the environment, and raises when there is none;
    [transport] is the connection the client then holds. *)
Definition SiliconClient_init (env : config_env.environ)
    (config : config_env.AppConfig) (transport : SiliconClient) : exn + SiliconClient :=
  api_key <-! config_env.ensure_api_key env (Some config); inr transport.

(** [write_outputs]: the two result files are written, unless the template
    is unknown or a row is refused. *)
Definition write_outputs (results : list outcome) (config : AppConfig) : M unit :=
  λ w, match sync_output.write_outputs TEMPLATES results config with
       | inl e => (w, Raises e)
       | inr written =>
           ({| retrieved := retrieved w; downloaded := downloaded w;
               slept := slept w; outputs := Some written |}, Returns tt)
       end.

(** [env] is the process environment, [app_config] the settings passed in,
    [records] what [read_csv_records] returned and [transport] the
    connection to the provider; printing the progress is left out. *)
Definition run_batch (fuel : nat) (env : config_env.environ) (records : list Record_)
    (app_config : config_env.AppConfig) (transport : SiliconClient)
    (poll_interval : Q) : M report :=
  let config := config_env.runner_config app_config in
  let provider := config_env.get_provider app_config in
  if negb (supported provider) then raise (unsupported provider)
  else
    match records with
    | [] => raise no_records
    | _ =>
      client <~ lift (SiliconClient_init env app_config transport);
      written <~ lift (write_request_jsonl TEMPLATES build_prompt records config);
      let id_map := snd written in
      file_info <~ lift (upload_jsonl client);
      file_id <~ lift (file_id_of file_info);
      if negb (truthy file_id) then raise (no_file_id file_info)
      else
        let extra_body :=
          if default false (String.eqb "aliyun" <$> provider) then JNull
          else JObj [("replace", JObj [("model", JStr (model config))])] in
        batch <~ lift (create_batch client file_id extra_body);
        batch_id <~ lift (getitem batch "id");
        status <~ poll_batch fuel client batch_id poll_interval;
        state <~ lift (get status "status");
        if negb (is_str state "completed")
        then ret {| batch := batch; status := status; results := None |}
        else
          output_file_id <~ lift (get status "output_file_id");
          refreshed <~ (if truthy output_file_id then ret (status, output_file_id)
                        else refresh client batch_id 6 0 status output_file_id);
          let '(status, output_file_id) := refreshed in
          if negb (truthy output_file_id) then raise not_generated
          else
            result_bytes <~ download_loop client output_file_id 8 0;
            parsed <~ lift (parse_batch_results TEMPLATES records id_map result_bytes
                              (template_id config));
            write_outputs parsed config ;~
            ret {| batch := batch; status := status; results := Some parsed |}
    end.

End Run.

End batch_runner.

(** ** patient_friendly.py *)

Module patient_friendly.
Local Open Scope list_scope.
Import py sync_runner.
Local Open Scope Q_scope.

Record PatientFriendlyResult : Type := {
  id_value : string;
  original_text : string;
  simplified_text : string;
  error : option string
}.

Definition to_dict (self : PatientFriendlyResult) : gmap string json :=
  {[ "id" := JStr (id_value self);
     "original_text" := JStr (original_text self);
     "simplified_text" := JStr (simplified_text self);
     "error" := match error self with Some e => JStr e | None => JNull end ]}.

(** The delay slept after a failed attempt that is not the last one. *)
Definition retry_delay (backoff : Q) (attempt : nat) (error_str : string) : Q :=
  if is_429 error_str then backoff ^ Z.of_nat attempt * 10
  else backoff ^ Z.of_nat attempt.

Section Retry.
Context `{RT : Runtime}.
Variable op : nat -> exn + json.
Variable config : AppConfig.

Fixpoint retry_loop (todo attempt : nat) : list event * (exn + json) :=
  match todo with
  | O => ([], inr JNull)
  | S todo' =>
      match op attempt with
      | inr resp => ([Acquire; Call attempt], inr resp)
      | inl exc =>
          let error_str := str_exn exc in
          if (max_retries (rate_limit config) <=? Z.of_nat attempt)%Z
          then ([Acquire; Call attempt], inl exc)
          else
            let delay := retry_delay (retry_backoff (rate_limit config)) attempt error_str in
            let '(trace, result) := retry_loop todo' (S attempt) in
            (Acquire :: Call attempt :: Sleep delay :: trace, result)
      end
  end.

Definition _call_with_retry : list event * (exn + json) :=
  retry_loop (Z.to_nat (max_retries (rate_limit config) + 1)) 0.

End Retry.

Section Dispatch.
Context `{RT : Runtime}.

(** [txt.strip()]: only a string has the method. *)
Definition strip_content (txt : json) : exn + string :=
  match txt with
  | JStr s => inr (strip s)
  | _ => inl AttributeError
  end.

Definition worker (config : AppConfig) (op : nat -> exn + json) (record : Record_)
    : Record_ * option PatientFriendlyResult :=
  match (resp <-! snd (_call_with_retry op config);
         txt <-! message_content resp;
         strip_content txt) with
  | inr simplified =>
      (record, Some {| id_value := sync_runner.id_value record;
                       original_text := text record;
                       simplified_text := simplified;
                       error := None |})
  | inl exc =>
      (record, Some {| id_value := sync_runner.id_value record;
                       original_text := text record;
                       simplified_text := "";
                       error := Some (str_exn exc) |})
  end.

(** As in [sync_runner.process_records], [completion] is the order in which
    the tasks finish. *)
Definition process_records (records : list Record_)
    (client : nat -> nat -> exn + json) (config : AppConfig)
    (completion : list nat) : run (list (Record_ * option PatientFriendlyResult)) :=
  if (concurrency (rate_limit config) <? 0)%Z
  then Raises (ValueError "Semaphore initial value must be >= 0")
  else
    if (concurrency (rate_limit config) =? 0)%Z
       && match records with [] => false | _ => true end
    then Hangs
    else Returns (omap (λ i, worker config (client i) <$> records !! i) completion).

End Dispatch.

Definition fieldnames : list string := ["id"; "original_text"; "simplified_text"; "error"].

Definition failed_row (record : Record_) : gmap string json :=
  {[ "id" := JStr (sync_runner.id_value record);
     "original_text" := JStr (text record);
     "simplified_text" := JStr "";
     "error" := JStr "处理失败" ]}.

(** The lines of the JSONL file and the rows of the CSV file. *)
Definition write_result (out : list PatientFriendlyResult * list (list json))
    (item : Record_ * option PatientFriendlyResult)
    : exn + (list PatientFriendlyResult * list (list json)) :=
  let '(record, result) := item in
  let '(lines, row_dict) :=
    match result with
    | Some r => (fst out ++ [r], to_dict r)
    | None => (fst out, failed_row record)
    end in
  cells <-! sync_output.writerow fieldnames row_dict;
  inr (lines, snd out ++ [cells]).

Fixpoint write_outputs_from (out : list PatientFriendlyResult * list (list json))
    (results : list (Record_ * option PatientFriendlyResult))
    : exn + (list PatientFriendlyResult * list (list json)) :=
  match results with
  | [] => inr out
  | item :: rest => out' <-! write_result out item; write_outputs_from out' rest
  end.

Definition write_outputs (results : list (Record_ * option PatientFriendlyResult))
    : exn + (list PatientFriendlyResult * list (list json)) :=
  write_outputs_from ([], []) results.

(** The count printed at the end of [run_patient_friendly]. *)
Definition succeeded (results : list (Record_ * option PatientFriendlyResult)) : nat :=
  length (List.filter
            (λ item, match snd item with
                     | Some r => negb (truthy (match error r with
                                               | Some e => JStr e
                                               | None => JNull
                                               end))
                     | None => false
                     end) results).

End patient_friendly.

(** ** convert_to_finetune.py *)

Module convert_to_finetune.
Local Open Scope list_scope.
Import py text.

(** [row.get(col, "") or ""] *)
Definition get_or_empty (row : sync_input.row) (col : string) : string :=
  match default (Some "") (row !! col) with
  | Some value => value
  | None => ""
  end.

Definition merge_columns (row : sync_input.row) (columns : list string)
    (add_label : bool) : string :=
  match columns with
  | [] => ""
  | _ =>
      let parts :=
        omap (λ col,
                let value := strip (get_or_empty row col) in
                if String.eqb value "" then None
                else if (1 <? length columns)%nat && add_label
                     then Some ("[" +:+ col +:+ "]" +:+ newline +:+ value)
                     else Some value)
             columns in
      join (newline +:+ newline) parts
  end.

(** One message of a conversation: the role and the content. *)
Definition message : Type := string * string.

(** The body of the loop over the rows: the line written for a row, if any. *)
Definition convert_row (system_content : string) (user_columns : list string)
    (assistant_columns : option (list string)) (row : sync_input.row)
    : option (list message) :=
  let user_content := merge_columns row user_columns true in
  if String.eqb (strip user_content) "" then None
  else
    let messages := [("system", system_content); ("user", user_content)] in
    match assistant_columns with
    | Some (c :: cs) =>
        let assistant_content := merge_columns row (c :: cs) false in
        if String.eqb (strip assistant_content) "" then Some messages
        else Some (messages ++ [("assistant", assistant_content)])
    | _ => Some messages
    end.

Section Convert.
Context `{RT : Runtime}.

Definition missing_user (missing columns : list string) : exn :=
  ValueError ("User 列不存在：" +:+ sync_input.str_list missing
              +:+ "。可用列：" +:+ sync_input.str_list columns).

Definition missing_assistant (missing columns : list string) : exn :=
  ValueError ("Assistant 列不存在：" +:+ sync_input.str_list missing
              +:+ "。可用列：" +:+ sync_input.str_list columns).

Definition absent (columns cols : list string) : list string :=
  List.filter (λ col, negb (bool_decide (col ∈ columns))) cols.

(** [fieldnames] and [rows] are the header and the lines of the input;
    the result lists the lines of the output file. *)
Definition convert_csv_to_jsonl (fieldnames : option (list string))
    (rows : list sync_input.row) (system_content : string)
    (user_columns : list string) (assistant_columns : option (list string))
    : exn + list (list message) :=
  match fieldnames with
  | None => inl sync_input.no_header
  | Some columns =>
      match absent columns user_columns with
      | _ :: _ as missing => inl (missing_user missing columns)
      | [] =>
          match assistant_columns with
          | Some (c :: cs) =>
              match absent columns (c :: cs) with
              | _ :: _ as missing => inl (missing_assistant missing columns)
              | [] =>
                  inr (omap (convert_row system_content user_columns assistant_columns)
                            rows)
              end
          | _ =>
              inr (omap (convert_row system_content user_columns assistant_columns) rows)
          end
      end
  end.

End Convert.

End convert_to_finetune.

(** ** cli.py *)

Module cli.
Local Open Scope list_scope.
Import py sync_runner.

(** The options of the command line that [apply_overrides] reads; an option
    that was not given is [None]. *)
Record Namespace : Type := {
  template : option string;
  api_url : option string;
  api_key : option string;
  model : option string;
  temperature : option Q;
  rpm : option Z;
  concurrency : option Z;
  timeout : option Q;
  max_retries : option Z;
  retry_backoff : option Q;
  max_chars : option Z;
  out : option string
}.

(** [if args.x:] on a text option keeps [dflt] for an absent or empty text;
    [if args.x is not None:] on a number keeps it only for an absent one. *)
Definition or_text (o : option string) (dflt : string) : string :=
  match o with
  | Some s => if String.eqb s "" then dflt else s
  | None => dflt
  end.

(** The configuration after the assignments of [apply_overrides]. *)
Definition apply_overrides (config : config_env.AppConfig) (args : Namespace)
    : config_env.AppConfig :=
  let rate := config_env.rate_limit config in
  let csv := config_env.csv config in
  {| config_env.template_id := or_text (template args) (config_env.template_id config);
     config_env.base_url := or_text (api_url args) (config_env.base_url config);
     config_env.api_key := or_text (api_key args) (config_env.api_key config);
     config_env.model := or_text (model args) (config_env.model config);
     config_env.response_temperature :=
       default (config_env.response_temperature config) (temperature args);
     config_env.rate_limit :=
       {| sync_runner.rpm := default (sync_runner.rpm rate) (rpm args);
          sync_runner.concurrency :=
            default (sync_runner.concurrency rate) (concurrency args);
          sync_runner.timeout := default (sync_runner.timeout rate) (timeout args);
          sync_runner.max_retries :=
            default (sync_runner.max_retries rate) (max_retries args);
          sync_runner.retry_backoff :=
            default (sync_runner.retry_backoff rate) (retry_backoff args) |};
     config_env.csv :=
       {| config_env.text_column_candidates := config_env.text_column_candidates csv;
          config_env.id_column_candidates := config_env.id_column_candidates csv;
          config_env.default_encoding := config_env.default_encoding csv;
          config_env.max_chars := default (config_env.max_chars csv) (max_chars args) |};
     config_env.output_dir := or_text (out args) (config_env.output_dir config) |}.

(** The figures [main] prints after a batch run: the total, the number of
    successes, the number of failures and the errors listed. *)
Definition is_success (o : outcome) : bool :=
  let '(_, extraction, err) := o in
  match extraction with Some _ => true | None => false end
  && negb (truthy (match err with Some e => JStr e | None => JNull end)).

Definition is_error (o : outcome) : bool :=
  let '(_, extraction, err) := o in
  truthy (match err with Some e => JStr e | None => JNull end)
  || negb (match extraction with Some _ => true | None => false end).

Record summary : Type := {
  total : nat;
  succeeded : nat;
  failed : Z;
  errors : list (string * option string)
}.

Definition summarise (results : list outcome) : summary :=
  let total := length results in
  let succeeded := length (List.filter is_success results) in
  let errors :=
    (λ o : outcome, (id_value o.1.1, o.2)) <$> List.filter is_error results in
  {| total := total; succeeded := succeeded;
     failed := Z.of_nat total - Z.of_nat succeeded;
     errors := firstn 20 errors |}.

End cli.

(** * Statements and proofs *)

Local Open Scope list_scope.

(** ** Auxiliary definitions *)

Module aux.
Import py templates sync_runner batch_runner.

(** The value the normalised result holds for a declared field. *)
Definition field_value (raw : list (string * json)) (k : string) : json :=
  match dict_get raw k with
  | JNull => JStr ""
  | JStr s => JStr (strip s)
  | v => v
  end.

(** Inputs of the worked examples. *)
Definition field (n : string) : FieldConfig :=
  {| name := n; display_name := n; description := ""; field_type := "string";
     enum_values := None; required := false; example := "" |}.

Definition demo_template : ExtractionTemplate :=
  {| templates.template_id := "demo"; template_name := "demo";
     fields := [field "f1"; field "f2"; field "f3"] |}.

Definition demo_templates : gmap string ExtractionTemplate :=
  {[ "demo" := demo_template ]}.

Definition rec (i t : string) : Record_ :=
  {| id_value := i; text := t; row_data := ∅ |}.

Definition demo_config : AppConfig :=
  {| base_url := "https://api.openai.com/v1"; model := "m";
     response_temperature := 0; template_id := "demo";
     rate_limit := {| rpm := 60; concurrency := 2; timeout := 60;
                      max_retries := 3; retry_backoff := 2 |} |}.

Definition demo_prompt (t : ExtractionTemplate) : string := template_name t.

(** The natural id a record is filed under by the request writer. *)
Definition base_id (record : Record_) : string :=
  if String.eqb (id_value record) "" then "row" else id_value record.

(** The key given to a record whose base id was seen [count] times before. *)
Definition key_of (count : nat) (base : string) : string :=
  if (count =? 0)%nat then base else base +:+ "__" +:+ pretty (count + 1)%nat.

(** How often [b] occurs among the base ids of [rs]. *)
Definition occurrences (b : string) (rs : list Record_) : nat :=
  length (filter (λ r, base_id r = b) rs).

(** The keys given to [rs] when the records of [seen] came before. *)
Fixpoint submission_keys (seen rs : list Record_) : list string :=
  match rs with
  | [] => []
  | r :: rs' =>
      key_of (occurrences (base_id r) seen) (base_id r)
      :: submission_keys (seen ++ [r]) rs'
  end.

(** No record is filed under a base id that has the form of a key generated
    for a duplicate of another record of the list. *)
Definition no_clash (rs : list Record_) : Prop :=
  ∀ r r' k, r ∈ rs → r' ∈ rs → base_id r ≠ base_id r' +:+ "__" +:+ pretty (k : nat).

(** The counters count the base ids seen so far. *)
Definition counts_agree (w : writer) (seen : list Record_) : Prop :=
  ∀ b, default 0%nat (seen_counts w !! b) = occurrences b seen.

Local Open Scope Q_scope.

(** The delay slept after the i-th attempt when it fails and is not the last. *)
Definition failure_delay `{RT : Runtime} (op : nat → exn + json) (backoff : Q)
    (i : nat) : Q :=
  match op i with
  | inl exc => retry_delay backoff i (str_exn exc)
  | inr _ => 0
  end.

(** The events of [k] failed attempts in a row, the first numbered [a]. *)
Definition failed_attempts `{RT : Runtime} (op : nat → exn + json) (backoff : Q)
    (a k : nat) : list event :=
  flat_map (λ i, [Acquire; Call i; Sleep (failure_delay op backoff i)]) (seq a k).

Definition failed (r : exn + json) : Prop :=
  match r with inl _ => True | inr _ => False end.

(** Texts of the worked examples. A double quote and a backslash are built
    from their codes. *)
Definition dq : string := String (ascii_of_nat 34) "".
Definition quoted (s : string) : string := dq +:+ s +:+ dq.
Definition escaped (s : string) : string :=
  String (ascii_of_nat 92) dq +:+ s +:+ String (ascii_of_nat 92) dq.

(** An answer of the model that carries an id of its own. *)
Definition answer_text : string :=
  "{" +:+ quoted "id_value" +:+ ": " +:+ quoted "ZZZ" +:+ ", "
      +:+ quoted "f1" +:+ ": " +:+ quoted " v " +:+ "}".
Definition answer_text_escaped : string :=
  "{" +:+ escaped "id_value" +:+ ": " +:+ escaped "ZZZ" +:+ ", "
      +:+ escaped "f1" +:+ ": " +:+ escaped " v " +:+ "}".
Definition answer : json := JObj [("id_value", JStr "ZZZ"); ("f1", JStr " v ")].

Definition chat_response (content : string) : json :=
  JObj [("choices", JArr [JObj [("message", JObj [("content", JStr content)])]])].

(** A result line with a response, and one with an error. *)
Definition ok_line (key content : string) : string :=
  "{" +:+ quoted "custom_id" +:+ ": " +:+ quoted key +:+ ", "
      +:+ quoted "response" +:+ ": {" +:+ quoted "body" +:+ ": {"
      +:+ quoted "choices" +:+ ": [{" +:+ quoted "message" +:+ ": {"
      +:+ quoted "content" +:+ ": " +:+ quoted content +:+ "}}]}}, "
      +:+ quoted "error" +:+ ": null}".
Definition ok_entry (key content : string) : json :=
  JObj [("custom_id", JStr key);
        ("response", JObj [("body", chat_response content)]);
        ("error", JNull)].

Definition error_line (key msg : string) : string :=
  "{" +:+ quoted "custom_id" +:+ ": " +:+ quoted key +:+ ", "
      +:+ quoted "response" +:+ ": null, "
      +:+ quoted "error" +:+ ": " +:+ quoted msg +:+ "}".
Definition error_entry (key msg : string) : json :=
  JObj [("custom_id", JStr key); ("response", JNull); ("error", JStr msg)].

Definition demo_texts : list (string * json) :=
  [ ("{}", JObj []);
    (answer_text, answer);
    (ok_line "A" "{}", ok_entry "A" "{}");
    (ok_line "B" "{}", ok_entry "B" "{}");
    (ok_line "ghost" "{}", ok_entry "ghost" "{}");
    (ok_line "A" answer_text_escaped, ok_entry "A" answer_text);
    (error_line "A__2" "boom", error_entry "A__2" "boom") ].

(** The renderings and the decoder used in the worked examples; the decoder
    knows the texts the examples contain. *)
Definition demo_str_exn (e : exn) : string :=
  match e with
  | ApiError msg => msg
  | KeyError k => "'" +:+ k +:+ "'"
  | IndexError => "list index out of range"
  | TypeError => "TypeError"
  | AttributeError => "AttributeError"
  | ValueError msg => msg
  | JSONDecodeError doc => "Expecting value: line 1 column 1 (char 0)"
  | RuntimeError msg => msg
  end.

Definition demo_loads (s : string) : exn + json :=
  match assoc s demo_texts with
  | Some v => inr v
  | None => inl (JSONDecodeError s)
  end.

Definition demo_runtime : Runtime :=
  {| json_loads := demo_loads; str_exn := demo_str_exn;
     str_json := λ v, match v with JStr s => s | _ => "" end |}.

(** A call that fails twice for reasons other than quota, then succeeds. *)
Definition flaky_op (n : nat) : exn + json :=
  match n with
  | 0%nat => inl (ApiError "Connection error.")
  | 1%nat => inl (ApiError "Request timed out.")
  | _ => inr (chat_response "{}")
  end.

(** A call that fails every time. *)
Definition dead_op (n : nat) : exn + json :=
  inl (ApiError ("Connection error. #" +:+ pretty n)).

Definition quota_message : string :=
  "Error code: 429 - RESOURCE_EXHAUSTED. Please retry in 5.0s".

(** A quota failure that suggests no delay at all. *)
Definition quota_zero_message : string :=
  "Error code: 429 - quota exceeded, retry in 0s".

(** A call that meets the quota once, then succeeds. *)
Definition quota_op (n : nat) : exn + json :=
  match n with
  | 0%nat => inl (ApiError quota_message)
  | _ => inr (chat_response "{}")
  end.

(** A client whose every answer is the answer carrying an id of its own. *)
Definition demo_client (i attempt : nat) : exn + json :=
  inr (chat_response answer_text).

(** What a line adds to the table of results: nothing when it is blank or
    its key is not in the map, else the natural id of the record found and
    the outcome. *)
Definition line_entry `{RT : Runtime} (TEMPLATES : gmap string ExtractionTemplate)
    (id_map : gmap string Record_) (tid : string) (line : string)
    : exn + option (string * outcome) :=
  if String.eqb (strip line) "" then inr None
  else
    entry <-! json_loads line;
    custom_id <-! get entry "custom_id";
    found <-! id_map_get id_map custom_id;
    match found with
    | None => inr None
    | Some record =>
        response <-! get entry "response";
        error <-! get entry "error";
        inr (Some (id_value record, line_outcome TEMPLATES tid record response error))
    end.

(** The natural id a line is filed under, if any. *)
Definition line_id `{RT : Runtime} (TEMPLATES : gmap string ExtractionTemplate)
    (id_map : gmap string Record_) (tid : string) (line : string) : option string :=
  match line_entry TEMPLATES id_map tid line with
  | inr (Some (k, _)) => Some k
  | _ => None
  end.

(** The outcome of the last line filed under [k]. *)
Fixpoint last_entry `{RT : Runtime} (TEMPLATES : gmap string ExtractionTemplate)
    (id_map : gmap string Record_) (tid : string) (k : string) (lines : list string)
    : option outcome :=
  match lines with
  | [] => None
  | line :: rest =>
      match last_entry TEMPLATES id_map tid k rest with
      | Some o => Some o
      | None =>
          match line_entry TEMPLATES id_map tid line with
          | inr (Some (k', o)) => if String.eqb k k' then Some o else None
          | _ => None
          end
      end
  end.

Definition hashable (v : json) : Prop :=
  match v with
  | JArr _ | JObj _ => False
  | _ => True
  end.

(** A line of the artifact as the provider writes it: blank, or a JSON object
    whose [custom_id], when it has one, is a scalar. *)
Definition well_formed `{RT : Runtime} (line : string) : Prop :=
  strip line = "" ∨
  ∃ kv, json_loads line = inr (JObj kv) ∧ hashable (dict_get kv "custom_id").

(** Every entry of the table is filed under the id of the record it holds,
    and an extraction in it carries that id. *)
Definition ids_agree (d : gmap string outcome) : Prop :=
  ∀ k r e err, d !! k = Some (r, e, err) →
    id_value r = k ∧ ∀ ext, e = Some ext → schema.id_value ext = k.

(** A field of an answer of the provider, [None] when there is none. *)
Definition answer_field (r : exn + json) (k : string) : json :=
  match r with
  | inr (JObj kv) => dict_get kv k
  | _ => JNull
  end.

(** The state and the output file id reported by the j-th status query. *)
Definition job_state (client : SiliconClient) (batch_id : json) (j : nat) : json :=
  answer_field (retrieve_batch client batch_id j) "status".

(** The states that end the polling. *)
Definition terminal (state : json) : bool :=
  is_str state "completed" || is_str state "failed" || is_str state "cancelled".

(** The status queries answer with JSON objects whose state is a scalar. *)
Definition answers (client : SiliconClient) (batch_id : json) : Prop :=
  ∀ j, ∃ kv, retrieve_batch client batch_id j = inr (JObj kv)
             ∧ hashable (dict_get kv "status").




Definition fresh : world :=
  {| retrieved := 0; downloaded := 0; slept := []; outputs := None |}.

(** A provider whose job is in progress, then completed without an output
    file id, then completed with one, and whose first download fails. *)
Definition demo_batch_client : SiliconClient :=
  {| upload_jsonl := inr (JObj [("id", JStr "file-1")]);
     create_batch := λ _ _, inr (JObj [("id", JStr "batch-1")]);
     retrieve_batch := λ _ j,
       match j with
       | 0%nat => inr (JObj [("status", JStr "in_progress")])
       | 1%nat => inr (JObj [("status", JStr "completed")])
       | _ => inr (JObj [("status", JStr "completed");
                         ("output_file_id", JStr "out-1")])
       end;
     download_file := λ _ j,
       match j with
       | 0%nat => inl (ApiError "Error code: 404")
       | _ => inr [ok_line "A" "{}"]
       end |}.











(** A result line whose [custom_id] is a list, and a decoder that knows it
    besides the texts of the other examples. *)
Definition list_key_line : string := "{" +:+ quoted "custom_id" +:+ ": [1]}".
Definition list_key_runtime : Runtime :=
  {| json_loads := λ s,
       if String.eqb s list_key_line then inr (JObj [("custom_id", JArr [JInt 1])])
       else demo_loads s;
     str_exn := demo_str_exn;
     str_json := λ v, match v with JStr s => s | _ => "" end |}.

End aux.

(** ** Auxiliary definitions for the remaining functions *)

Module more.
Import py templates sync_runner batch_runner.

(** A text that begins with a character that is not white space, and one
    that ends with such a character. *)
Definition head_ok (s : string) : bool :=
  match s with
  | String c _ => negb (is_space c)
  | EmptyString => false
  end.

Fixpoint last_ok (s : string) : bool :=
  match s with
  | EmptyString => false
  | String c EmptyString => negb (is_space c)
  | String _ r => last_ok r
  end.

(** An outcome holds an extraction or an error text, and not both. *)
Definition settled (o : outcome) : Prop :=
  match o with
  | (_, Some _, None) | (_, None, Some _) => True
  | _ => False
  end.

(** The names of the fields of a template. *)
Definition names (t : ExtractionTemplate) : list string := name <$> fields t.

(** An answer that has surrounding blanks, a number and a key the template
    does not declare. *)
Definition untidy_answer : list (string * json) :=
  [("id", JStr " 17 "); ("f1", JStr "  left kidney "); ("f2", JInt 3);
   ("note", JStr "not asked for")].

(** What it is normalised to. *)
Definition tidy_result : schema.ExtractionResult :=
  {| schema.id_value := "17";
     schema._data := {[ "f1" := JStr "left kidney"; "f2" := JInt 3; "f3" := JStr "" ]} |}.





(** How often a trace passes the rate limiter. *)
Definition acquires (trace : list event) : nat :=
  length (omap (λ e, match e with Acquire => Some tt | _ => None end) trace).

(** The configuration of the examples with a negative number of retries. *)
Definition no_attempt_config : AppConfig :=
  {| base_url := base_url aux.demo_config; model := model aux.demo_config;
     response_temperature := response_temperature aux.demo_config;
     template_id := template_id aux.demo_config;
     rate_limit := {| rpm := 60; concurrency := 2; timeout := 60;
                      max_retries := -1; retry_backoff := 2 |} |}.

(** The text kept of a merged text under a limit of [max_chars] characters. *)
Definition truncated (max_chars : Z) (t : string) : string :=
  if (max_chars <? Z.of_nat (text.len t))%Z then text.slice_to max_chars t else t.

(** The id given to the record kept at position [i], read from the cell
    [cell] of its row. *)
Definition id_at (i : nat) (cell : string) : string :=
  if String.eqb (strip cell) "" then "row_" +:+ pretty (i + 1)%nat else strip cell.

(** A small sheet: a header and four lines, the second one without text and
    the last one too short for the third column. *)
Definition sheet_header : list string := ["No"; "检查所见"; "Note"].
Definition sheet_rows : list sync_input.row :=
  [ {[ "No" := Some " 7 "; "检查所见" := Some " left kidney "; "Note" := Some "a" ]};
    {[ "No" := Some "8"; "检查所见" := Some "   "; "Note" := Some "b" ]};
    {[ "No" := Some "  "; "检查所见" := Some "right kidney"; "Note" := Some "" ]};
    {[ "No" := Some "9"; "检查所见" := Some "cyst"; "Note" := None ]} ].

(** The default settings with a limit of four characters, and what is read
    from the sheet under them. *)
Definition sheet_config : config_env.AppConfig :=
  {| config_env.base_url := config_env.base_url config_env.defaults;
     config_env.model := config_env.model config_env.defaults;
     config_env.output_dir := config_env.output_dir config_env.defaults;
     config_env.response_temperature :=
       config_env.response_temperature config_env.defaults;
     config_env.api_key := config_env.api_key config_env.defaults;
     config_env.template_id := config_env.template_id config_env.defaults;
     config_env.rate_limit := config_env.rate_limit config_env.defaults;
     config_env.csv :=
       {| config_env.text_column_candidates :=
            config_env.text_column_candidates (config_env.csv config_env.defaults);
          config_env.id_column_candidates :=
            config_env.id_column_candidates (config_env.csv config_env.defaults);
          config_env.default_encoding :=
            config_env.default_encoding (config_env.csv config_env.defaults);
          config_env.max_chars := 4 |} |}.

Definition sheet_records : list Record_ :=
  [ {| id_value := "7"; text := "left";
       row_data := {[ "No" := Some " 7 "; "检查所见" := Some " left kidney ";
                      "Note" := Some "a" ]} |};
    {| id_value := "row_2"; text := "righ";
       row_data := {[ "No" := Some "  "; "检查所见" := Some "right kidney";
                      "Note" := Some "" ]} |};
    {| id_value := "9"; text := "cyst";
       row_data := {[ "No" := Some "9"; "检查所见" := Some "cyst"; "Note" := None ]} |} ].

(** Conversions for the worked examples: decimal numerals without a sign. *)
Definition demo_conversions : config_env.Conversions :=
  {| config_env.int_of_str := λ s,
       if negb (String.eqb s "") && all_chars is_digit s
       then inr (Z.of_N (digits_value s 0))
       else inl (ValueError s);
     config_env.float_of_str := λ s,
       match float_of_group s with
       | Some q => inr q
       | None => inl (ValueError s)
       end |}.

(** An environment that names a key for one provider and sets two limits. *)
Definition demo_environ : config_env.environ :=
  {[ "OPENAI_API_KEY" := "sk-demo"; "RCC_RPM" := "12"; "RCC_MAX_CHARS" := "500";
     "API_BASE_URL" := "https://example.org/v1" ]}.

(** A command line without options, and one that points at another address. *)
Definition no_options : cli.Namespace :=
  {| cli.template := None; cli.api_url := None; cli.api_key := None;
     cli.model := None; cli.temperature := None; cli.rpm := None;
     cli.concurrency := None; cli.timeout := None; cli.max_retries := None;
     cli.retry_backoff := None; cli.max_chars := None; cli.out := None |}.

Definition url_options : cli.Namespace :=
  {| cli.template := Some ""; cli.api_url := Some "https://api.deepseek.com/v1";
     cli.api_key := None; cli.model := None; cli.temperature := None;
     cli.rpm := Some 0%Z; cli.concurrency := None; cli.timeout := None;
     cli.max_retries := None; cli.retry_backoff := None; cli.max_chars := None;
     cli.out := None |}.

(** The variables [from_env] converts to numbers. *)
Definition NUMERIC_VARIABLES : list string :=
  [ "RCC_TEMPERATURE"; "RCC_RPM"; "RCC_CONCURRENCY"; "RCC_TIMEOUT";
    "RCC_MAX_RETRIES"; "RCC_RETRY_BACKOFF"; "RCC_MAX_CHARS" ].

(** Whether an outcome holds an extraction. *)
Definition extracted (o : outcome) : bool :=
  match o.1.2 with Some _ => true | None => false end.

(** The cells of the row written for a patient-friendly result. *)
Definition result_row (r : patient_friendly.PatientFriendlyResult) : list json :=
  [ JStr (patient_friendly.id_value r);
    JStr (patient_friendly.original_text r);
    JStr (patient_friendly.simplified_text r);
    match patient_friendly.error r with Some e => JStr e | None => JNull end ].

(** A client that answers the first record in plain words and fails for
    every other one. *)
Definition plain_client (i attempt : nat) : exn + json :=
  match i with
  | 0%nat => inr (aux.chat_response "  Nothing to worry about. ")
  | _ => inl (ApiError "Connection error.")
  end.

(** Two records and what the patient-friendly tool returns for them when the
    second one finishes first. *)
Definition plain_items
    : list (Record_ * option patient_friendly.PatientFriendlyResult) :=
  [ (aux.rec "2" "y",
     Some {| patient_friendly.id_value := "2"; patient_friendly.original_text := "y";
             patient_friendly.simplified_text := "";
             patient_friendly.error := Some "Connection error." |});
    (aux.rec "1" "x",
     Some {| patient_friendly.id_value := "1"; patient_friendly.original_text := "x";
             patient_friendly.simplified_text := "Nothing to worry about.";
             patient_friendly.error := None |}) ].

(** The template of the examples under the name the default settings ask
    for. *)
Definition rcc_templates : gmap string ExtractionTemplate :=
  {[ "rcc" := aux.demo_template ]}.

(** What [from_env] reads from the environment of the examples for the
    provider [deepseek]. *)
Definition deepseek_settings : config_env.AppConfig :=
  {| config_env.base_url := "https://api.deepseek.com/v1";
     config_env.model := "deepseek-chat";
     config_env.output_dir := "outputs";
     config_env.response_temperature := 0;
     config_env.api_key := "";
     config_env.template_id := "rcc";
     config_env.rate_limit :=
       {| rpm := 12; concurrency := 5; timeout := 60; max_retries := 3;
          retry_backoff := 2 |};
     config_env.csv :=
       {| config_env.text_column_candidates :=
            config_env.text_column_candidates (config_env.csv config_env.defaults);
          config_env.id_column_candidates :=
            config_env.id_column_candidates (config_env.csv config_env.defaults);
          config_env.default_encoding := "utf-8-sig";
          config_env.max_chars := 500 |} |}.

End more.

(** ** schema.py: normalisation *)

Section SchemaFacts.
Import py templates aux.
Variable TEMPLATES : gmap string ExtractionTemplate.

Lemma lstrip_blank (s : string) :
  all_chars is_space s = true → lstrip s = "".
Proof.
  induction s as [|c r IH]; simpl; [done|].
  intros [Hc Hr]%andb_prop. rewrite Hc. auto.
Qed.

Lemma strip_blank (s : string) :
  all_chars is_space s = true → strip s = "".
Proof. intros Hs. unfold strip. by rewrite lstrip_blank. Qed.

Lemma normalise_field_data (raw : list (string * json))
    (r : schema.ExtractionResult) (f : FieldConfig) :
  schema._data (schema.normalise_field raw r f)
  = <[name f := field_value raw (name f)]> (schema._data r).
Proof.
  unfold schema.normalise_field, field_value.
  destruct (dict_get raw (name f)) as [| | | |s| |]; simpl; try done.
  destruct (String.eqb (strip s) "") eqn:E; simpl.
  - apply String.eqb_eq in E. by rewrite E.
  - by rewrite E.
Qed.

Lemma normalise_fields_data (raw : list (string * json)) (fs : list FieldConfig)
    (r : schema.ExtractionResult) (k : string) :
  schema._data (foldl (schema.normalise_field raw) r fs) !! k
  = if decide (k ∈ name <$> fs) then Some (field_value raw k)
    else schema._data r !! k.
Proof.
  revert r. induction fs as [|f fs IH]; intros r.
  - cbn [foldl]. rewrite decide_False; [done|apply not_elem_of_nil].
  - cbn [foldl]. rewrite fmap_cons, IH, normalise_field_data.
    destruct (decide (k ∈ name <$> fs)) as [Hk|Hk].
    + rewrite decide_True; [done|]. apply elem_of_cons; auto.
    + destruct (decide (k = name f)) as [->|Hne].
      * rewrite lookup_insert_eq. rewrite decide_True; [done|]. apply elem_of_cons; auto.
      * rewrite lookup_insert_ne by done. rewrite decide_False; [done|].
        rewrite elem_of_cons. tauto.
Qed.

(** C7. Whatever the answer of the model, the normalised result of a known
    template has an entry for every field the template declares; a field
    absent from the answer, given as null, or given as a string of blanks
    only (the empty string included) is entered as the empty string. *)
Theorem normalise_extraction_complete (raw : list (string * json))
    (tid : string) (t : ExtractionTemplate) :
  TEMPLATES !! tid = Some t →
  ∃ result, schema.normalise_extraction TEMPLATES raw tid = inr result ∧
    ∀ f, f ∈ fields t →
      ∃ v, schema._data result !! name f = Some v ∧
           (assoc (name f) raw = None → v = JStr "") ∧
           (assoc (name f) raw = Some JNull → v = JStr "") ∧
           (∀ s, assoc (name f) raw = Some (JStr s) →
                 all_chars is_space s = true → v = JStr "").
Proof.
  intros Ht. unfold schema.normalise_extraction, get_template. rewrite Ht. simpl.
  eexists; split; [reflexivity|].
  intros f Hf. exists (field_value raw (name f)). split.
  - rewrite normalise_fields_data. rewrite decide_True; [done|].
    apply list_elem_of_fmap. eauto.
  - unfold field_value, dict_get. repeat split.
    + by intros ->.
    + by intros ->.
    + intros s -> Hs. simpl. by rewrite strip_blank.
Qed.

End SchemaFacts.

Lemma normalise_extraction_complete_witness :
  ∃ result,
    schema.normalise_extraction aux.demo_templates [("f1", py.JStr "v")] "demo"
    = inr result ∧
    ∀ f, f ∈ templates.fields aux.demo_template →
      ∃ v, schema._data result !! templates.name f = Some v ∧
           (py.assoc (templates.name f) [("f1", py.JStr "v")] = None → v = py.JStr "") ∧
           (py.assoc (templates.name f) [("f1", py.JStr "v")] = Some py.JNull
            → v = py.JStr "") ∧
           (∀ s, py.assoc (templates.name f) [("f1", py.JStr "v")] = Some (py.JStr s) →
                 py.all_chars py.is_space s = true → v = py.JStr "").
Proof.
  apply (normalise_extraction_complete aux.demo_templates
           [("f1", py.JStr "v")] "demo" aux.demo_template).
  reflexivity.
Defined.


(** ** batch_runner.py: the request writer *)

Section WriterFacts.
Import py templates sync_runner batch_runner aux.
Variable config : AppConfig.
Variable system_prompt : string.

Lemma write_request_unfold (w : writer) (r : Record_) :
  write_request config system_prompt w r
  = let count := default 0%nat (seen_counts w !! base_id r) in
    let unique_id := key_of count (base_id r) in
    {| seen_counts := <[base_id r := (count + 1)%nat]> (seen_counts w);
       id_map := <[unique_id := r]> (id_map w);
       written := written w ++
                  [build_batch_payload r config system_prompt (Some unique_id)] |}.
Proof. reflexivity. Qed.

Lemma base_id_nonempty (r : Record_) : base_id r ≠ "".
Proof.
  unfold base_id. destruct (String.eqb_spec (id_value r) ""); [done|done].
Qed.

Lemma key_of_nonempty (n : nat) (r : Record_) : key_of n (base_id r) ≠ "".
Proof.
  unfold key_of. pose proof (base_id_nonempty r) as Hb.
  destruct (n =? 0)%nat; [done|]. by destruct (base_id r).
Qed.

Lemma payload_custom_id (r : Record_) (k : string) :
  k ≠ "" → custom_id (build_batch_payload r config system_prompt (Some k)) = k.
Proof.
  intros Hk. simpl. by destruct (String.eqb_spec k "").
Qed.

Lemma occurrences_snoc (b : string) (rs : list Record_) (r : Record_) :
  occurrences b (rs ++ [r])
  = (occurrences b rs + if decide (base_id r = b) then 1 else 0)%nat.
Proof.
  unfold occurrences. rewrite filter_app, length_app. f_equal.
  rewrite filter_cons. case_decide; done.
Qed.

Lemma write_request_counts (w : writer) (seen : list Record_) (r : Record_) :
  counts_agree w seen →
  counts_agree (write_request config system_prompt w r) (seen ++ [r]).
Proof.
  intros Hw b. rewrite occurrences_snoc, write_request_unfold. cbn [seen_counts].
  case_decide as Hb.
  - subst b. rewrite lookup_insert_eq. simpl. by rewrite Hw.
  - rewrite lookup_insert_ne by done. rewrite Hw. lia.
Qed.

Lemma write_request_key (w : writer) (seen : list Record_) (r : Record_) :
  counts_agree w seen →
  custom_id <$> written (write_request config system_prompt w r)
  = (custom_id <$> written w) ++ [key_of (occurrences (base_id r) seen) (base_id r)].
Proof.
  intros Hw. rewrite write_request_unfold. cbn [written].
  rewrite fmap_app. f_equal. cbn [fmap list_fmap].
  rewrite payload_custom_id by apply key_of_nonempty. by rewrite Hw.
Qed.

Lemma write_requests_keys (rs seen : list Record_) (w : writer) :
  counts_agree w seen →
  custom_id <$> written (foldl (write_request config system_prompt) w rs)
  = (custom_id <$> written w) ++ submission_keys seen rs.
Proof.
  revert seen w. induction rs as [|r rs IH]; intros seen w Hw.
  - simpl. by rewrite app_nil_r.
  - cbn [foldl submission_keys].
    rewrite (IH (seen ++ [r])) by by apply write_request_counts.
    rewrite (write_request_key _ seen) by done.
    by rewrite <- app_assoc.
Qed.

Lemma write_requests_id_map_other (rs seen : list Record_) (w : writer) (k : string) :
  counts_agree w seen →
  k ∉ submission_keys seen rs →
  id_map (foldl (write_request config system_prompt) w rs) !! k = id_map w !! k.
Proof.
  revert seen w. induction rs as [|r rs IH]; intros seen w Hw Hk; [done|].
  cbn [foldl submission_keys] in *.
  apply not_elem_of_cons in Hk as [Hne Hk].
  rewrite (IH (seen ++ [r])); [|by apply write_request_counts|done].
  rewrite write_request_unfold. cbn [id_map]. rewrite Hw.
  by rewrite lookup_insert_ne.
Qed.

Lemma write_requests_id_map (rs seen : list Record_) (w : writer)
    (i : nat) (r : Record_) (k : string) :
  counts_agree w seen →
  NoDup (submission_keys seen rs) →
  rs !! i = Some r →
  submission_keys seen rs !! i = Some k →
  id_map (foldl (write_request config system_prompt) w rs) !! k = Some r.
Proof.
  revert seen w i. induction rs as [|r0 rs IH]; intros seen w i Hw Hnd Hr Hk; [done|].
  cbn [foldl submission_keys] in *. apply NoDup_cons in Hnd as [Hfresh Hnd].
  destruct i as [|i]; simpl in Hr, Hk.
  - injection Hr as ->. injection Hk as <-.
    rewrite (write_requests_id_map_other _ (seen ++ [r]));
      [|by apply write_request_counts|done].
    rewrite write_request_unfold. cbn [id_map]. rewrite Hw.
    apply lookup_insert_eq.
  - apply (IH (seen ++ [r0]) _ i); [by apply write_request_counts|done..].
Qed.

Lemma submission_keys_lookup (rs seen : list Record_) (i : nat) (r : Record_) :
  rs !! i = Some r →
  submission_keys seen rs !! i
  = Some (key_of (occurrences (base_id r) (seen ++ take i rs)) (base_id r)).
Proof.
  revert seen i. induction rs as [|r0 rs IH]; intros seen i Hr; [done|].
  destruct i as [|i]; simpl in *.
  - injection Hr as ->. by rewrite app_nil_r.
  - rewrite (IH _ _ Hr). by rewrite <- app_assoc.
Qed.

Lemma counts_agree_init :
  counts_agree {| seen_counts := ∅; id_map := ∅; written := [] |} [].
Proof. intros b. done. Qed.

End WriterFacts.

Section WriterInverse.
Import py templates sync_runner batch_runner aux.
Variable config : AppConfig.
Variable system_prompt : string.

(** An entry of the map was there before or was written for one of the
    records, under the key given to that record. *)
Lemma write_requests_id_map_inv (rs seen : list Record_) (w : writer)
    (s : string) (r' : Record_) :
  counts_agree w seen →
  id_map (foldl (write_request config system_prompt) w rs) !! s = Some r' →
  id_map w !! s = Some r' ∨
  ∃ i, rs !! i = Some r' ∧ submission_keys seen rs !! i = Some s.
Proof.
  revert seen w. induction rs as [|r rs IH]; intros seen w Hw Hs; [by left|].
  cbn [foldl submission_keys] in *.
  destruct (IH (seen ++ [r]) _ (write_request_counts config system_prompt w seen r Hw) Hs)
    as [Hhere|(i & Hi & Hk)].
  - rewrite write_request_unfold in Hhere. cbn [id_map] in Hhere. rewrite Hw in Hhere.
    destruct (decide (key_of (occurrences (base_id r) seen) (base_id r) = s)) as [<-|Hne].
    + rewrite lookup_insert_eq in Hhere. injection Hhere as <-. right. by exists 0%nat.
    + rewrite lookup_insert_ne in Hhere by done. by left.
  - right. by exists (S i).
Qed.

Lemma occurrences_zero (b : string) (rs : list Record_) :
  (∀ r, r ∈ rs → base_id r ≠ b) → occurrences b rs = 0%nat.
Proof.
  intros Hb. unfold occurrences. induction rs as [|r rs IH]; [done|].
  rewrite filter_cons, decide_False by (apply Hb; by left).
  apply IH. intros x Hx. apply Hb. by right.
Qed.

(** With pairwise distinct base ids every record is written under its base id. *)
Lemma submission_keys_distinct (rs : list Record_) (i : nat) (r : Record_) :
  NoDup (base_id <$> rs) → rs !! i = Some r →
  submission_keys [] rs !! i = Some (base_id r).
Proof.
  intros Hnd Hr. rewrite (submission_keys_lookup _ _ _ _ Hr). f_equal.
  rewrite occurrences_zero; [done|].
  intros x Hx Heq. apply list_elem_of_lookup in Hx as [j Hj].
  apply lookup_take_Some in Hj as [Hj Hlt].
  assert (j = i); [|lia].
  apply (NoDup_lookup (base_id <$> rs) j i (base_id r)); [done|..];
    rewrite list_lookup_fmap; [by rewrite Hj; simpl; f_equal|by rewrite Hr].
Qed.

End WriterInverse.

Section KeyFacts.
Import py templates sync_runner batch_runner aux.

Lemma append_cons (c : ascii) (s t : string) :
  String c s +:+ t = String c (s +:+ t).
Proof. reflexivity. Qed.

Lemma pretty_N_char_digit (x : N) : is_digit (pretty_N_char x) = true.
Proof. unfold pretty_N_char. by repeat case_match. Qed.

Lemma pretty_N_go_digits (x : N) (s : string) :
  all_chars is_digit s = true → all_chars is_digit (pretty_N_go x s) = true.
Proof.
  revert s. induction (N.lt_wf_0 x) as [x _ IH]; intros s Hs.
  destruct (decide (x = 0)%N) as [->|Hx]; [by rewrite pretty_N_go_0|].
  rewrite pretty_N_go_step by lia. apply IH; [apply N.div_lt; lia|].
  cbn [all_chars]. by rewrite pretty_N_char_digit.
Qed.

Lemma pretty_nat_digits (n : nat) : all_chars is_digit (pretty n) = true.
Proof.
  unfold pretty, pretty_nat, pretty, pretty_N.
  case_decide; [done|]. by apply pretty_N_go_digits.
Qed.

Lemma all_chars_app (p : ascii → bool) (a b : string) :
  all_chars p (a +:+ b) = all_chars p a && all_chars p b.
Proof.
  induction a as [|c a IH]; [done|].
  rewrite append_cons. cbn [all_chars]. by rewrite IH, andb_assoc.
Qed.

Lemma append_nil_l (s : string) : "" +:+ s = s.
Proof. reflexivity. Qed.

Lemma digits_no_separator (a d : string) :
  all_chars is_digit (a +:+ String "_" (String "_" d)) = false.
Proof.
  rewrite all_chars_app. apply andb_false_intro2. done.
Qed.

(** A base id followed by the separator and a number is read back in one way
    only. *)
Lemma suffixed_inj (a a' d d' : string) :
  all_chars is_digit d = true → all_chars is_digit d' = true →
  a +:+ "__" +:+ d = a' +:+ "__" +:+ d' → a = a' ∧ d = d'.
Proof.
  intros Hd Hd'. revert a'. induction a as [|c a IH]; intros a' Heq.
  - destruct a' as [|c1 [|c2 a']]; rewrite ?append_cons, ?append_nil_l in Heq.
    + by injection Heq as ->.
    + injection Heq as _ Heq. rewrite Heq in Hd. done.
    + injection Heq as _ _ Heq. rewrite Heq, digits_no_separator in Hd. done.
  - destruct a' as [|c' a'].
    + destruct a as [|c2 a]; rewrite ?append_cons, ?append_nil_l in Heq.
      * injection Heq as _ Heq. rewrite <- Heq in Hd'. done.
      * injection Heq as _ _ Heq. rewrite <- Heq, digits_no_separator in Hd'. done.
    + rewrite !(append_cons _ _ ("__" +:+ _)) in Heq. injection Heq as -> Heq.
      by destruct (IH a' Heq) as [-> ->].
Qed.

Lemma key_of_inj (n n' : nat) (b b' : string) :
  (∀ k : nat, b ≠ b' +:+ "__" +:+ pretty k) →
  (∀ k : nat, b' ≠ b +:+ "__" +:+ pretty k) →
  key_of n b = key_of n' b' → b = b' ∧ n = n'.
Proof.
  intros Hb Hb'. unfold key_of.
  destruct (Nat.eqb_spec n 0) as [->|Hn], (Nat.eqb_spec n' 0) as [->|Hn'].
  - done.
  - intros Heq. by destruct (Hb (n' + 1)).
  - intros Heq. by destruct (Hb' (n + 1)).
  - intros Heq. apply suffixed_inj in Heq as [-> Heq]; [|apply pretty_nat_digits..].
    apply (inj pretty) in Heq. split; [done|lia].
Qed.

Lemma occurrences_app (b : string) (l1 l2 : list Record_) :
  occurrences b (l1 ++ l2) = (occurrences b l1 + occurrences b l2)%nat.
Proof. unfold occurrences. by rewrite filter_app, length_app. Qed.

Lemma occurrences_self (r : Record_) : occurrences (base_id r) [r] = 1%nat.
Proof. unfold occurrences. by rewrite filter_cons, decide_True. Qed.

Lemma length_submission_keys (rs seen : list Record_) :
  length (submission_keys seen rs) = length rs.
Proof.
  revert seen. induction rs as [|r rs IH]; intros seen; [done|].
  cbn [submission_keys length]. by rewrite IH.
Qed.

(** As long as no natural id has the form of a generated key, the keys are
    pairwise distinct. *)
Lemma submission_keys_NoDup (rs seen : list Record_) :
  no_clash rs → NoDup (submission_keys seen rs).
Proof.
  revert seen. induction rs as [|r rs IH]; intros seen Hclash; [constructor|].
  cbn [submission_keys]. apply NoDup_cons. split.
  - intros Hin. apply list_elem_of_lookup in Hin as [i Hi].
    destruct (lookup_lt_is_Some_2 rs i) as [r' Hr'].
    { apply lookup_lt_Some in Hi. by rewrite length_submission_keys in Hi. }
    rewrite (submission_keys_lookup _ _ _ _ Hr') in Hi. injection Hi as Hi.
    assert (Hr : r ∈ r :: rs) by (by left).
    assert (Hr'' : r' ∈ r :: rs) by (right; by apply list_elem_of_lookup_2 in Hr').
    apply key_of_inj in Hi as [Hb Hn].
    + rewrite Hb, !occurrences_app, occurrences_self in Hn. lia.
    + intros k. by apply Hclash.
    + intros k. by apply Hclash.
  - apply IH. intros x y k Hx Hy. apply Hclash; by right.
Qed.

End KeyFacts.

Section WriterClaims.
Import py templates sync_runner batch_runner aux.

(** The rule of the writer, for a known template: the i-th line carries the
    key computed from the record's base id and the number of earlier records
    with that base id, and as long as the keys are pairwise distinct the map
    returns the i-th record for the i-th key. *)
Lemma write_request_jsonl_keys (TEMPLATES : gmap string ExtractionTemplate)
    (build_prompt : ExtractionTemplate → string) (records : list Record_)
    (config : AppConfig) (t : ExtractionTemplate) :
  TEMPLATES !! template_id config = Some t →
  ∃ lines m,
    write_request_jsonl TEMPLATES build_prompt records config = inr (lines, m) ∧
    custom_id <$> lines = submission_keys [] records ∧
    (∀ i r, records !! i = Some r →
       (custom_id <$> lines) !! i
       = Some (key_of (occurrences (base_id r) (take i records)) (base_id r))) ∧
    (NoDup (custom_id <$> lines) →
     ∀ i r k, records !! i = Some r → (custom_id <$> lines) !! i = Some k →
              m !! k = Some r).
Proof.
  intros Ht. unfold write_request_jsonl, build_system_prompt, get_template.
  rewrite Ht. simpl. eexists _, _. split; [reflexivity|].
  pose proof (write_requests_keys config (build_prompt t) records [] _
                counts_agree_init) as Hkeys.
  simpl in Hkeys. rewrite Hkeys. split; [done|]. split.
  - intros i r Hr. by rewrite (submission_keys_lookup _ _ _ _ Hr).
  - intros Hnd i r k Hr Hk.
    by apply (write_requests_id_map config (build_prompt t) records [] _ i).
Qed.

(** With no natural id of the form of a generated key, the keys are unique
    and the map returns every record for its key. *)
Lemma write_request_jsonl_unique (TEMPLATES : gmap string ExtractionTemplate)
    (build_prompt : ExtractionTemplate → string) (records : list Record_)
    (config : AppConfig) (t : ExtractionTemplate) :
  TEMPLATES !! template_id config = Some t →
  no_clash records →
  ∃ lines m,
    write_request_jsonl TEMPLATES build_prompt records config = inr (lines, m) ∧
    NoDup (custom_id <$> lines) ∧
    ∀ i r k, records !! i = Some r → (custom_id <$> lines) !! i = Some k →
             m !! k = Some r.
Proof.
  intros Ht Hclash.
  destruct (write_request_jsonl_keys TEMPLATES build_prompt records config t Ht)
    as (lines & m & Hrun & Hkeys & _ & Hmap).
  exists lines, m. split; [done|].
  assert (Hnd : NoDup (custom_id <$> lines)).
  { rewrite Hkeys. by apply submission_keys_NoDup. }
  split; [done|]. by apply Hmap.
Qed.

Lemma write_request_jsonl_keys_example :
  ∃ lines m,
    write_request_jsonl demo_templates demo_prompt
      [rec "A" "x"; rec "A" "y"; rec "B" "z"] demo_config = inr (lines, m) ∧
    custom_id <$> lines = ["A"; "A__2"; "B"] ∧
    NoDup (custom_id <$> lines) ∧
    m !! "A" = Some (rec "A" "x") ∧ m !! "A__2" = Some (rec "A" "y") ∧
    m !! "B" = Some (rec "B" "z").
Proof.
  eexists _, _. split; [reflexivity|]. split; [by vm_compute|]. split.
  - apply (bool_decide_unpack _). by vm_compute.
  - by vm_compute.
Qed.

(** C6. The keys are not always distinct: when a natural id has the very form
    of a key generated for an earlier duplicate, two records get the same key,
    and the map returns the later record for it. *)
Theorem write_request_jsonl_key_collision :
  ∃ lines m,
    write_request_jsonl demo_templates demo_prompt
      [rec "A" "x"; rec "A" "y"; rec "A__2" "z"] demo_config = inr (lines, m) ∧
    custom_id <$> lines = ["A"; "A__2"; "A__2"] ∧
    ¬ NoDup (custom_id <$> lines) ∧
    m !! "A__2" = Some (rec "A__2" "z") ∧
    m !! "A__2" ≠ Some (rec "A" "y").
Proof.
  eexists _, _. split; [reflexivity|]. split; [by vm_compute|]. split.
  - apply (bool_decide_unpack _). by vm_compute.
  - split; [by vm_compute|]. intros Heq. vm_compute in Heq. discriminate Heq.
Qed.

End WriterClaims.

(** ** sync_runner.py: the retry wrapper *)

Section RetryFacts.
Import py templates sync_runner aux.
Local Open Scope Q_scope.
Context `{RT : Runtime}.
Variable op : nat → exn + json.
Variable config : AppConfig.

Local Abbreviation mr := (max_retries (rate_limit config)).
Local Abbreviation backoff := (retry_backoff (rate_limit config)).

Lemma attempts_acquire (trace : list event) :
  attempts (Acquire :: trace) = attempts trace.
Proof. reflexivity. Qed.

Lemma attempts_call (n : nat) (trace : list event) :
  attempts (Call n :: trace) = S (attempts trace).
Proof. reflexivity. Qed.

Lemma attempts_sleep (d : Q) (trace : list event) :
  attempts (Sleep d :: trace) = attempts trace.
Proof. reflexivity. Qed.

Lemma retry_loop_attempts (todo a : nat) :
  (attempts (fst (retry_loop op config todo a)) ≤ todo)%nat.
Proof.
  revert a. induction todo as [|todo IH]; intros a; cbn [retry_loop]; [done|].
  destruct (op a) as [exc|resp]; cbn [fst].
  - destruct (mr <=? Z.of_nat a)%Z; cbn [fst].
    + rewrite attempts_acquire, attempts_call. change (attempts []) with 0%nat. lia.
    + specialize (IH (S a)).
      destruct (retry_loop op config todo (S a)) as [trace result]. cbn [fst] in *.
      rewrite attempts_acquire, attempts_call, attempts_sleep. lia.
  - rewrite attempts_acquire, attempts_call. change (attempts []) with 0%nat. lia.
Qed.

Lemma failed_attempts_cons (a k : nat) :
  failed_attempts op backoff a (S k)
  = Acquire :: Call a :: Sleep (failure_delay op backoff a)
    :: failed_attempts op backoff (S a) k.
Proof. reflexivity. Qed.

(** The loop runs through [k] failures that are not final and stops at the
    next attempt if that one succeeds or is the final one. *)
Lemma retry_loop_stops (k todo a : nat) :
  (k < todo)%nat →
  (∀ j, (j < k)%nat → failed (op (a + j))) →
  (Z.of_nat (a + k) ≤ mr)%Z →
  (¬ failed (op (a + k)) ∨ (mr ≤ Z.of_nat (a + k))%Z) →
  retry_loop op config todo a
  = (failed_attempts op backoff a k ++ [Acquire; Call (a + k)%nat], op (a + k)%nat).
Proof.
  revert todo a. induction k as [|k IH]; intros todo a Hlt Hfail Hle Hstop.
  - destruct todo as [|todo]; [lia|]. rewrite Nat.add_0_r in *. simpl.
    destruct (op a) as [exc|resp]; [|done].
    destruct Hstop as [Hs|Hs]; [by destruct Hs|].
    by rewrite (proj2 (Z.leb_le _ _) Hs).
  - destruct todo as [|todo]; [lia|]. cbn [retry_loop].
    pose proof (Hfail 0%nat ltac:(lia)) as H0. rewrite Nat.add_0_r in H0.
    rewrite failed_attempts_cons. unfold failure_delay at 1.
    destruct (op a) as [exc|resp]; [|done].
    rewrite (proj2 (Z.leb_gt _ _)) by lia.
    rewrite (IH todo (S a)).
    + simpl. by replace (a + S k)%nat with (S (a + k)) by lia.
    + lia.
    + intros j Hj. replace (S a + j)%nat with (a + S j)%nat by lia. apply Hfail. lia.
    + replace (S a + k)%nat with (a + S k)%nat by lia. done.
    + replace (S a + k)%nat with (a + S k)%nat by lia. done.
Qed.

Lemma attempts_failed_attempts (a k : nat) (rest : list event) :
  attempts (failed_attempts op backoff a k ++ rest) = (k + attempts rest)%nat.
Proof.
  revert a. induction k as [|k IH]; intros a; [done|].
  rewrite failed_attempts_cons. cbn [app].
  rewrite attempts_acquire, attempts_call, attempts_sleep, IH. lia.
Qed.

Lemma sleeps_failed_attempts (a k : nat) (rest : list event) :
  sleeps (failed_attempts op backoff a k ++ rest)
  = (failure_delay op backoff <$> seq a k) ++ sleeps rest.
Proof.
  revert a. induction k as [|k IH]; intros a; [done|].
  rewrite failed_attempts_cons. cbn [app]. unfold sleeps in *. simpl.
  f_equal. apply IH.
Qed.

(** The sleep that follows a failed attempt which is not the final one. *)
Lemma retry_loop_sleep (todo a i : nat) (exc : exn) :
  (i < todo)%nat →
  (∀ j, (j < i)%nat → failed (op (a + j))) →
  op (a + i)%nat = inl exc →
  (Z.of_nat (a + i) < mr)%Z →
  sleeps (fst (retry_loop op config todo a)) !! i
  = Some (retry_delay backoff (a + i) (str_exn exc)).
Proof.
  revert a i. induction todo as [|todo IH]; intros a i Hlt Hfail Hexc Hmr; [lia|].
  cbn [retry_loop]. destruct i as [|i].
  - rewrite Nat.add_0_r in *. rewrite Hexc.
    rewrite (proj2 (Z.leb_gt _ _)) by lia.
    by destruct (retry_loop op config todo (S a)).
  - pose proof (Hfail 0%nat ltac:(lia)) as H0. rewrite Nat.add_0_r in H0.
    destruct (op a) as [exc0|resp]; [|done].
    rewrite (proj2 (Z.leb_gt _ _)) by lia.
    specialize (IH (S a) i).
    destruct (retry_loop op config todo (S a)) as [trace result]. cbn [fst] in *.
    replace (a + S i)%nat with (S a + i)%nat in * by lia.
    apply IH; [lia| |done|done].
    intros j Hj. replace (S a + j)%nat with (a + S j)%nat by lia. apply Hfail. lia.
Qed.

End RetryFacts.

Section RetryClaims.
Import py templates sync_runner aux.
Local Open Scope Q_scope.
Context `{RT : Runtime}.
Variable op : nat → exn + json.
Variable config : AppConfig.

Local Abbreviation mr := (max_retries (rate_limit config)).
Local Abbreviation backoff := (retry_backoff (rate_limit config)).

Lemma failure_delay_generic (k : nat) :
  (∀ j, (j < k)%nat → failed (op j)) →
  (∀ j exc, (j < k)%nat → op j = inl exc → is_429 (str_exn exc) = false) →
  failure_delay op backoff <$> seq 0 k = (λ i, backoff ^ Z.of_nat i) <$> seq 0 k.
Proof.
  intros Hfail Hgen. apply list_fmap_ext. intros i j Hj.
  apply lookup_seq in Hj as [-> Hlt]. simpl. unfold failure_delay.
  specialize (Hfail i Hlt). destruct (op i) as [exc|resp] eqn:E; [|done].
  unfold retry_delay. by rewrite (Hgen i exc Hlt E).
Qed.

(** C2. With a retry count that is not negative, the wrapper makes at most
    [max_retries + 1] attempts. If the first [k <= max_retries] attempts fail
    and the next one succeeds, it returns that answer after [k + 1] attempts,
    and when none of the failures is a quota failure the sleeps in between are
    [backoff^0, ..., backoff^(k-1)], so that their total is the sum of these
    powers. If all [max_retries + 1] attempts fail, the exception of the last
    one is raised as it is. *)
Theorem call_with_retry_policy :
  (0 ≤ mr)%Z →
  let run := _call_with_retry op config in
  (Z.of_nat (attempts (fst run)) ≤ mr + 1)%Z ∧
  (∀ k v, (Z.of_nat k ≤ mr)%Z →
     (∀ j, (j < k)%nat → failed (op j)) → op k = inr v →
     snd run = inr v ∧ attempts (fst run) = S k ∧
     ((∀ j exc, (j < k)%nat → op j = inl exc → is_429 (str_exn exc) = false) →
      sleeps (fst run) = (λ i, backoff ^ Z.of_nat i) <$> seq 0 k ∧
      total (sleeps (fst run)) = total ((λ i, backoff ^ Z.of_nat i) <$> seq 0 k))) ∧
  (∀ exc, (∀ j, (Z.of_nat j ≤ mr)%Z → failed (op j)) →
     op (Z.to_nat mr) = inl exc →
     snd run = inl exc ∧ Z.of_nat (attempts (fst run)) = (mr + 1)%Z).
Proof.
  intros Hmr run. subst run. unfold _call_with_retry. split; [|split].
  - pose proof (retry_loop_attempts op config (Z.to_nat (mr + 1)) 0). lia.
  - intros k v Hk Hfail Hv.
    rewrite (retry_loop_stops op config k (Z.to_nat (mr + 1)) 0);
      [|lia|done|lia|left; simpl; rewrite Hv; intros []].
    cbn [fst snd plus]. split; [done|]. split.
    + rewrite attempts_failed_attempts. cbn. lia.
    + intros Hgen. rewrite sleeps_failed_attempts. cbn [sleeps omap list_omap].
      rewrite app_nil_r. by rewrite failure_delay_generic.
  - intros exc Hfail Hlast.
    rewrite (retry_loop_stops op config (Z.to_nat mr) (Z.to_nat (mr + 1)) 0);
      [|lia| |simpl; lia|right; simpl; lia].
    + cbn [fst snd plus]. split; [done|].
      rewrite attempts_failed_attempts. cbn. lia.
    + intros j Hj. apply Hfail. lia.
Qed.

Lemma search_skip (at_ : string → option string) (head rest : string) :
  (∀ h1 h2, head = h1 +:+ h2 → h2 ≠ "" → at_ (h2 +:+ rest) = None) →
  search at_ (head +:+ rest) = search at_ rest.
Proof.
  induction head as [|c head IH]; intros Hnone; [done|].
  pose proof (Hnone "" (String c head) eq_refl ltac:(done)) as H0.
  rewrite append_cons in *. cbn [search]. rewrite H0.
  apply IH. intros h1 h2 -> Hne. by apply (Hnone (String c h1) h2).
Qed.

(** C3. For a failure classified as a quota failure (the text holds [429] or
    [RESOURCE_EXHAUSTED] as written, or [quota] in any letter case), the delay
    is [min(suggested + 2, 120)] when a suggested delay other than zero is
    read from the text, and [backoff^attempt * 10] when none is read or the
    one read is zero. This is the delay slept after every failed attempt that
    is not the final one. A quota failure whose leftmost match of the first
    pattern is [retry in 5.0s] gives 7 seconds. *)
Theorem quota_retry_delay :
  (∀ msg, is_429 msg = true ↔
     contains "429" msg = true ∨ contains "RESOURCE_EXHAUSTED" msg = true
     ∨ contains "quota" (lower msg) = true) ∧
  (∀ (b : Q) (attempt : nat) (msg : string), is_429 msg = true →
     (∀ d, _extract_429_retry_delay msg = Some d → ¬ d == 0 →
           retry_delay b attempt msg = Qmin (d + 2) 120) ∧
     (∀ d, _extract_429_retry_delay msg = Some d → d == 0 →
           retry_delay b attempt msg = b ^ Z.of_nat attempt * 10) ∧
     (_extract_429_retry_delay msg = None →
           retry_delay b attempt msg = b ^ Z.of_nat attempt * 10)) ∧
  (∀ i exc, (Z.of_nat i < mr)%Z → (∀ j, (j < i)%nat → failed (op j)) →
     op i = inl exc →
     sleeps (fst (_call_with_retry op config)) !! i
     = Some (retry_delay backoff i (str_exn exc))) ∧
  (∀ (b : Q) (attempt : nat) (head tail : string),
     is_429 (head +:+ "retry in 5.0s" +:+ tail) = true →
     (∀ h1 h2, head = h1 +:+ h2 → h2 ≠ "" →
               pattern1_at (h2 +:+ "retry in 5.0s" +:+ tail) = None) →
     retry_delay b attempt (head +:+ "retry in 5.0s" +:+ tail) == 7).
Proof.
  split; [|split; [|split]].
  - intros msg. unfold is_429. rewrite !orb_true_iff. tauto.
  - intros b attempt msg H429. unfold retry_delay. rewrite H429.
    repeat split.
    + intros d -> Hd. simpl.
      destruct (Qeq_bool d 0) eqn:E; [|done].
      by apply Qeq_bool_iff in E.
    + intros d -> Hd. simpl. by rewrite (proj2 (Qeq_bool_iff d 0) Hd).
    + by intros ->.
  - intros i exc Hi Hfail Hexc. unfold _call_with_retry.
    apply (retry_loop_sleep op config (Z.to_nat (mr + 1)) 0 i exc); [lia|done..].
  - intros b attempt head tail H429 Hleft. unfold retry_delay. rewrite H429.
    unfold _extract_429_retry_delay, try_pattern.
    rewrite (search_skip pattern1_at head _ Hleft). by vm_compute.
Qed.

End RetryClaims.

Lemma call_with_retry_policy_witness :
  snd (sync_runner._call_with_retry (RT := aux.demo_runtime) aux.flaky_op aux.demo_config)
  = inr (aux.chat_response "{}") ∧
  sync_runner.attempts
    (fst (sync_runner._call_with_retry (RT := aux.demo_runtime) aux.flaky_op aux.demo_config))
  = 3%nat ∧
  sync_runner.sleeps
    (fst (sync_runner._call_with_retry (RT := aux.demo_runtime) aux.flaky_op aux.demo_config))
  = (λ i, 2 ^ Z.of_nat i)%Q <$> seq 0 2 ∧
  snd (sync_runner._call_with_retry (RT := aux.demo_runtime) aux.dead_op aux.demo_config)
  = inl (py.ApiError "Connection error. #3").
Proof.
  destruct (@call_with_retry_policy aux.demo_runtime aux.flaky_op aux.demo_config
              ltac:(done)) as (_ & Hok & _).
  assert (Hfail : ∀ j, (j < 2)%nat → aux.failed (aux.flaky_op j)).
  { intros [|[|j]] Hj; [exact I|exact I|lia]. }
  destruct (Hok 2%nat (aux.chat_response "{}") ltac:(done) Hfail eq_refl)
    as (Hres & Hatt & Hsl).
  destruct Hsl as [Hsl _].
  { intros [|[|j]] exc Hj Heq; [by injection Heq as <-..|lia]. }
  destruct (@call_with_retry_policy aux.demo_runtime aux.dead_op aux.demo_config
              ltac:(done)) as (_ & _ & Hdead).
  destruct (Hdead (py.ApiError "Connection error. #3") (λ _ _, I) eq_refl)
    as [Hraise _].
  repeat split; assumption.
Defined.

Lemma quota_retry_delay_witness :
  sync_runner.sleeps
    (fst (sync_runner._call_with_retry (RT := aux.demo_runtime) aux.quota_op aux.demo_config))
    !! 0%nat
  = Some (sync_runner.retry_delay 2 0 aux.quota_message) ∧
  (sync_runner.retry_delay 2 0 aux.quota_message == 7)%Q.
Proof.
  destruct (@quota_retry_delay aux.demo_runtime aux.quota_op aux.demo_config)
    as (_ & _ & Hsleep & Hfive).
  split.
  - apply (Hsleep 0%nat (py.ApiError aux.quota_message) ltac:(done));
      [intros j Hj; lia|reflexivity].
  - apply (Hfive 2%Q 0%nat "Error code: 429 - RESOURCE_EXHAUSTED. Please " "");
      [by vm_compute|].
    intros h1 h2 Heq Hne.
    repeat (destruct h1 as [|? h1];
            [change h2 with ("" +:+ h2) in Hne |- *; rewrite <- Heq; by vm_compute
            |rewrite append_cons in Heq; injection Heq as <- Heq]).
    destruct h1 as [|c h1].
    + change ("" +:+ h2) with h2 in Heq. by subst h2.
    + rewrite append_cons in Heq. discriminate Heq.
Defined.

Lemma quota_retry_delay_counterexample :
  sync_runner.is_429 aux.quota_zero_message = true ∧
  sync_runner._extract_429_retry_delay aux.quota_zero_message = Some 0%Q ∧
  (sync_runner.retry_delay 2 1 aux.quota_zero_message == 20)%Q ∧
  ¬ (sync_runner.retry_delay 2 1 aux.quota_zero_message == Qmin (0 + 2) 120)%Q ∧
  sync_runner.is_429 "RESOURCE_EXHAUSTED" = true ∧
  sync_runner.is_429 "resource_exhausted" = false ∧
  (sync_runner.retry_delay 2 1 "429: retry in 9s, or retry in 5.0s" == 11)%Q.
Proof.
  repeat split; by vm_compute.
Qed.

(** The patterns on messages of the providers. The second pattern reads the
    digits before a decimal point and is tried before the third. *)
Lemma extract_429_retry_delay_examples :
  sync_runner._extract_429_retry_delay "Please retry in 38.36s." = Some (959 # 25)%Q ∧
  sync_runner._extract_429_retry_delay "RETRY IN 12 S" = Some 12%Q ∧
  sync_runner._extract_429_retry_delay "retryDelay: 44s" = Some 44%Q ∧
  sync_runner._extract_429_retry_delay "'retryDelay': '44.5s'" = Some 44%Q ∧
  sync_runner._extract_429_retry_delay "retryDelay: .5s" = Some (1 # 2)%Q ∧
  sync_runner._extract_429_retry_delay "retry in 1.2.3s" = None ∧
  sync_runner._extract_429_retry_delay "retry later" = None.
Proof. repeat split; by vm_compute. Qed.

(** ** sync_runner.py: the rate limiter *)

Section LimiterFacts.
Import py sync_runner.
Local Open Scope Q_scope.

Lemma wait_granted (self : RateLimiter) (clock : Q) :
  snd (wait self clock) == Qmax clock (_next_slot self).
Proof.
  unfold wait. cbn [snd]. destruct (Qlt_le_dec clock (_next_slot self)) as [Hlt|Hle].
  - rewrite Q.max_r by lra. lra.
  - by rewrite Q.max_l.
Qed.

Lemma wait_marker (self : RateLimiter) (clock : Q) :
  _next_slot (fst (wait self clock)) = Qmax clock (_next_slot self) + interval self.
Proof. reflexivity. Qed.

Lemma wait_interval (self : RateLimiter) (clock : Q) :
  interval (fst (wait self clock)) = interval self.
Proof. reflexivity. Qed.

Lemma acquisitions_spacing (idle : list Q) (self : RateLimiter) (clock : Q)
    (i : nat) (g g' : Q) :
  Forall (λ gap, 0 <= gap) idle →
  acquisitions self clock idle !! i = Some g →
  acquisitions self clock idle !! S i = Some g' →
  interval self <= g' - g.
Proof.
  revert self clock i. induction idle as [|gap rest IH]; intros self clock i Hidle Hg Hg'; [done|].
  apply Forall_cons in Hidle as [Hgap Hrest].
  cbn [acquisitions] in Hg, Hg'.
  pose proof (wait_granted self (clock + gap)) as Hgranted.
  pose proof (wait_marker self (clock + gap)) as Hmarker.
  pose proof (wait_interval self (clock + gap)) as Hint.
  destruct (wait self (clock + gap)) as [self' granted]. cbn [fst snd] in *.
  destruct i as [|i].
  - injection Hg as <-. destruct rest as [|gap' rest]; [done|].
    apply Forall_cons in Hrest as [Hgap' _].
    cbn [acquisitions] in Hg'.
    pose proof (wait_granted self' (granted + gap')) as Hnext.
    destruct (wait self' (granted + gap')) as [self'' granted']. cbn [snd] in *.
    simpl in Hg'. injection Hg' as <-.
    pose proof (Q.le_max_r (granted + gap') (_next_slot self')) as Hmax.
    rewrite Hmarker in Hmax, Hnext. lra.
  - rewrite <- Hint. by apply (IH self' granted i).
Qed.

(** C4. The limiter is entered by one caller at a time, and the clock moves
    by what a caller sleeps and by the idle time between two callers. Each
    grant sets the marker one interval after the later of the clock reading
    and the previous marker, the grant itself falls on that later instant,
    and any two consecutive grants are at least [60 / rpm] apart. *)
Theorem rate_limiter_spacing (rpm : Z) (created clock : Q) (idle : list Q) :
  (1 ≤ rpm)%Z →
  Forall (λ gap, 0 <= gap) idle →
  (∀ self now,
     _next_slot (fst (wait self now)) = Qmax now (_next_slot self) + interval self ∧
     snd (wait self now) == Qmax now (_next_slot self)) ∧
  (∀ i g g',
     acquisitions (RateLimiter_init rpm created) clock idle !! i = Some g →
     acquisitions (RateLimiter_init rpm created) clock idle !! S i = Some g' →
     60 / inject_Z rpm <= g' - g).
Proof.
  intros Hrpm Hidle. split.
  - intros self now. split; [apply wait_marker|apply wait_granted].
  - intros i g g' Hg Hg'.
    pose proof (acquisitions_spacing idle _ clock i g g' Hidle Hg Hg') as Hgap.
    cbn [RateLimiter_init interval] in Hgap. by rewrite Z.max_l in Hgap by lia.
Qed.

End LimiterFacts.

Lemma rate_limiter_spacing_witness :
  sync_runner.acquisitions (sync_runner.RateLimiter_init 60 0) 0 [0; 0; 5]%Q
  = [0; 60 # 60; 360 # 60]%Q ∧
  (60 / inject_Z 60 <= (60 # 60) - 0)%Q.
Proof.
  split; [reflexivity|].
  destruct (rate_limiter_spacing 60 0 0 [0; 0; 5]%Q ltac:(done)) as [_ Hgap].
  { repeat constructor; by vm_compute. }
  apply (Hgap 0%nat); reflexivity.
Defined.

(** ** batch_runner.py: the result parser *)

Section ParserFacts.
Import py templates sync_runner batch_runner aux.
Context `{RT : Runtime}.
Variable TEMPLATES : gmap string ExtractionTemplate.
Variable id_map : gmap string Record_.
Variable tid : string.

Lemma parse_line_entry (d : gmap string outcome) (line : string) :
  parse_line TEMPLATES id_map tid d line
  = (c <-! line_entry TEMPLATES id_map tid line;
     inr (match c with
          | Some (k, o) => <[k := o]> d
          | None => d
          end)).
Proof.
  unfold parse_line, line_entry.
  destruct (String.eqb (strip line) ""); [done|].
  destruct (json_loads line) as [e|entry]; [done|]. simpl.
  destruct (get entry "custom_id") as [e|custom_id]; [done|]. simpl.
  destruct (id_map_get id_map custom_id) as [e|[record|]]; [done| |done]. simpl.
  destruct (get entry "response") as [e|response]; [done|]. simpl.
  by destruct (get entry "error") as [e|error].
Qed.

Lemma well_formed_entry (line : string) :
  well_formed line → ∃ c, line_entry TEMPLATES id_map tid line = inr c.
Proof.
  unfold line_entry. intros [Hblank|(kv & Hkv & Hhash)].
  - rewrite Hblank. simpl. eauto.
  - destruct (String.eqb (strip line) ""); [eauto|]. rewrite Hkv. simpl.
    destruct (dict_get kv "custom_id") as [| | | |s| |]; simpl; try done; eauto.
    destruct (id_map !! s); simpl; eauto.
Qed.

(** If the loop over the lines ends, the table holds, under each id, the
    outcome of the last line filed under it. *)
Lemma parse_lines_table (lines : list string) (d d' : gmap string outcome) :
  parse_lines TEMPLATES id_map tid d lines = inr d' →
  ∀ k, d' !! k = match last_entry TEMPLATES id_map tid k lines with
                 | Some o => Some o
                 | None => d !! k
                 end.
Proof.
  revert d. induction lines as [|line rest IH]; intros d Hd k.
  - injection Hd as <-. done.
  - cbn [parse_lines last_entry] in *. rewrite parse_line_entry in Hd.
    destruct (line_entry TEMPLATES id_map tid line) as [e|c]; [done|]. simpl in Hd.
    rewrite (IH _ Hd k).
    destruct (last_entry TEMPLATES id_map tid k rest); [done|].
    destruct c as [[k' o]|]; [|done].
    destruct (String.eqb_spec k k') as [->|Hne].
    + by rewrite lookup_insert_eq.
    + by rewrite lookup_insert_ne.
Qed.

Lemma parse_lines_returns (lines : list string) (d : gmap string outcome) :
  Forall well_formed lines →
  ∃ d', parse_lines TEMPLATES id_map tid d lines = inr d'.
Proof.
  revert d. induction lines as [|line rest IH]; intros d Hwf; [by eexists|].
  apply Forall_cons in Hwf as [Hline Hrest].
  cbn [parse_lines]. rewrite parse_line_entry.
  destruct (well_formed_entry line Hline) as [c ->]. simpl. by apply IH.
Qed.

Lemma last_entry_none (k : string) (lines : list string) :
  (∀ line, line ∈ lines → line_id TEMPLATES id_map tid line ≠ Some k) →
  last_entry TEMPLATES id_map tid k lines = None.
Proof.
  induction lines as [|line rest IH]; intros Hnone; [done|].
  cbn [last_entry]. rewrite IH by (intros l Hl; apply Hnone; by right).
  specialize (Hnone line ltac:(by left)). unfold line_id in Hnone.
  destruct (line_entry TEMPLATES id_map tid line) as [e|[[k' o]|]]; try done.
  destruct (String.eqb_spec k k') as [->|]; done.
Qed.

Lemma last_entry_app (k : string) (l1 l2 : list string) :
  last_entry TEMPLATES id_map tid k (l1 ++ l2)
  = match last_entry TEMPLATES id_map tid k l2 with
    | Some o => Some o
    | None => last_entry TEMPLATES id_map tid k l1
    end.
Proof.
  induction l1 as [|line l1 IH]; simpl.
  - by destruct (last_entry TEMPLATES id_map tid k l2).
  - rewrite IH. by destruct (last_entry TEMPLATES id_map tid k l2).
Qed.

Lemma extraction_of_content_id (record : Record_) (txt : json)
    (ext : schema.ExtractionResult) :
  extraction_of_content TEMPLATES record tid txt = inr ext →
  schema.id_value ext = id_value record.
Proof.
  unfold extraction_of_content.
  destruct (loads txt) as [e|data]; [done|]. simpl.
  destruct data as [| | | | | |kv]; try done.
  destruct (schema.normalise_extraction _ _ _) as [e|result]; [done|]. simpl.
  by intros [= <-].
Qed.

Lemma line_outcome_id (record r : Record_) (response error : json)
    (e : option schema.ExtractionResult) (err : option string) :
  line_outcome TEMPLATES tid record response error = (r, e, err) →
  r = record ∧ ∀ ext, e = Some ext → schema.id_value ext = id_value record.
Proof.
  unfold line_outcome.
  destruct (truthy response && negb (truthy error)).
  - destruct (getitem response "body") as [x|body]; simpl; [by intros [= <- <- <-]|].
    destruct (message_content body) as [x|output]; simpl; [by intros [= <- <- <-]|].
    destruct (extraction_of_content TEMPLATES record tid output) as [x|ext0] eqn:E;
      intros [= <- <- <-]; [done|].
    split; [done|]. intros ext [= <-]. by apply (extraction_of_content_id _ output).
  - by intros [= <- <- <-].
Qed.

Lemma line_entry_ids (line : string) (k : string) (r : Record_)
    (e : option schema.ExtractionResult) (err : option string) :
  line_entry TEMPLATES id_map tid line = inr (Some (k, (r, e, err))) →
  id_value r = k ∧ ∀ ext, e = Some ext → schema.id_value ext = k.
Proof.
  unfold line_entry.
  destruct (String.eqb (strip line) ""); [done|].
  destruct (json_loads line) as [x|entry]; [done|]. simpl.
  destruct (get entry "custom_id") as [x|custom_id]; [done|]. simpl.
  destruct (id_map_get id_map custom_id) as [x|[record|]]; [done| |done]. simpl.
  destruct (get entry "response") as [x|response]; [done|]. simpl.
  destruct (get entry "error") as [x|error]; [done|]. simpl.
  intros [= <- Hout]. apply line_outcome_id in Hout as [-> Hext]. done.
Qed.

Lemma parse_lines_ids (lines : list string) (d d' : gmap string outcome) :
  ids_agree d →
  parse_lines TEMPLATES id_map tid d lines = inr d' →
  ids_agree d'.
Proof.
  revert d. induction lines as [|line rest IH]; intros d Hd Hrun.
  - by injection Hrun as <-.
  - cbn [parse_lines] in Hrun. rewrite parse_line_entry in Hrun.
    destruct (line_entry TEMPLATES id_map tid line) as [x|c] eqn:E; [done|].
    simpl in Hrun. eapply IH; [|exact Hrun].
    destruct c as [[k [[r e] err]]|]; [|done].
    intros k' r' e' err'. destruct (decide (k = k')) as [<-|Hne].
    + rewrite lookup_insert_eq. intros [= <- <- <-]. by apply (line_entry_ids line k r e err).
    + rewrite lookup_insert_ne by done. apply Hd.
Qed.

End ParserFacts.

Section ParserClaims.
Import py templates sync_runner batch_runner aux.
Context `{RT : Runtime}.
Variable TEMPLATES : gmap string ExtractionTemplate.
Variable id_map : gmap string Record_.
Variable tid : string.

Lemma parse_lines_app (l1 l2 : list string) (d : gmap string outcome) :
  parse_lines TEMPLATES id_map tid d (l1 ++ l2)
  = (d1 <-! parse_lines TEMPLATES id_map tid d l1;
     parse_lines TEMPLATES id_map tid d1 l2).
Proof.
  revert d. induction l1 as [|line l1 IH]; intros d; [done|].
  cbn [app parse_lines].
  destruct (parse_line TEMPLATES id_map tid d line) as [e|d1]; [done|]. apply IH.
Qed.

Lemma parse_line_unknown_key (d : gmap string outcome) (line : string)
    (kv : list (string * json)) (s : string) :
  json_loads line = inr (JObj kv) → dict_get kv "custom_id" = JStr s →
  id_map !! s = None →
  parse_line TEMPLATES id_map tid d line = inr d.
Proof.
  intros Hkv Hs Hnone. unfold parse_line.
  destruct (String.eqb (strip line) ""); [done|].
  rewrite Hkv. simpl. rewrite Hs. simpl. by rewrite Hnone.
Qed.

Lemma parse_batch_results_table (records : list Record_) (lines : list string)
    (ordered : list outcome) :
  parse_batch_results TEMPLATES records id_map lines tid = inr ordered →
  ordered = (λ record, default (record, None, Some missing_error)
                         (last_entry TEMPLATES id_map tid (id_value record) lines))
            <$> records.
Proof.
  unfold parse_batch_results.
  destruct (parse_lines TEMPLATES id_map tid ∅ lines) as [e|d] eqn:E; [done|].
  simpl. intros [= <-]. apply list_fmap_ext. intros i r _.
  rewrite (parse_lines_table TEMPLATES id_map tid lines ∅ d E).
  by destruct (last_entry _ _ _ _ _).
Qed.

Lemma parse_batch_results_returns (records : list Record_) (lines : list string) :
  Forall well_formed lines →
  ∃ ordered, parse_batch_results TEMPLATES records id_map lines tid = inr ordered.
Proof.
  intros Hwf. unfold parse_batch_results.
  destruct (parse_lines_returns TEMPLATES id_map tid lines ∅ Hwf) as [d ->].
  simpl. eauto.
Qed.

Lemma line_id_key (line k : string) :
  line_id TEMPLATES id_map tid line = Some k →
  ∃ kv s r', json_loads line = inr (JObj kv) ∧ dict_get kv "custom_id" = JStr s ∧
             id_map !! s = Some r' ∧ id_value r' = k.
Proof.
  unfold line_id, line_entry.
  destruct (String.eqb (strip line) ""); [done|].
  destruct (json_loads line) as [x|entry]; [done|]. simpl.
  destruct entry as [| | | | | |kv]; try done. simpl.
  destruct (dict_get kv "custom_id") as [| | | |s| |] eqn:Hs; try done. simpl.
  destruct (id_map !! s) as [r'|] eqn:Hr'; [|done]. simpl.
  intros [= <-]. by exists kv, s, r'.
Qed.

(** C5. For an artifact whose lines are blank or JSON objects whose
    [custom_id] is absent or a scalar, the parser returns one outcome per
    input record; a record under whose natural id no line is filed (a line
    is filed under the natural id of the record its key maps to) gets the
    outcome that says nothing was returned, with an error text of its own;
    and a line whose key is not in the map changes nothing, on any artifact.
    When the map is the one the request writer built and the base ids of the
    records are pairwise distinct, a record whose submission key no line
    echoes is such a record. *)
Theorem parse_batch_results_complete (records : list Record_) (lines : list string) :
  (Forall well_formed lines →
   ∃ ordered,
     parse_batch_results TEMPLATES records id_map lines tid = inr ordered ∧
     length ordered = length records ∧
     (∀ i r, records !! i = Some r →
        (∀ line, line ∈ lines → line_id TEMPLATES id_map tid line ≠ Some (id_value r)) →
        ordered !! i = Some (r, None, Some missing_error)) ∧
     (∀ build_prompt config requests,
        write_request_jsonl TEMPLATES build_prompt records config = inr (requests, id_map) →
        NoDup (base_id <$> records) →
        ∀ i r, records !! i = Some r →
          (∀ line kv, line ∈ lines → json_loads line = inr (JObj kv) →
                      dict_get kv "custom_id" ≠ JStr (base_id r)) →
          ordered !! i = Some (r, None, Some missing_error))) ∧
  (∀ before line after kv s,
     lines = before ++ line :: after →
     json_loads line = inr (JObj kv) → dict_get kv "custom_id" = JStr s →
     id_map !! s = None →
     parse_batch_results TEMPLATES records id_map (before ++ after) tid
     = parse_batch_results TEMPLATES records id_map lines tid) ∧
  missing_error ≠ unknown_error.
Proof.
  split; [|split].
  - intros Hwf. destruct (parse_batch_results_returns records lines Hwf) as [ordered Hrun].
    exists ordered. split; [done|].
    rewrite (parse_batch_results_table records lines ordered Hrun).
    split; [by rewrite length_fmap|].
    assert (Hmissing : ∀ i r, records !! i = Some r →
              (∀ line, line ∈ lines →
                 line_id TEMPLATES id_map tid line ≠ Some (id_value r)) →
              ((λ record, default (record, None, Some missing_error)
                            (last_entry TEMPLATES id_map tid (id_value record) lines))
               <$> records) !! i = Some (r, None, Some missing_error)).
    { intros i r Hr Hnone. rewrite list_lookup_fmap, Hr. simpl.
      by rewrite last_entry_none. }
    split; [exact Hmissing|].
    intros build_prompt config requests Hwritten Hdistinct i r Hr Hnone.
    apply (Hmissing i r Hr). intros line Hline Hid.
    apply line_id_key in Hid as (kv & s & r' & Hkv & Hs & Hmap & Hid).
    apply (Hnone line kv Hline Hkv). rewrite Hs. f_equal.
    unfold write_request_jsonl in Hwritten.
    destruct (build_system_prompt TEMPLATES build_prompt (template_id config))
      as [x|system_prompt]; [done|].
    simpl in Hwritten. injection Hwritten as _ Hmap'. rewrite <- Hmap' in Hmap.
    apply (write_requests_id_map_inv config system_prompt records [] _ s r'
             counts_agree_init) in Hmap as [Hempty|(j & Hj & Hkey)]; [done|].
    rewrite (submission_keys_distinct records j r' Hdistinct Hj) in Hkey.
    injection Hkey as <-. unfold base_id. by rewrite Hid.
  - intros before line after kv s -> Hkv Hs Hnone. unfold parse_batch_results.
    rewrite !parse_lines_app. cbn [parse_lines].
    destruct (parse_lines TEMPLATES id_map tid ∅ before) as [e|d]; [done|]. simpl.
    by rewrite (parse_line_unknown_key d line kv s).
  - by vm_compute.
Qed.

(** C10. The table of results is keyed by the natural id of the record a
    line resolves to: the last line filed under a natural id decides the
    outcome of every input record with that id, whatever the submission keys
    of the lines filed under it before. *)
Theorem parse_batch_results_last_wins (records : list Record_)
    (before after : list string) (b : string) (kv : list (string * json))
    (key : string) (r_b : Record_) :
  Forall well_formed (before ++ b :: after) →
  strip b ≠ "" →
  json_loads b = inr (JObj kv) → dict_get kv "custom_id" = JStr key →
  id_map !! key = Some r_b →
  (∀ line, line ∈ after → line_id TEMPLATES id_map tid line ≠ Some (id_value r_b)) →
  ∃ ordered,
    parse_batch_results TEMPLATES records id_map (before ++ b :: after) tid = inr ordered ∧
    ∀ i r, records !! i = Some r → id_value r = id_value r_b →
      ordered !! i
      = Some (line_outcome TEMPLATES tid r_b (dict_get kv "response") (dict_get kv "error")).
Proof.
  intros Hwf Hb Hkv Hkey Hmap Hafter.
  destruct (parse_batch_results_returns records _ Hwf) as [ordered Hrun].
  exists ordered. split; [done|].
  rewrite (parse_batch_results_table records _ ordered Hrun).
  intros i r Hr Hid. rewrite list_lookup_fmap, Hr. simpl. rewrite Hid.
  rewrite last_entry_app. cbn [last_entry]. rewrite (last_entry_none _ _ _ _ after Hafter).
  unfold line_entry. rewrite (proj2 (String.eqb_neq _ _) Hb), Hkv. simpl.
  rewrite Hkey. simpl. rewrite Hmap. simpl. by rewrite String.eqb_refl.
Qed.

End ParserClaims.

Ltac well_formed_lines :=
  repeat (apply Forall_cons; split;
          [right; eexists; split; [by vm_compute|exact I]|]);
  apply Forall_nil_2.

Lemma parse_batch_results_complete_witness :
  ∃ ordered,
    batch_runner.parse_batch_results (RT := aux.demo_runtime) aux.demo_templates
      [aux.rec "A" "x"; aux.rec "B" "y"; aux.rec "C" "z"]
      (<["C" := aux.rec "C" "z"]> (<["B" := aux.rec "B" "y"]> (<["A" := aux.rec "A" "x"]> ∅)))
      [aux.ok_line "A" "{}"; aux.ok_line "B" "{}"] "demo" = inr ordered ∧
    length ordered = 3%nat ∧
    ordered !! 2%nat = Some (aux.rec "C" "z", None, Some batch_runner.missing_error).
Proof.
  destruct (@parse_batch_results_complete aux.demo_runtime aux.demo_templates
              (<["C" := aux.rec "C" "z"]>
                 (<["B" := aux.rec "B" "y"]> (<["A" := aux.rec "A" "x"]> ∅)))
              "demo"
              [aux.rec "A" "x"; aux.rec "B" "y"; aux.rec "C" "z"]
              [aux.ok_line "A" "{}"; aux.ok_line "B" "{}"]) as (Hall & _ & _).
  destruct Hall as (ordered & Hrun & Hlen & Hmissing & _).
  { well_formed_lines. }
  exists ordered. split; [exact Hrun|]. split; [exact Hlen|].
  apply (Hmissing 2%nat); [reflexivity|].
  intros line Hin. apply elem_of_cons in Hin as [->|Hin]; [by vm_compute|].
  apply elem_of_cons in Hin as [->|Hin]; [by vm_compute|]. by apply elem_of_nil in Hin.
Defined.

(** Two records share the natural id [A]; the request writer gives them the
    keys [A] and [A__2]. An artifact that echoes [A] alone matches no line
    to the second record, which nevertheless receives the outcome of that
    line, held with the first record, and not the outcome that says nothing
    was returned. And an artifact with a line that is not JSON, or with a
    JSON object whose [custom_id] is a list, makes the parser raise, so that
    no record receives an outcome. *)
Lemma parse_batch_results_complete_counterexample :
  (∃ requests id_map ordered ext,
     batch_runner.write_request_jsonl aux.demo_templates aux.demo_prompt
       [aux.rec "A" "x"; aux.rec "A" "y"] aux.demo_config = inr (requests, id_map) ∧
     batch_runner.custom_id <$> requests = ["A"; "A__2"] ∧
     id_map !! "A__2" = Some (aux.rec "A" "y") ∧
     batch_runner.parse_batch_results (RT := aux.demo_runtime) aux.demo_templates
       [aux.rec "A" "x"; aux.rec "A" "y"] id_map [aux.ok_line "A" "{}"] "demo"
     = inr ordered ∧
     ordered !! 1%nat = Some (aux.rec "A" "x", Some ext, None) ∧
     ordered !! 1%nat ≠ Some (aux.rec "A" "y", None, Some batch_runner.missing_error)) ∧
  batch_runner.parse_batch_results (RT := aux.demo_runtime) aux.demo_templates
    [aux.rec "A" "x"] (<["A" := aux.rec "A" "x"]> ∅)
    [aux.ok_line "A" "{}"; "<html>"] "demo"
  = inl (py.JSONDecodeError "<html>") ∧
  batch_runner.parse_batch_results (RT := aux.list_key_runtime) aux.demo_templates
    [aux.rec "A" "x"] (<["A" := aux.rec "A" "x"]> ∅)
    [aux.ok_line "A" "{}"; aux.list_key_line] "demo"
  = inl py.TypeError.
Proof.
  split; [|split; by vm_compute].
  eexists _, _, _, _. split; [by vm_compute|]. split; [by vm_compute|].
  split; [by vm_compute|]. split; [by vm_compute|]. split; [by vm_compute|].
  by vm_compute.
Qed.

Lemma parse_batch_results_last_wins_witness :
  ∃ ordered,
    batch_runner.parse_batch_results (RT := aux.demo_runtime) aux.demo_templates
      [aux.rec "A" "x"; aux.rec "A" "y"]
      (<["A__2" := aux.rec "A" "y"]> (<["A" := aux.rec "A" "x"]> ∅))
      ([aux.ok_line "A" "{}"] ++ aux.error_line "A__2" "boom" :: []) "demo" = inr ordered ∧
    ordered !! 0%nat = Some (aux.rec "A" "y", None, Some "boom") ∧
    ordered !! 1%nat = Some (aux.rec "A" "y", None, Some "boom").
Proof.
  destruct (@parse_batch_results_last_wins aux.demo_runtime aux.demo_templates
              (<["A__2" := aux.rec "A" "y"]> (<["A" := aux.rec "A" "x"]> ∅)) "demo"
              [aux.rec "A" "x"; aux.rec "A" "y"]
              [aux.ok_line "A" "{}"] [] (aux.error_line "A__2" "boom")
              [("custom_id", py.JStr "A__2"); ("response", py.JNull);
               ("error", py.JStr "boom")]
              "A__2" (aux.rec "A" "y")) as (ordered & Hrun & Hlast).
  - well_formed_lines.
  - by vm_compute.
  - by vm_compute.
  - reflexivity.
  - by vm_compute.
  - intros line Hin. by apply elem_of_nil in Hin.
  - exists ordered. split; [exact Hrun|].
    split; [apply (Hlast 0%nat (aux.rec "A" "x"))|apply (Hlast 1%nat (aux.rec "A" "y"))];
      reflexivity.
Defined.

(** ** Both paths: one outcome per record *)

Section DispatchFacts.
Import py templates sync_runner batch_runner aux.
Context `{RT : Runtime}.
Variable TEMPLATES : gmap string ExtractionTemplate.

Lemma worker_record (config : AppConfig) (op : nat → exn + json) (record : Record_) :
  ∃ e err, worker TEMPLATES config op record = (record, e, err) ∧
           ∀ ext, e = Some ext → schema.id_value ext = id_value record.
Proof.
  unfold worker.
  destruct (snd (_call_with_retry op config)) as [x|resp]; simpl;
    [by eexists _, _|].
  destruct (message_content resp) as [x|txt]; simpl; [by eexists _, _|].
  destruct (extraction_of_content TEMPLATES record (template_id config) txt)
    as [x|ext] eqn:E; [by eexists _, _|].
  eexists _, _. split; [done|]. intros ? [= <-].
  by apply (extraction_of_content_id TEMPLATES (template_id config) record txt).
Qed.

Lemma omap_seq_lookup {A B : Type} (h : nat → A → B) (l : list A) :
  omap (λ i, h i <$> l !! i) (seq 0 (length l)) = imap h l.
Proof.
  induction l as [|x l IH] using rev_ind; [done|].
  rewrite length_app. simpl. rewrite Nat.add_1_r, seq_S, omap_app, imap_app.
  f_equal.
  - rewrite <- IH. apply list_omap_ext. apply Forall_Forall2_diag.
    apply Forall_forall. intros i Hi. apply elem_of_seq in Hi.
    by rewrite lookup_app_l by lia.
  - simpl. rewrite list_lookup_middle by done. simpl. by rewrite Nat.add_0_r.
Qed.

Lemma omap_lookup_Forall2 {A B : Type} (h : nat → A → B) (l : list A) (order : list nat) :
  Forall (λ i, i < length l)%nat order →
  Forall2 (λ i o, ∃ x, l !! i = Some x ∧ o = h i x) order
          (omap (λ i, h i <$> l !! i) order).
Proof.
  induction 1 as [|i order Hi Horder IH]; [constructor|].
  destruct (lookup_lt_is_Some_2 l i Hi) as [x Hx].
  cbn [omap list_omap]. rewrite Hx. simpl. constructor; [eauto|exact IH].
Qed.

End DispatchFacts.

Section DispatchClaims.
Import py templates sync_runner batch_runner aux.
Context `{RT : Runtime}.
Variable TEMPLATES : gmap string ExtractionTemplate.

Lemma ids_agree_empty : ids_agree ∅.
Proof. intros k r e err Hk. by rewrite lookup_empty in Hk. Qed.

(** Position by position, the parser pairs a record with an outcome filed
    under the record's natural id. *)
Lemma parse_batch_results_ids (records : list Record_) (id_map : gmap string Record_)
    (lines : list string) (tid : string) (ordered : list outcome) :
  parse_batch_results TEMPLATES records id_map lines tid = inr ordered →
  ∀ i r, records !! i = Some r →
    ∃ r' e err, ordered !! i = Some (r', e, err) ∧ id_value r' = id_value r ∧
                ∀ ext, e = Some ext → schema.id_value ext = id_value r.
Proof.
  unfold parse_batch_results.
  destruct (parse_lines TEMPLATES id_map tid ∅ lines) as [x|d] eqn:E; [done|].
  simpl. intros [= <-] i r Hr. rewrite list_lookup_fmap, Hr. simpl.
  pose proof (parse_lines_ids TEMPLATES id_map tid lines ∅ d ids_agree_empty E) as Hd.
  destruct (d !! id_value r) as [[[r' e] err]|] eqn:Hk; simpl.
  - destruct (Hd _ _ _ _ Hk) as [Hid Hext]. by eexists _, _, _.
  - by eexists _, _, _.
Qed.

Lemma process_records_returns (records : list Record_)
    (client : nat → nat → exn + json) (config : AppConfig) (completion : list nat)
    (t : ExtractionTemplate) :
  TEMPLATES !! template_id config = Some t →
  (0 < concurrency (rate_limit config))%Z →
  process_records TEMPLATES records client config completion
  = Returns (omap (λ i, worker TEMPLATES config (client i) <$> records !! i) completion).
Proof.
  intros Ht Hc. unfold process_records, get_template. rewrite Ht.
  rewrite (proj2 (Z.ltb_ge _ _)) by lia.
  by rewrite (proj2 (Z.eqb_neq _ _)) by lia.
Qed.

(** What the two paths return. On an artifact whose lines are blank or JSON
    objects with an absent or scalar [custom_id], the batch parser returns
    one outcome per input record, the i-th one filed under the natural id of
    the i-th record. The synchronous dispatcher, for a known template and a
    positive concurrency bound, returns one outcome per input record as
    well, each paired with its own record, in the order in which the tasks
    complete: the list is a rearrangement of the outcomes in input order. *)
Theorem outcomes_cover_records :
  (∀ records id_map lines tid,
     Forall well_formed lines →
     ∃ ordered,
       parse_batch_results TEMPLATES records id_map lines tid = inr ordered ∧
       length ordered = length records ∧
       ∀ i r, records !! i = Some r →
         ∃ r' e err, ordered !! i = Some (r', e, err) ∧ id_value r' = id_value r) ∧
  (∀ records client config completion t,
     TEMPLATES !! template_id config = Some t →
     (0 < concurrency (rate_limit config))%Z →
     completion ≡ₚ seq 0 (length records) →
     ∃ out,
       process_records TEMPLATES records client config completion = Returns out ∧
       length out = length records ∧
       out ≡ₚ imap (λ i r, worker TEMPLATES config (client i) r) records ∧
       Forall2 (λ i o, ∃ r, records !! i = Some r ∧
                            o = worker TEMPLATES config (client i) r ∧ o.1.1 = r)
               completion out).
Proof.
  split.
  - intros records id_map lines tid Hwf.
    destruct (parse_batch_results_returns TEMPLATES id_map tid records lines Hwf)
      as [ordered Hrun].
    exists ordered. split; [done|]. split.
    + rewrite (parse_batch_results_table TEMPLATES id_map tid records lines ordered Hrun).
      by rewrite length_fmap.
    + intros i r Hr.
      destruct (parse_batch_results_ids records id_map lines tid ordered Hrun i r Hr)
        as (r' & e & err & Hi & Hid & _).
      by eexists _, _, _.
  - intros records client config completion t Ht Hc Hperm.
    rewrite (process_records_returns records client config completion t Ht Hc).
    eexists. split; [reflexivity|].
    assert (Hout : omap (λ i, worker TEMPLATES config (client i) <$> records !! i) completion
                   ≡ₚ imap (λ i r, worker TEMPLATES config (client i) r) records).
    { rewrite Hperm. by rewrite omap_seq_lookup. }
    split; [by rewrite Hout, length_imap|]. split; [done|].
    assert (Hlt : Forall (λ i, i < length records)%nat completion).
    { apply Forall_forall. intros i Hi. rewrite Hperm in Hi.
      apply elem_of_seq in Hi. lia. }
    eapply Forall2_impl; [apply (omap_lookup_Forall2 _ _ _ Hlt)|].
    intros i o (r & Hr & ->). exists r. split; [done|]. split; [done|].
    by destruct (worker_record TEMPLATES config (client i) r) as (e & err & -> & _).
Qed.

(** C9. An extraction in an outcome carries the id of the record it is
    paired with: in the batch parser, where that is also the natural id of the
    input record at the same position, and in the synchronous dispatcher. *)
Theorem success_keeps_record_id :
  (∀ records id_map lines tid ordered,
     parse_batch_results TEMPLATES records id_map lines tid = inr ordered →
     ∀ i r' ext err, ordered !! i = Some (r', Some ext, err) →
       schema.id_value ext = id_value r' ∧
       ∀ r, records !! i = Some r → schema.id_value ext = id_value r) ∧
  (∀ records client config completion out,
     process_records TEMPLATES records client config completion = Returns out →
     ∀ j r' ext err, out !! j = Some (r', Some ext, err) →
       schema.id_value ext = id_value r' ∧ r' ∈ records).
Proof.
  split.
  - intros records id_map lines tid ordered Hrun i r' ext err Hi.
    assert (Hlen : length ordered = length records).
    { rewrite (parse_batch_results_table TEMPLATES id_map tid records lines ordered Hrun).
      by rewrite length_fmap. }
    destruct (lookup_lt_is_Some_2 records i) as [r Hr].
    { rewrite <- Hlen. by apply lookup_lt_Some in Hi. }
    destruct (parse_batch_results_ids records id_map lines tid ordered Hrun i r Hr)
      as (r0 & e & err0 & Hi' & Hid & Hext).
    rewrite Hi in Hi'. injection Hi' as <- <- <-.
    split; [rewrite Hid; by apply Hext|].
    intros r1 Hr1. rewrite Hr in Hr1. injection Hr1 as <-. by apply Hext.
  - intros records client config completion out Hrun j r' ext err Hj.
    unfold process_records in Hrun.
    destruct (concurrency (rate_limit config) <? 0)%Z; [done|].
    destruct (get_template TEMPLATES (template_id config)) as [x|t]; [done|].
    destruct (_ && _); [done|]. injection Hrun as <-.
    apply list_elem_of_lookup_2, list_elem_of_omap in Hj as (i & _ & Hi).
    destruct (records !! i) as [r|] eqn:Hr; [|done]. simpl in Hi.
    destruct (worker_record TEMPLATES config (client i) r) as (e & err' & Hw & Hext).
    rewrite Hw in Hi. injection Hi as -> -> _.
    split; [by apply Hext|]. by apply list_elem_of_lookup_2 in Hr.
Qed.

End DispatchClaims.

Lemma process_records_order_example :
  ∃ out,
    sync_runner.process_records (RT := aux.demo_runtime) aux.demo_templates
      [aux.rec "1" "x"; aux.rec "2" "y"] aux.demo_client aux.demo_config [1; 0]%nat
    = sync_runner.Returns out ∧
    [1; 0]%nat ≡ₚ seq 0 (length [aux.rec "1" "x"; aux.rec "2" "y"]) ∧
    (λ o : sync_runner.outcome, sync_runner.id_value o.1.1) <$> out = ["2"; "1"] ∧
    sync_runner.id_value <$> [aux.rec "1" "x"; aux.rec "2" "y"] = ["1"; "2"].
Proof.
  eexists. split; [by vm_compute|]. split; [apply perm_swap|]. by vm_compute.
Qed.

Lemma outcomes_cover_records_example :
  (∃ ordered,
     batch_runner.parse_batch_results (RT := aux.demo_runtime) aux.demo_templates
       [aux.rec "A" "x"; aux.rec "B" "y"; aux.rec "C" "z"]
       (<["C" := aux.rec "C" "z"]> (<["B" := aux.rec "B" "y"]> (<["A" := aux.rec "A" "x"]> ∅)))
       [aux.ok_line "B" "{}"; aux.ok_line "A" "{}"] "demo" = inr ordered ∧
     length ordered = 3%nat) ∧
  (∃ out,
     sync_runner.process_records (RT := aux.demo_runtime) aux.demo_templates
       [aux.rec "1" "x"; aux.rec "2" "y"] aux.demo_client aux.demo_config [1; 0]%nat
     = sync_runner.Returns out ∧
     length out = 2%nat).
Proof.
  destruct (@outcomes_cover_records aux.demo_runtime aux.demo_templates)
    as [Hbatch Hsync].
  split.
  - destruct (Hbatch [aux.rec "A" "x"; aux.rec "B" "y"; aux.rec "C" "z"]
                (<["C" := aux.rec "C" "z"]>
                   (<["B" := aux.rec "B" "y"]> (<["A" := aux.rec "A" "x"]> ∅)))
                [aux.ok_line "B" "{}"; aux.ok_line "A" "{}"] "demo")
      as (ordered & Hrun & Hlen & _); [well_formed_lines|].
    exists ordered. split; [exact Hrun|exact Hlen].
  - destruct (Hsync [aux.rec "1" "x"; aux.rec "2" "y"] aux.demo_client aux.demo_config
                [1; 0]%nat aux.demo_template)
      as (out & Hrun & Hlen & _); [reflexivity|done|apply perm_swap|].
    exists out. split; [exact Hrun|exact Hlen].
Defined.

(** C1. The two paths at the same input: the records [A] and [B], the work
    for [B] finishing first. [process_records] returns two outcomes, the one
    of [B] before the one of [A]: its list follows the order of completion,
    so that its first element does not belong to the first record.
    [parse_batch_results], given the same records and the result lines in
    that same order, [B] first, returns the outcome of [A] before the one of
    [B], as the records are listed. *)
Theorem process_records_completion_order :
  (∃ out,
     sync_runner.process_records (RT := aux.demo_runtime) aux.demo_templates
       [aux.rec "A" "x"; aux.rec "B" "y"] aux.demo_client aux.demo_config [1; 0]%nat
     = sync_runner.Returns out ∧
     length out = 2%nat ∧
     (λ o : sync_runner.outcome, sync_runner.id_value o.1.1) <$> out = ["B"; "A"]) ∧
  (∃ ordered,
     batch_runner.parse_batch_results (RT := aux.demo_runtime) aux.demo_templates
       [aux.rec "A" "x"; aux.rec "B" "y"]
       (<["B" := aux.rec "B" "y"]> (<["A" := aux.rec "A" "x"]> ∅))
       [aux.ok_line "B" "{}"; aux.ok_line "A" "{}"] "demo" = inr ordered ∧
     length ordered = 2%nat ∧
     (λ o : sync_runner.outcome, sync_runner.id_value o.1.1) <$> ordered = ["A"; "B"]).
Proof. split; eexists; (split; [by vm_compute|]); split; by vm_compute. Qed.

Lemma success_keeps_record_id_witness :
  (∃ ext,
     batch_runner.parse_batch_results (RT := aux.demo_runtime) aux.demo_templates
       [aux.rec "A" "x"] (<["A" := aux.rec "A" "x"]> ∅)
       [aux.ok_line "A" aux.answer_text_escaped] "demo"
     = inr [(aux.rec "A" "x", Some ext, None)] ∧
     schema.id_value ext = "A") ∧
  (∃ ext,
     sync_runner.process_records (RT := aux.demo_runtime) aux.demo_templates
       [aux.rec "1" "x"] aux.demo_client aux.demo_config [0%nat]
     = sync_runner.Returns [(aux.rec "1" "x", Some ext, None)] ∧
     schema.id_value ext = "1").
Proof.
  destruct (@success_keeps_record_id aux.demo_runtime aux.demo_templates)
    as [Hbatch Hsync].
  split.
  - eexists. split; [by vm_compute|].
    apply (proj1 (Hbatch [aux.rec "A" "x"] (<["A" := aux.rec "A" "x"]> ∅)
                    [aux.ok_line "A" aux.answer_text_escaped] "demo"
                    [(aux.rec "A" "x", Some _, None)] ltac:(by vm_compute)
                    0%nat (aux.rec "A" "x") _ None eq_refl)).
  - eexists. split; [by vm_compute|].
    apply (proj1 (Hsync [aux.rec "1" "x"] aux.demo_client aux.demo_config [0%nat]
                    [(aux.rec "1" "x", Some _, None)] ltac:(by vm_compute)
                    0%nat (aux.rec "1" "x") _ None eq_refl)).
Defined.

(** ** The Python runtime: stripping *)

Section StripFacts.
Import py more.

Lemma lstrip_head (s : string) : lstrip s = "" ∨ head_ok (lstrip s) = true.
Proof.
  induction s as [|c r IH]; [by left|].
  simpl. destruct (is_space c) eqn:Hc; [exact IH|].
  right. simpl. by rewrite Hc.
Qed.

Lemma lstrip_fixed (s : string) : head_ok s = true → lstrip s = s.
Proof.
  destruct s as [|c r]; [done|]. simpl.
  by destruct (is_space c).
Qed.

Lemma rstrip_last (s : string) : rstrip s = "" ∨ last_ok (rstrip s) = true.
Proof.
  induction s as [|c r IH]; [by left|].
  simpl. destruct (rstrip r) as [|c' r'] eqn:Hr.
  - destruct (is_space c) eqn:Hc; [by left|]. right. simpl. by rewrite Hc.
  - right. destruct IH as [IH|IH]; [done|]. exact IH.
Qed.

Lemma rstrip_fixed (s : string) : last_ok s = true → rstrip s = s.
Proof.
  induction s as [|c r IH]; [done|].
  intros H. simpl in *. destruct r as [|c' r'].
  - simpl. by destruct (is_space c).
  - rewrite (IH H). done.
Qed.

Lemma rstrip_head (s : string) :
  head_ok s = true → rstrip s ≠ "" ∧ head_ok (rstrip s) = true.
Proof.
  destruct s as [|c r]; [done|]. simpl. intros Hc.
  destruct (rstrip r); [|by split].
  destruct (is_space c) eqn:E; [done|]. split; [done|]. simpl. by rewrite E.
Qed.

Lemma strip_ends (s : string) :
  strip s = "" ∨ (head_ok (strip s) = true ∧ last_ok (strip s) = true).
Proof.
  unfold strip. destruct (lstrip_head s) as [->|Hh]; [by left|].
  right. split; [by apply rstrip_head|].
  destruct (rstrip_last (lstrip s)) as [He|]; [|done].
  by destruct (rstrip_head _ Hh).
Qed.

Lemma strip_fixed (s : string) :
  head_ok s = true → last_ok s = true → strip s = s.
Proof.
  intros Hh Hl. unfold strip. rewrite (lstrip_fixed _ Hh). by apply rstrip_fixed.
Qed.

Lemma strip_strip (s : string) : strip (strip s) = strip s.
Proof.
  destruct (strip_ends s) as [->|[Hh Hl]]; [done|]. by apply strip_fixed.
Qed.

Lemma last_ok_app (a b : string) : b ≠ "" → last_ok (a +:+ b) = last_ok b.
Proof.
  intros Hb. induction a as [|c r IH]; [done|].
  rewrite append_cons. simpl. rewrite IH.
  destruct (r +:+ b) eqn:Hrb; [|done].
  destruct r; [by rewrite append_nil_l in Hrb|by rewrite append_cons in Hrb].
Qed.

Lemma head_ok_app (a b : string) : head_ok a = true → head_ok (a +:+ b) = true.
Proof. destruct a; [done|]. by rewrite append_cons. Qed.

Lemma head_ok_nonempty (s : string) : head_ok s = true → s ≠ "".
Proof. by destruct s. Qed.

Lemma last_ok_nonempty (s : string) : last_ok s = true → s ≠ "".
Proof. by destruct s. Qed.

End StripFacts.

(** ** schema.py: what a normalised result holds *)

Section SchemaShape.
Import py templates more.
Variable TEMPLATES : gmap string ExtractionTemplate.

Lemma field_value_cases (raw : list (string * json)) (k : string) :
  aux.field_value raw k ≠ JNull ∧
  (∀ s, aux.field_value raw k = JStr s → strip s = s) ∧
  ((∀ s, aux.field_value raw k ≠ JStr s) → aux.field_value raw k = dict_get raw k).
Proof.
  unfold aux.field_value. destruct (dict_get raw k) eqn:Hv; try (by split_and!).
  - split_and!; [done| |].
    + intros s [= <-]. done.
    + intros H. by destruct (H "").
  - split_and!; [done| |].
    + intros s' [= <-]. apply strip_strip.
    + intros H. by destruct (H (strip s)).
Qed.

Lemma normalise_extraction_data (raw : list (string * json)) (tid : string)
    (result : schema.ExtractionResult) :
  schema.normalise_extraction TEMPLATES raw tid = inr result →
  ∃ t, TEMPLATES !! tid = Some t ∧
       ∀ k, schema._data result !! k
            = if decide (k ∈ names t) then Some (aux.field_value raw k) else None.
Proof.
  unfold schema.normalise_extraction, get_template. intros H.
  destruct (TEMPLATES !! tid) as [t|] eqn:Ht; [|done].
  exists t. split; [done|]. intros k.
  simpl in H. injection H as <-.
  rewrite normalise_fields_data. unfold names.
  destruct (decide (k ∈ name <$> fields t)); [done|].
  by destruct (dict_get raw "id_value"); try destruct (dict_get raw "id").
Qed.

(** X1. A normalised result holds exactly the fields the template declares,
    whatever else the answer contains; none of its values is [None], every
    text in it is stripped, and a value that is not a text is the value the
    answer gave. The call fails only for an unknown template. *)
Theorem normalise_extraction_exact (raw : list (string * json)) (tid : string)
    (result : schema.ExtractionResult) :
  schema.normalise_extraction TEMPLATES raw tid = inr result →
  ∃ t, TEMPLATES !! tid = Some t ∧
    (∀ k, is_Some (schema._data result !! k) ↔ k ∈ name <$> fields t) ∧
    (∀ k v, schema._data result !! k = Some v →
       v ≠ JNull ∧
       (∀ s, v = JStr s → strip s = s) ∧
       ((∀ s, v ≠ JStr s) → v = dict_get raw k)).
Proof.
  intros H. destruct (normalise_extraction_data _ _ _ H) as (t & Ht & Hd).
  exists t. split; [done|]. split.
  - intros k. rewrite Hd. unfold names. destruct (decide _) as [Hin|Hin].
    + split; [done|]. by eexists.
    + split; [by intros [? ?]|done].
  - intros k v. rewrite Hd. destruct (decide _); [|done].
    intros [= <-]. apply field_value_cases.
Qed.

Lemma assoc_list_to_map (kv : list (string * json)) (k : string) :
  assoc k kv = (list_to_map kv : gmap string json) !! k.
Proof.
  induction kv as [|[k' v] rest IH]; [done|].
  simpl. destruct (String.eqb_spec k k') as [->|Hne].
  - by rewrite lookup_insert_eq.
  - by rewrite lookup_insert_ne.
Qed.

Lemma dict_get_map_to_list (m : gmap string json) (k : string) :
  dict_get (map_to_list m) k = default JNull (m !! k).
Proof.
  unfold dict_get. by rewrite assoc_list_to_map, list_to_map_to_list.
Qed.

Lemma field_value_again (raw : list (string * json)) (m : gmap string json)
    (k : string) :
  m !! k = Some (aux.field_value raw k) →
  aux.field_value (map_to_list m) k = aux.field_value raw k.
Proof.
  intros Hm. unfold aux.field_value at 1. rewrite dict_get_map_to_list, Hm. simpl.
  unfold aux.field_value. destruct (dict_get raw k); try done.
  by rewrite strip_strip.
Qed.

(** X2. Normalising is idempotent: the dict a normalised result is turned
    into by [to_dict] normalises to the same fields, and to the same id
    unless the template has a field named [id] or [id_value]. *)
Theorem normalise_extraction_idempotent (raw : list (string * json)) (tid : string)
    (result : schema.ExtractionResult) (t : ExtractionTemplate) :
  schema.normalise_extraction TEMPLATES raw tid = inr result →
  TEMPLATES !! tid = Some t →
  ∃ again,
    schema.normalise_extraction TEMPLATES
      (map_to_list (sync_output.to_dict result)) tid = inr again ∧
    schema._data again = schema._data result ∧
    ("id" ∉ name <$> fields t → "id_value" ∉ name <$> fields t →
     schema.id_value again = schema.id_value result).
Proof.
  intros H Ht.
  destruct (normalise_extraction_data _ _ _ H) as (t' & Ht' & Hd).
  assert (t' = t) as -> by congruence.
  destruct (schema.normalise_extraction TEMPLATES
              (map_to_list (sync_output.to_dict result)) tid) as [e|again] eqn:Hagain.
  { unfold schema.normalise_extraction, get_template in Hagain.
    by rewrite Ht in Hagain. }
  exists again. split; [done|].
  destruct (normalise_extraction_data _ _ _ Hagain) as (t' & Ht'' & Hd').
  assert (t' = t) as -> by congruence.
  split.
  - apply map_eq. intros k. rewrite Hd', Hd.
    destruct (decide (k ∈ names t)); [|done]. f_equal.
    apply field_value_again. unfold sync_output.to_dict.
    rewrite lookup_union_l'; [|rewrite Hd; by destruct (decide _)].
    rewrite Hd. by destruct (decide _).
  - intros Hid Hidv.
    assert (∀ k, k ∉ names t → sync_output.to_dict result !! k
                 = ({[ "id" := JStr (schema.id_value result) ]} : gmap string json) !! k)
      as Hout.
    { intros k Hk. unfold sync_output.to_dict. rewrite lookup_union_r; [done|].
      rewrite Hd. by destruct (decide _). }
    unfold schema.normalise_extraction, get_template in Hagain. rewrite Ht in Hagain.
    simpl in Hagain. injection Hagain as <-.
    rewrite !dict_get_map_to_list, !(Hout _ Hid), !(Hout _ Hidv).
    rewrite lookup_singleton_ne by done. rewrite lookup_singleton_eq. simpl.
    assert (∀ fs r, schema.id_value (foldl (schema.normalise_field
              (map_to_list (sync_output.to_dict result))) r fs) = schema.id_value r)
      as Hkeep.
    { induction fs as [|f fs IH]; intros r; [done|]. simpl. rewrite IH.
      unfold schema.normalise_field.
      destruct (dict_get _ (name f)); try done. simpl.
      destruct (String.eqb (strip s) ""); [done|]. simpl.
      by destruct (negb _). }
    rewrite Hkeep. simpl.
    unfold schema.normalise_extraction, get_template in H. rewrite Ht in H.
    simpl in H. injection H as <-.
    assert (∀ fs r, schema.id_value (foldl (schema.normalise_field raw) r fs)
                    = schema.id_value r) as Hkeep'.
    { induction fs as [|f fs IH]; intros r; [done|]. simpl. rewrite IH.
      unfold schema.normalise_field.
      destruct (dict_get _ (name f)); try done. simpl.
      destruct (String.eqb (strip s) ""); [done|]. simpl.
      by destruct (negb _). }
    rewrite Hkeep'.
    destruct (dict_get raw "id_value"); simpl; try apply strip_strip;
      destruct (dict_get raw "id"); simpl; try done; apply strip_strip.
Qed.

End SchemaShape.

Lemma normalise_extraction_exact_witness :
  ∃ t, aux.demo_templates !! "demo" = Some t ∧
    (∀ k, is_Some (schema._data more.tidy_result !! k)
          ↔ k ∈ templates.name <$> templates.fields t) ∧
    (∀ k v, schema._data more.tidy_result !! k = Some v →
       v ≠ py.JNull ∧
       (∀ s, v = py.JStr s → py.strip s = s) ∧
       ((∀ s, v ≠ py.JStr s) → v = py.dict_get more.untidy_answer k)).
Proof.
  apply (normalise_extraction_exact aux.demo_templates more.untidy_answer "demo"
           more.tidy_result).
  by vm_compute.
Defined.

Lemma normalise_extraction_idempotent_witness :
  ∃ again,
    schema.normalise_extraction aux.demo_templates
      (map_to_list (sync_output.to_dict more.tidy_result)) "demo" = inr again ∧
    schema._data again = schema._data more.tidy_result ∧
    ("id" ∉ templates.name <$> templates.fields aux.demo_template →
     "id_value" ∉ templates.name <$> templates.fields aux.demo_template →
     schema.id_value again = schema.id_value more.tidy_result).
Proof.
  apply (normalise_extraction_idempotent aux.demo_templates more.untidy_answer "demo"
           more.tidy_result aux.demo_template); by vm_compute.
Defined.

(** ** Both paths: the outcomes and the files written from them *)

Section OutcomeFacts.
Import py templates sync_runner batch_runner more.
Context `{RT : Runtime}.
Variable TEMPLATES : gmap string ExtractionTemplate.

Lemma worker_settled (config : AppConfig) (op : nat → exn + json) (record : Record_) :
  settled (worker TEMPLATES config op record).
Proof. unfold worker. by destruct (py.bind _ _). Qed.

Lemma line_outcome_settled (tid : string) (record : Record_) (response error : json) :
  settled (line_outcome TEMPLATES tid record response error).
Proof.
  unfold line_outcome. destruct (truthy response && negb (truthy error)); [|done].
  by destruct (py.bind _ _).
Qed.

Lemma last_entry_settled (id_map : gmap string Record_) (tid k : string)
    (lines : list string) (o : outcome) :
  aux.last_entry TEMPLATES id_map tid k lines = Some o → settled o.
Proof.
  induction lines as [|line rest IH]; [done|]. simpl.
  destruct (aux.last_entry TEMPLATES id_map tid k rest) as [o'|].
  { intros [= <-]. by apply IH. }
  unfold aux.line_entry.
  destruct (String.eqb (strip line) ""); [done|].
  destruct (json_loads line) as [|entry]; [done|]. simpl.
  destruct (get entry "custom_id") as [|cid]; [done|]. simpl.
  destruct (id_map_get id_map cid) as [|[record|]]; [done| |done]. simpl.
  destruct (get entry "response") as [|response]; [done|]. simpl.
  destruct (get entry "error") as [|error]; [done|]. simpl.
  destruct (String.eqb k (id_value record)); [|done].
  intros [= <-]. apply line_outcome_settled.
Qed.





Lemma parse_batch_results_each (P : outcome → Prop) (records : list Record_)
    (id_map : gmap string Record_) (lines : list string) (tid : string)
    (ordered : list outcome) :
  (∀ k o, aux.last_entry TEMPLATES id_map tid k lines = Some o → P o) →
  (∀ r, P (r, None, Some missing_error)) →
  parse_batch_results TEMPLATES records id_map lines tid = inr ordered →
  Forall P ordered.
Proof.
  intros Hlast Hmiss H. rewrite (parse_batch_results_table _ _ _ _ _ _ H).
  apply Forall_fmap, Forall_forall. intros r _. simpl.
  destruct (aux.last_entry _ _ _ _ _) as [o|] eqn:Ho; simpl; [by eapply Hlast|apply Hmiss].
Qed.

Lemma process_records_each (P : outcome → Prop) (records : list Record_)
    (client : nat → nat → exn + json) (config : AppConfig) (completion : list nat)
    (out : list outcome) :
  (∀ i r, P (worker TEMPLATES config (client i) r)) →
  process_records TEMPLATES records client config completion = Returns out →
  Forall P out.
Proof.
  intros HP. unfold process_records.
  destruct (_ <? _)%Z; [done|]. destruct (get_template _ _); [done|].
  destruct (_ && _); [done|]. intros [= <-].
  apply Forall_forall. intros o Ho.
  apply list_elem_of_omap in Ho as (i & _ & Ho).
  destruct (records !! i); [|done]. injection Ho as <-. apply HP.
Qed.

(** X3. On both paths every outcome holds either an extraction and no error
    text, or an error text and no extraction. *)
Theorem outcomes_settled :
  (∀ records id_map lines tid ordered,
     parse_batch_results TEMPLATES records id_map lines tid = inr ordered →
     Forall settled ordered) ∧
  (∀ records client config completion out,
     process_records TEMPLATES records client config completion = Returns out →
     Forall settled out).
Proof.
  split.
  - intros records id_map lines tid ordered.
    apply parse_batch_results_each; [|done].
    intros k o. apply last_entry_settled.
  - intros records client config completion out.
    apply process_records_each. intros. apply worker_settled.
Qed.

End OutcomeFacts.

Section OutputFacts.
Import py templates sync_runner batch_runner sync_output more.





End OutputFacts.

Section OutputClaims.
Import py templates sync_runner batch_runner sync_output more.
Context `{RT : Runtime}.
Variable TEMPLATES : gmap string ExtractionTemplate.



End OutputClaims.

Lemma outcomes_settled_witness :
  Forall more.settled
    [(aux.rec "A" "x", Some {| schema.id_value := "A";
                               schema._data := {[ "f1" := py.JStr ""; "f2" := py.JStr "";
                                                  "f3" := py.JStr "" ]} |}, None);
     (aux.rec "B" "y", None, Some batch_runner.missing_error)].
Proof.
  apply (proj1 (outcomes_settled (RT := aux.demo_runtime) aux.demo_templates)
           [aux.rec "A" "x"; aux.rec "B" "y"]
           (<["B" := aux.rec "B" "y"]> (<["A" := aux.rec "A" "x"]> ∅))
           [aux.ok_line "A" "{}"] "demo").
  by vm_compute.
Defined.



(** ** batch_runner.py: the life cycle of a batch *)

Section LifecycleFacts.
Import py templates sync_runner batch_runner aux.
Local Open Scope Q_scope.
Variable client : SiliconClient.
Variable batch_id : json.
Hypothesis Hanswers : answers client batch_id.


Lemma sleep_negative (d : Q) (w : world) :
  d < 0 → sleep d w = (w, Raises negative_sleep).
Proof.
  intros Hd. unfold sleep. destruct (Qle_bool 0 d) eqn:H; [|done].
  apply Qle_bool_iff in H. by apply Qle_not_lt in H.
Qed.


Lemma retrieve_answer (w : world) :
  ∃ kv, retrieve_batch client batch_id (retrieved w) = inr (JObj kv) ∧
        hashable (dict_get kv "status") ∧
        retrieve client batch_id w
        = ({| retrieved := S (retrieved w); downloaded := downloaded w;
              slept := slept w; outputs := outputs w |}, Returns (JObj kv)).
Proof.
  destruct (Hanswers (retrieved w)) as (kv & Hkv & Hhash).
  exists kv. split; [done|]. split; [done|]. unfold retrieve. by rewrite Hkv.
Qed.

Lemma in_failed_cancelled_hashable (state : json) :
  hashable state →
  in_failed_cancelled state = inr (is_str state "failed" || is_str state "cancelled").
Proof. by destruct state. Qed.


(** A negative interval is refused by the first pause: polling then raises
    as soon as a status query reports a state that is not terminal. *)
Lemma poll_batch_negative (interval : Q) (fuel : nat) (w : world) :
  interval < 0 →
  terminal (job_state client batch_id (retrieved w)) = false →
  poll_batch (S fuel) client batch_id interval w
  = ({| retrieved := S (retrieved w); downloaded := downloaded w;
        slept := slept w; outputs := outputs w |}, Raises negative_sleep).
Proof.
  intros Hinterval H0.
  destruct (retrieve_answer w) as (kv & Hkv & Hhash & Hret).
  unfold job_state, answer_field in H0. rewrite Hkv in H0.
  unfold terminal in H0. apply orb_false_elim in H0 as [H0 Hcancel].
  apply orb_false_elim in H0 as [Hcompleted Hfailed].
  cbn [poll_batch]. unfold seq_ at 1. rewrite Hret.
  unfold seq_ at 1. cbn [get lift ret]. rewrite Hcompleted.
  unfold seq_ at 1. rewrite (in_failed_cancelled_hashable _ Hhash). cbn [lift ret].
  rewrite Hfailed, Hcancel. cbn [orb]. unfold seq_ at 1.
  by rewrite (sleep_negative _ _ Hinterval).
Qed.





End LifecycleFacts.

Section DownloadFacts.
Import py templates sync_runner batch_runner aux.
Local Open Scope Q_scope.
Variable client : SiliconClient.
Variable file_id : json.




End DownloadFacts.

Section LifecycleClaims.
Import py templates sync_runner batch_runner aux.
Local Open Scope Q_scope.
Context `{RT : Runtime}.
Variable TEMPLATES : gmap string ExtractionTemplate.
Variable build_prompt : ExtractionTemplate → string.
Variable fuel : nat.
Variable env : config_env.environ.
Variable records : list Record_.
Variable settings : config_env.AppConfig.
Variable client : SiliconClient.
Variable poll_interval : Q.
Variable api_key : string.
Variable t : ExtractionTemplate.
Variable file_info file_id job batch_id : json.
Variable n : nat.

Local Abbreviation config := (config_env.runner_config settings).

Hypothesis Hprovider : supported (config_env.get_provider settings) = true.
Hypothesis Hrecords : records ≠ [].
Hypothesis Hkey : config_env.ensure_api_key env (Some settings) = inr api_key.
Hypothesis Htemplate : TEMPLATES !! config_env.template_id settings = Some t.
Hypothesis Hupload : upload_jsonl client = inr file_info.
Hypothesis Hfile : file_id_of file_info = inr file_id.
Hypothesis Hcreate : ∀ extra_body, create_batch client file_id extra_body = inr job.
Hypothesis Hbatch_id : getitem job "id" = inr batch_id.
Hypothesis Hanswers : answers client batch_id.
Hypothesis Hinterval : 0 <= poll_interval.
Hypothesis Hpending : ∀ j, (j < n)%nat → terminal (job_state client batch_id j) = false.
Hypothesis Hterminal : terminal (job_state client batch_id n) = true.
Hypothesis Hfuel : (n < fuel)%nat.
Hypothesis Hartifact :
  ∀ fid j lines, download_file client fid j = inr lines → Forall well_formed lines.

Local Abbreviation final :=
  (run_batch TEMPLATES build_prompt fuel env records settings client poll_interval fresh).







End LifecycleClaims.



(** ** sync_runner.py: the shape of a call and its pauses *)

Section RetryShape.
Import py sync_runner aux more.
Local Open Scope Q_scope.
Context `{RT : Runtime}.
Variable op : nat → exn + json.
Variable config : AppConfig.
Local Abbreviation mr := (max_retries (rate_limit config)).
Local Abbreviation backoff := (retry_backoff (rate_limit config)).

Lemma first_stop (n : nat) :
  ∃ k, (k ≤ n)%nat ∧ (∀ j, (j < k)%nat → failed (op j)) ∧
       (¬ failed (op k) ∨ k = n).
Proof.
  induction n as [|n (k & Hk & Hall & Hstop)].
  { exists 0%nat. split; [lia|]. split; [intros j; lia|by right]. }
  destruct Hstop as [Hok| ->]; [exists k; split; [lia|]; split; [done|by left]|].
  destruct (op n) as [exc|v] eqn:Hop.
  - exists (S n). split; [lia|]. split; [|by right].
    intros j Hj. destruct (decide (j = n)) as [->|]; [by rewrite Hop|].
    apply Hall. lia.
  - exists n. split; [lia|]. split; [done|]. left. rewrite Hop. by intros [].
Qed.

Lemma call_with_retry_shape :
  (0 ≤ mr)%Z →
  ∃ k, (Z.of_nat k ≤ mr)%Z ∧ (∀ j, (j < k)%nat → failed (op j)) ∧
       (failed (op k) → Z.of_nat k = mr) ∧
       _call_with_retry op config
       = (failed_attempts op backoff 0 k ++ [Acquire; Call k], op k).
Proof.
  intros Hmr.
  destruct (first_stop (Z.to_nat mr)) as (k & Hk & Hall & Hstop).
  exists k. split; [lia|]. split; [done|]. split.
  { intros Hf. destruct Hstop as [Hok| ->]; [done|lia]. }
  unfold _call_with_retry.
  rewrite (retry_loop_stops op config k _ 0); try done.
  - lia.
  - simpl. lia.
  - simpl. destruct Hstop as [Hok| ->]; [by left|right; lia].
Qed.

Lemma call_with_retry_none :
  (mr < 0)%Z → _call_with_retry op config = ([], inr JNull).
Proof.
  intros Hmr. unfold _call_with_retry.
  by replace (Z.to_nat (mr + 1)) with 0%nat by lia.
Qed.

Lemma acquires_failed_attempts (a k : nat) (rest : list event) :
  acquires (failed_attempts op backoff a k ++ rest) = (k + acquires rest)%nat.
Proof.
  revert a. induction k as [|k IH]; intros a; [done|].
  rewrite (failed_attempts_cons op config). simpl. unfold acquires in *. simpl.
  by rewrite IH.
Qed.

(** X6. Every attempt of a call passes the rate limiter first, retries
    included, and a pause follows each attempt but the last. With a number of
    retries that is not negative the call ends with the answer of its last
    attempt: what the client returned, or the exception it raised at the
    attempt numbered [max_retries]. With a negative number of retries no
    attempt is made, and the call returns [None] rather than raising. *)
Theorem call_with_retry_trace :
  let run := _call_with_retry op config in
  acquires (fst run) = attempts (fst run) ∧
  length (sleeps (fst run)) = (attempts (fst run) - 1)%nat ∧
  ((mr < 0)%Z → run = ([], inr JNull)) ∧
  ((0 ≤ mr)%Z →
   ∃ k, (Z.of_nat k ≤ mr)%Z ∧ (∀ j, (j < k)%nat → failed (op j)) ∧
        (failed (op k) → Z.of_nat k = mr) ∧
        snd run = op k ∧
        fst run = flat_map (λ i, [Acquire; Call i; Sleep (failure_delay op backoff i)])
                           (seq 0 k) ++ [Acquire; Call k]).
Proof.
  intros run. unfold run.
  destruct (Z_lt_le_dec mr 0) as [Hneg|Hpos].
  - rewrite (call_with_retry_none Hneg). split_and!; try done.
    intros Hpos. exfalso. clear -Hneg Hpos. lia.
  - destruct (call_with_retry_shape Hpos) as (k & Hk & Hall & Hlast & ->).
    cbn [fst snd]. split_and!.
    + by rewrite acquires_failed_attempts, (attempts_failed_attempts op config).
    + rewrite (sleeps_failed_attempts op config), (attempts_failed_attempts op config).
      rewrite length_app, length_fmap, length_seq.
      change (sleeps [Acquire; Call k]) with (@nil Q).
      change (attempts [Acquire; Call k]) with 1%nat. simpl. lia.
    + lia.
    + intros _. exists k. by split_and!.
Qed.

Lemma Qpower_nonneg (b : Q) (i : nat) : 0 <= b → 0 <= b ^ Z.of_nat i.
Proof. intros Hb. by apply Qpower_0_le. Qed.

Lemma float_of_group_nonneg (g : string) (q : Q) :
  float_of_group g = Some q → 0 <= q.
Proof.
  unfold float_of_group. destruct (span is_digit g) as [whole rest].
  destruct (_ && _); [|done]. intros [= <-].
  rewrite Qred_correct.
  set (n := Z.of_N _). set (d := (10 ^ _)%Z).
  assert (0 <= inject_Z n) as Hn.
  { change 0 with (inject_Z 0). rewrite <- Zle_Qle. unfold n. lia. }
  assert (0 < inject_Z d) as Hd.
  { change 0 with (inject_Z 0). rewrite <- Zlt_Qlt. unfold d. lia. }
  apply Qle_shift_div_l; [done|]. lra.
Qed.

Lemma extract_429_retry_delay_nonneg (msg : string) (d : Q) :
  _extract_429_retry_delay msg = Some d → 0 <= d.
Proof.
  assert (∀ at_, try_pattern at_ msg = Some d → 0 <= d) as Htry.
  { intros at_. unfold try_pattern. destruct (search at_ msg) as [g|]; [|done].
    simpl. apply float_of_group_nonneg. }
  unfold _extract_429_retry_delay.
  destruct (try_pattern pattern1_at msg) eqn:H1.
  { intros [= <-]. by eapply Htry. }
  destruct (try_pattern pattern2_at msg) eqn:H2.
  { intros [= <-]. by eapply Htry. }
  apply Htry.
Qed.

Lemma retry_delay_bounds (b : Q) (i : nat) (msg : string) :
  0 <= b →
  0 <= retry_delay b i msg ∧ retry_delay b i msg <= Qmax 120 (b ^ Z.of_nat i * 10).
Proof.
  intros Hb. pose proof (Qpower_nonneg b i Hb) as Hp.
  pose proof (Q.le_max_l 120 (b ^ Z.of_nat i * 10)) as Hl.
  pose proof (Q.le_max_r 120 (b ^ Z.of_nat i * 10)) as Hr.
  unfold retry_delay. destruct (is_429 msg).
  - destruct (_extract_429_retry_delay msg) as [d|] eqn:Hd; [|split; lra].
    destruct (truthy (JFloat d)); [|split; lra].
    pose proof (extract_429_retry_delay_nonneg _ _ Hd) as Hd0.
    pose proof (Q.le_min_r (d + 2) 120) as Hm.
    split; [|lra].
    apply Q.min_glb; lra.
  - split; lra.
Qed.

(** X7. The pauses of a call are bounded. With a backoff base that is not
    negative, no pause is negative, the pause after the attempt numbered [i]
    is at most the larger of 120 seconds and ten times the i-th power of the
    base, and attempts are paused after only below [max_retries]. *)
Theorem call_with_retry_pauses (i : nat) (d : Q) :
  0 <= backoff →
  sleeps (fst (_call_with_retry op config)) !! i = Some d →
  0 <= d ∧ d <= Qmax 120 (backoff ^ Z.of_nat i * 10) ∧ (Z.of_nat i < mr)%Z.
Proof.
  intros Hb.
  destruct (Z_lt_le_dec mr 0) as [Hneg|Hpos].
  { by rewrite (call_with_retry_none Hneg). }
  destruct (call_with_retry_shape Hpos) as (k & Hk & Hall & Hlast & ->).
  cbn [fst]. rewrite (sleeps_failed_attempts op config). simpl. rewrite app_nil_r.
  rewrite list_lookup_fmap. intros Hd.
  destruct (seq 0 k !! i) as [j|] eqn:Hj; [|done].
  apply lookup_seq in Hj as [-> Hik]. simpl in Hd. injection Hd as <-.
  unfold failure_delay. specialize (Hall i Hik).
  destruct (op i) as [exc|]; [|done].
  destruct (retry_delay_bounds backoff i (str_exn exc) Hb). split_and!; try done. lia.
Qed.

End RetryShape.

Lemma call_with_retry_trace_example :
  sync_runner._call_with_retry (RT := aux.demo_runtime) aux.flaky_op more.no_attempt_config
  = ([], inr py.JNull) ∧
  sync_runner.worker (RT := aux.demo_runtime) aux.demo_templates more.no_attempt_config
    aux.flaky_op (aux.rec "1" "x")
  = (aux.rec "1" "x", None, Some "TypeError").
Proof. split; by vm_compute. Qed.

Lemma call_with_retry_trace_witness :
  ∃ k, (Z.of_nat k ≤ 3)%Z ∧ (∀ j, (j < k)%nat → aux.failed (aux.flaky_op j)) ∧
       (aux.failed (aux.flaky_op k) → Z.of_nat k = 3%Z) ∧
       snd (sync_runner._call_with_retry (RT := aux.demo_runtime) aux.flaky_op aux.demo_config)
       = aux.flaky_op k ∧
       fst (sync_runner._call_with_retry (RT := aux.demo_runtime) aux.flaky_op aux.demo_config)
       = flat_map (λ i, [sync_runner.Acquire; sync_runner.Call i;
                         sync_runner.Sleep
                           (aux.failure_delay (RT := aux.demo_runtime) aux.flaky_op 2 i)])
                  (seq 0 k) ++ [sync_runner.Acquire; sync_runner.Call k].
Proof.
  apply (call_with_retry_trace (RT := aux.demo_runtime) aux.flaky_op aux.demo_config).
  by vm_compute.
Defined.

Lemma call_with_retry_pauses_witness :
  (0 <= sync_runner.retry_delay 2 0 aux.quota_message ∧
   sync_runner.retry_delay 2 0 aux.quota_message <= Qmax 120 (2 ^ Z.of_nat 0 * 10) ∧
   (Z.of_nat 0 < 3)%Z)%Q.
Proof.
  apply (call_with_retry_pauses (RT := aux.demo_runtime) aux.quota_op aux.demo_config
           0 (sync_runner.retry_delay 2 0 aux.quota_message)); by vm_compute.
Defined.

(** ** sync_runner.py: the exact spacing of the rate limiter *)

Section LimiterLaw.
Import py sync_runner.
Local Open Scope Q_scope.

Lemma interval_bounds (rpm : Z) (now : Q) :
  0 < interval (RateLimiter_init rpm now) ∧
  interval (RateLimiter_init rpm now) <= 60 ∧
  ((rpm ≤ 1)%Z → interval (RateLimiter_init rpm now) == 60).
Proof.
  unfold RateLimiter_init. cbn [interval].
  assert (1 <= inject_Z (Z.max rpm 1)) as Hm.
  { change 1 with (inject_Z 1). rewrite <- Zle_Qle. lia. }
  split_and!.
  - apply Qlt_shift_div_l; lra.
  - apply Qle_shift_div_r; lra.
  - intros Hr. replace (Z.max rpm 1) with 1%Z by lia. reflexivity.
Qed.

Lemma acquisitions_law (idle : list Q) (self : RateLimiter) (clock : Q)
    (i : nat) (g g' gap : Q) :
  acquisitions self clock idle !! i = Some g →
  acquisitions self clock idle !! S i = Some g' →
  idle !! S i = Some gap →
  g' == g + Qmax gap (interval self).
Proof.
  revert self clock i. induction idle as [|gap0 rest IH]; intros self clock i; [done|].
  cbn [acquisitions].
  destruct (wait self (clock + gap0)) as [self' granted] eqn:Hw.
  pose proof (wait_granted self (clock + gap0)) as Hgranted.
  pose proof (wait_marker self (clock + gap0)) as Hmarker.
  pose proof (wait_interval self (clock + gap0)) as Hinterval.
  rewrite Hw in Hgranted, Hmarker, Hinterval. cbn [fst snd] in *.
  destruct i as [|i].
  - intros [= <-]. cbn [lookup list_lookup].
    destruct rest as [|gap1 rest']; [done|].
    cbn [acquisitions lookup list_lookup].
    destruct (wait self' (granted + gap1)) as [self'' granted'] eqn:Hw'.
    pose proof (wait_granted self' (granted + gap1)) as Hgranted'.
    rewrite Hw' in Hgranted'. cbn [snd] in Hgranted'.
    intros [= <-] [= <-].
    rewrite Hgranted', Hmarker, <- Hgranted.
    apply Q.plus_max_distr_l.
  - intros Hg Hg' Hgap.
    rewrite <- Hinterval. by eapply IH.
Qed.

(** X8. The exact spacing of the rate limiter, on a clock that a sleep
    advances by the duration asked for. The interval between two
    grants is positive and at most a minute for every setting of [rpm]
    (a setting of 1 or less, zero and negative ones included, gives one
    request a minute); the first caller is let through at once unless it
    comes before the limiter's first slot; and each later grant comes after
    the previous one by the interval, or by the time the caller stayed away
    if that is longer. Unused time is never saved up for a burst. *)
Theorem rate_limiter_law (rpm : Z) (created clock : Q) (idle : list Q) :
  let limiter := RateLimiter_init rpm created in
  (0 < interval limiter ∧ interval limiter <= 60 ∧
   ((rpm ≤ 1)%Z → interval limiter == 60)) ∧
  (∀ gap g, idle !! 0%nat = Some gap →
            acquisitions limiter clock idle !! 0%nat = Some g →
            g == Qmax (clock + gap) created) ∧
  (∀ i g g' gap,
     acquisitions limiter clock idle !! i = Some g →
     acquisitions limiter clock idle !! S i = Some g' →
     idle !! S i = Some gap →
     g' == g + Qmax gap (interval limiter)).
Proof.
  intros limiter. split; [apply interval_bounds|]. split.
  - intros gap g. destruct idle as [|gap0 rest]; [done|].
    intros [= ->]. cbn [acquisitions].
    destruct (wait limiter (clock + gap)) as [self' granted] eqn:Hw.
    intros [= <-].
    pose proof (wait_granted limiter (clock + gap)) as Hg. by rewrite Hw in Hg.
  - intros i g g' gap. apply acquisitions_law.
Qed.

End LimiterLaw.

Lemma rate_limiter_law_example :
  sync_runner.acquisitions (sync_runner.RateLimiter_init 0 10) 10 [0; 0; 0; 200; 0]%Q
  = [10; 70; 130; 330; 390]%Q.
Proof. by vm_compute. Qed.

(** ** batch_runner.py: what the parser is insensitive to *)

Section ParserOrder.
Import py templates sync_runner batch_runner aux more.
Context `{RT : Runtime}.
Variable TEMPLATES : gmap string ExtractionTemplate.
Variable id_map : gmap string Record_.
Variable tid : string.

Local Abbreviation entry_of := (line_entry TEMPLATES id_map tid).
Local Abbreviation id_of := (line_id TEMPLATES id_map tid).

Lemma parse_line_blank (d : gmap string outcome) (line : string) :
  strip line = "" → parse_line TEMPLATES id_map tid d line = inr d.
Proof. intros H. unfold parse_line. by rewrite H. Qed.

Lemma parse_lines_swap (x y : string) (rest : list string) (d : gmap string outcome) :
  well_formed x → well_formed y →
  (∀ k, id_of x = Some k → id_of y ≠ Some k) →
  parse_lines TEMPLATES id_map tid d (x :: y :: rest)
  = parse_lines TEMPLATES id_map tid d (y :: x :: rest).
Proof.
  intros Hx Hy Hne. cbn [parse_lines]. rewrite !parse_line_entry.
  destruct (well_formed_entry TEMPLATES id_map tid x Hx) as [cx Hcx].
  destruct (well_formed_entry TEMPLATES id_map tid y Hy) as [cy Hcy].
  rewrite Hcx, Hcy. simpl. rewrite !parse_line_entry, Hcx, Hcy. simpl.
  destruct cx as [[kx ox]|], cy as [[ky oy]|]; try done.
  rewrite insert_insert_ne; [done|].
  intros Heq. apply (Hne kx); unfold line_id; rewrite ?Hcx, ?Hcy; by rewrite ?Heq.
Qed.

Lemma parse_lines_perm (lines lines' : list string) :
  lines ≡ₚ lines' →
  Forall well_formed lines →
  NoDup (omap id_of lines) →
  ∀ d, parse_lines TEMPLATES id_map tid d lines
       = parse_lines TEMPLATES id_map tid d lines'.
Proof.
  induction 1 as [|x l l' Hp IH|x y l|l l' l'' Hp IH Hp' IH']; intros Hwf Hnd d.
  - done.
  - cbn [parse_lines]. destruct (parse_line _ _ _ _ _) as [|d']; [done|]. simpl.
    apply IH; [by eapply Forall_inv_tail|].
    cbn [omap list_omap] in Hnd.
    destruct (id_of x); [by eapply NoDup_cons_1_2|done].
  - apply parse_lines_swap.
    + by eapply Forall_inv.
    + by eapply Forall_inv, Forall_inv_tail.
    + intros k Hy Hx. cbn [omap list_omap] in Hnd. rewrite Hx, Hy in Hnd.
      apply NoDup_cons_1_1 in Hnd. apply Hnd. by left.
  - rewrite IH by done. apply IH'.
    + by rewrite <- Hp.
    + by rewrite <- Hp.
Qed.

(** X9. When no two lines of the artifact belong to the same record, the
    order of the lines does not matter: every rearrangement of the artifact
    gives the same outcomes. *)
Theorem parse_batch_results_any_order (records : list Record_)
    (lines lines' : list string) :
  lines ≡ₚ lines' →
  Forall well_formed lines →
  NoDup (omap (line_id TEMPLATES id_map tid) lines) →
  parse_batch_results TEMPLATES records id_map lines tid
  = parse_batch_results TEMPLATES records id_map lines' tid.
Proof.
  intros Hp Hwf Hnd. unfold parse_batch_results.
  by rewrite (parse_lines_perm lines lines' Hp Hwf Hnd).
Qed.

Lemma parse_lines_fails (before after : list string) (bad : string) (e : exn)
    (d : gmap string outcome) :
  Forall well_formed before →
  entry_of bad = inl e →
  parse_lines TEMPLATES id_map tid d (before ++ bad :: after) = inl e.
Proof.
  intros Hwf Hbad. rewrite parse_lines_app.
  destruct (parse_lines_returns TEMPLATES id_map tid before d Hwf) as [d' ->].
  simpl. rewrite parse_line_entry, Hbad. done.
Qed.

(** X10. What the parser does with lines that carry nothing. A blank line
    is skipped wherever it stands; an empty artifact reports every record as
    missing; and one line that cannot be decoded, or that decodes to
    something other than an object, makes the whole call raise the
    exception met there, whatever the other lines hold, so that no outcome
    is returned at all. *)
Theorem parse_batch_results_degenerate (records : list Record_)
    (before after : list string) (line : string) :
  (strip line = "" →
   parse_batch_results TEMPLATES records id_map (before ++ line :: after) tid
   = parse_batch_results TEMPLATES records id_map (before ++ after) tid) ∧
  parse_batch_results TEMPLATES records id_map [] tid
  = inr ((λ r, (r, None, Some missing_error)) <$> records) ∧
  (Forall well_formed before → strip line ≠ "" →
   (∀ e, json_loads line = inl e →
      parse_batch_results TEMPLATES records id_map (before ++ line :: after) tid = inl e) ∧
   (∀ v, json_loads line = inr v → (∀ kv, v ≠ JObj kv) →
      parse_batch_results TEMPLATES records id_map (before ++ line :: after) tid
      = inl AttributeError)).
Proof.
  split_and!.
  - intros Hblank. unfold parse_batch_results. rewrite !parse_lines_app.
    destruct (parse_lines TEMPLATES id_map tid ∅ before) as [|d]; [done|]. simpl.
    by rewrite (parse_line_blank _ _ Hblank).
  - unfold parse_batch_results. simpl. by f_equal.
  - intros Hwf Hline.
    assert (String.eqb (strip line) "" = false) as Hb by (by apply String.eqb_neq).
    split.
    + intros e He. unfold parse_batch_results.
      rewrite (parse_lines_fails before after line e); [done|done|].
      unfold line_entry. by rewrite Hb, He.
    + intros v Hv Hobj. unfold parse_batch_results.
      rewrite (parse_lines_fails before after line AttributeError); [done|done|].
      unfold line_entry. rewrite Hb, Hv. simpl.
      destruct v; try done. by destruct (Hobj members).
Qed.

End ParserOrder.

Lemma parse_batch_results_any_order_witness :
  batch_runner.parse_batch_results (RT := aux.demo_runtime) aux.demo_templates
    [aux.rec "A" "x"; aux.rec "B" "y"]
    (<["B" := aux.rec "B" "y"]> (<["A" := aux.rec "A" "x"]> ∅))
    [aux.ok_line "A" "{}"; aux.ok_line "B" "{}"] "demo"
  = batch_runner.parse_batch_results (RT := aux.demo_runtime) aux.demo_templates
      [aux.rec "A" "x"; aux.rec "B" "y"]
      (<["B" := aux.rec "B" "y"]> (<["A" := aux.rec "A" "x"]> ∅))
      [aux.ok_line "B" "{}"; aux.ok_line "A" "{}"] "demo".
Proof.
  apply (parse_batch_results_any_order (RT := aux.demo_runtime)).
  - apply perm_swap.
  - well_formed_lines.
  - apply (bool_decide_unpack _). by vm_compute.
Defined.

Lemma parse_batch_results_degenerate_witness :
  batch_runner.parse_batch_results (RT := aux.demo_runtime) aux.demo_templates
    [aux.rec "A" "x"] (<["A" := aux.rec "A" "x"]> ∅)
    ([aux.ok_line "A" "{}"] ++ "not json" :: []) "demo"
  = inl (py.JSONDecodeError "not json").
Proof.
  apply (proj2 (proj2 (parse_batch_results_degenerate (RT := aux.demo_runtime)
                         aux.demo_templates (<["A" := aux.rec "A" "x"]> ∅) "demo"
                         [aux.rec "A" "x"] [aux.ok_line "A" "{}"] [] "not json"))).
  - well_formed_lines.
  - by vm_compute.
  - by vm_compute.
Defined.

(** ** batch_runner.py: the lines of the request file *)

Section WriterLines.
Import py templates sync_runner batch_runner aux.
Variable config : AppConfig.
Variable system_prompt : string.

Local Abbreviation step := (write_request config system_prompt).

(** What every line of the request file has in common. *)
Lemma write_requests_written (rs : list Record_) (w : writer)
    (P : payload → Prop) :
  (∀ r k, k ≠ "" → P (build_batch_payload r config system_prompt (Some k))) →
  Forall P (written w) →
  Forall P (written (foldl step w rs)) ∧
  user_content <$> written (foldl step w rs)
  = (user_content <$> written w) ++ (text <$> rs).
Proof.
  intros HP. revert w. induction rs as [|r rs IH]; intros w Hw.
  { simpl. by rewrite app_nil_r. }
  cbn [foldl]. destruct (IH (step w r)) as [Hall Htexts].
  - rewrite write_request_unfold. cbn [written]. apply Forall_app. split; [done|].
    apply Forall_singleton, HP, key_of_nonempty.
  - split; [done|]. rewrite Htexts, write_request_unfold. cbn [written].
    rewrite fmap_app, <- app_assoc. done.
Qed.

Lemma write_requests_id_map_keeps (rs : list Record_) (w : writer) (k : string) :
  is_Some (id_map w !! k) → is_Some (id_map (foldl step w rs) !! k).
Proof.
  revert w. induction rs as [|r rs IH]; intros w Hk; [done|].
  cbn [foldl]. apply IH. rewrite write_request_unfold. cbn [id_map].
  apply lookup_insert_is_Some'. by right.
Qed.

Lemma write_requests_id_map_keys (rs seen : list Record_) (w : writer) (k : string) :
  counts_agree w seen →
  k ∈ submission_keys seen rs → is_Some (id_map (foldl step w rs) !! k).
Proof.
  revert seen w. induction rs as [|r rs IH]; intros seen w Hw Hk.
  { by apply elem_of_nil in Hk. }
  cbn [foldl submission_keys] in *. apply elem_of_cons in Hk as [->|Hk].
  - apply write_requests_id_map_keeps. rewrite write_request_unfold. cbn [id_map].
    rewrite Hw. apply lookup_insert_is_Some'. by left.
  - eapply IH; [|exact Hk]. by apply write_request_counts.
Qed.

End WriterLines.

Section WriterLinesClaims.
Import py templates sync_runner batch_runner aux.
Variable TEMPLATES : gmap string ExtractionTemplate.
Variable build_prompt : ExtractionTemplate → string.

(** X11. The request file has one line per record, in the order of the
    records: the line carries the record's text as the user message, the
    prompt of the template as the system message, the model and the
    temperature of the configuration, and a key that is never empty. The map
    returned has exactly the keys written, and each of its entries is the
    record of a line with that key. For an unknown template the call raises
    a ValueError. *)
Theorem write_request_jsonl_lines (records : list Record_) (config : AppConfig) :
  (∀ t, TEMPLATES !! template_id config = Some t →
     ∃ lines m,
       write_request_jsonl TEMPLATES build_prompt records config = inr (lines, m) ∧
       length lines = length records ∧
       user_content <$> lines = text <$> records ∧
       Forall (λ p, body_model p = model config ∧
                    system_content p = build_prompt t ∧
                    temperature p = response_temperature config ∧
                    custom_id p ≠ "") lines ∧
       (∀ k, is_Some (m !! k) ↔ k ∈ custom_id <$> lines) ∧
       (∀ k r, m !! k = Some r →
          ∃ i, records !! i = Some r ∧ (custom_id <$> lines) !! i = Some k)) ∧
  (TEMPLATES !! template_id config = None →
   write_request_jsonl TEMPLATES build_prompt records config
   = inl (ValueError (template_id config))).
Proof.
  split.
  - intros t Ht. unfold write_request_jsonl, build_system_prompt, get_template.
    rewrite Ht. simpl. eexists _, _. split; [reflexivity|].
    set (w0 := {| seen_counts := ∅; id_map := ∅; written := [] |}).
    pose proof (write_requests_keys config (build_prompt t) records [] w0
                  counts_agree_init) as Hkeys.
    simpl in Hkeys.
    destruct (write_requests_written config (build_prompt t) records w0
                (λ p, body_model p = model config ∧
                      system_content p = build_prompt t ∧
                      temperature p = response_temperature config ∧
                      custom_id p ≠ "")) as [Hall Htexts].
    { intros r k Hk. split_and!; try done. by rewrite payload_custom_id. }
    { apply Forall_nil_2. }
    simpl in Htexts. split_and!; try done.
    + rewrite <- (length_fmap custom_id), Hkeys. apply length_submission_keys.
    + intros k. rewrite Hkeys. split.
      * intros [r Hr].
        destruct (write_requests_id_map_inv config (build_prompt t) records [] w0 k r
                    counts_agree_init Hr) as [Hw|(i & _ & Hi)]; [done|].
        by eapply list_elem_of_lookup_2.
      * apply write_requests_id_map_keys, counts_agree_init.
    + intros k r Hr. rewrite Hkeys.
      destruct (write_requests_id_map_inv config (build_prompt t) records [] w0 k r
                  counts_agree_init Hr) as [Hw|(i & Hi & Hk)]; [done|].
      by exists i.
  - intros Ht. unfold write_request_jsonl, build_system_prompt, get_template.
    by rewrite Ht.
Qed.

End WriterLinesClaims.

Lemma write_request_jsonl_lines_witness :
  ∃ lines m,
    batch_runner.write_request_jsonl aux.demo_templates aux.demo_prompt
      [aux.rec "A" "x"; aux.rec "" "y"; aux.rec "A" "z"] aux.demo_config
    = inr (lines, m) ∧
    length lines = 3%nat ∧
    batch_runner.user_content <$> lines = ["x"; "y"; "z"] ∧
    Forall (λ p, batch_runner.body_model p = "m" ∧
                 batch_runner.system_content p = "demo" ∧
                 batch_runner.temperature p = 0%Q ∧
                 batch_runner.custom_id p ≠ "") lines ∧
    (∀ k, is_Some (m !! k) ↔ k ∈ batch_runner.custom_id <$> lines) ∧
    (∀ k r, m !! k = Some r →
       ∃ i, [aux.rec "A" "x"; aux.rec "" "y"; aux.rec "A" "z"] !! i = Some r ∧
            (batch_runner.custom_id <$> lines) !! i = Some k).
Proof.
  apply (proj1 (write_request_jsonl_lines aux.demo_templates aux.demo_prompt
                  [aux.rec "A" "x"; aux.rec "" "y"; aux.rec "A" "z"] aux.demo_config)
           aux.demo_template).
  by vm_compute.
Defined.

(** ** batch_runner.py: what polling returns *)

Section PollFacts.
Import py sync_runner batch_runner aux.
Local Open Scope Q_scope.
Variable client : SiliconClient.
Variable batch_id : json.
Variable interval : Q.

Lemma replicate_snoc_cons {A : Type} (n : nat) (x : A) (l : list A) :
  (l ++ [x]) ++ replicate n x = l ++ replicate (S n) x.
Proof. by rewrite <- app_assoc. Qed.

(** X12. Polling returns only a status whose state is final. Whatever the
    provider answers and whatever the interval, when [poll_batch] returns,
    the status returned is the answer to its last query and its state is
    [completed], [failed] or [cancelled]; no earlier answer had such a
    state; one pause of the polling interval separates two queries and none
    follows the last; no download is made and no result file is written.
    When it raises, the exception comes from its last query (the one the
    transport raised, an AttributeError for an answer that is not an object,
    or a TypeError for a state that cannot be hashed), or it is the
    ValueError of a pause of negative length, raised right after a first
    query whose state is not final. A pause is made only when the interval
    is not negative. *)
Theorem poll_batch_final (fuel : nat) (w w' : world) (r : run json) :
  poll_batch fuel client batch_id interval w = (w', r) →
  downloaded w' = downloaded w ∧
  outputs w' = outputs w ∧
  match r with
  | Returns status =>
      ∃ n, (n < fuel)%nat ∧ retrieved w' = S (retrieved w + n) ∧
           slept w' = slept w ++ replicate n interval ∧
           (n = 0%nat ∨ 0 <= interval) ∧
           retrieve_batch client batch_id (retrieved w + n)%nat = inr status ∧
           terminal (job_state client batch_id (retrieved w + n)) = true ∧
           ∀ j, (j < n)%nat → terminal (job_state client batch_id (retrieved w + j)) = false
  | Raises e =>
      ∃ n, (n < fuel)%nat ∧ retrieved w' = S (retrieved w + n) ∧
           slept w' = slept w ++ replicate n interval ∧
           (n = 0%nat ∨ 0 <= interval) ∧
           (retrieve_batch client batch_id (retrieved w + n)%nat = inl e ∨
            ∃ v, retrieve_batch client batch_id (retrieved w + n)%nat = inr v ∧
                 ((e = AttributeError ∧ ∀ kv, v ≠ JObj kv) ∨
                  (e = TypeError ∧ ∃ kv, v = JObj kv ∧ ¬ hashable (dict_get kv "status")) ∨
                  (e = negative_sleep ∧ interval < 0 ∧ n = 0%nat ∧
                   terminal (job_state client batch_id (retrieved w)) = false ∧
                   ∃ kv, v = JObj kv ∧ hashable (dict_get kv "status"))))
  | Hangs =>
      (fuel = 0%nat ∨ 0 <= interval) ∧
      retrieved w' = (retrieved w + fuel)%nat ∧
      slept w' = slept w ++ replicate fuel interval ∧
      ∀ j, (j < fuel)%nat → terminal (job_state client batch_id (retrieved w + j)) = false
  end.
Proof.
  revert w. induction fuel as [|fuel IH]; intros w.
  { simpl. unfold hang. intros [= <- <-]. split; [done|]. split; [done|].
    rewrite Nat.add_0_r, app_nil_r. split_and!; try done; [by left|]. intros j. lia. }
  cbn [poll_batch]. unfold seq_ at 1, retrieve.
  destruct (retrieve_batch client batch_id (retrieved w)) as [e|status] eqn:Hq.
  { simpl. unfold raise. intros [= <- <-]. split; [done|]. split; [done|]. exists 0%nat.
    rewrite Nat.add_0_r, app_nil_r. split_and!; try done; [lia|by left|by left]. }
  unfold lift at 1, ret at 1.
  set (w1 := {| retrieved := S (retrieved w) |}).
  unfold seq_ at 1.
  destruct status as [| | | | | |kv];
    try (simpl; unfold raise; intros [= <- <-]; split; [done|]; split; [done|];
         exists 0%nat; rewrite Nat.add_0_r, app_nil_r;
         split_and!; try done; [lia|by left|];
         right; eexists; split; [exact Hq|]; by left).
  cbn [get lift ret].
  assert (job_state client batch_id (retrieved w) = dict_get kv "status") as Hstate.
  { unfold job_state. by rewrite Hq. }
  destruct (is_str (dict_get kv "status") "completed") eqn:Hc.
  { intros [= <- <-]. split; [done|]. split; [done|]. exists 0%nat.
    rewrite Nat.add_0_r, app_nil_r.
    split_and!; try done; [lia|by left| |intros j; lia].
    rewrite Hstate. unfold terminal. by rewrite Hc. }
  unfold seq_ at 1.
  destruct (in_failed_cancelled (dict_get kv "status")) as [e|stop] eqn:Hs.
  { simpl. intros [= <- <-]. split; [done|]. split; [done|]. exists 0%nat.
    rewrite Nat.add_0_r, app_nil_r. split_and!; try done; [lia|by left|].
    right. eexists. split; [exact Hq|]. right. left.
    unfold in_failed_cancelled in Hs.
    destruct (dict_get kv "status") eqn:Hd; try done; injection Hs as <-;
      (split; [done|]); exists kv; (split; [done|]); rewrite Hd; by intros []. }
  assert (hashable (dict_get kv "status")) as Hh.
  { unfold in_failed_cancelled in Hs. by destruct (dict_get kv "status"). }
  rewrite (in_failed_cancelled_hashable _ Hh) in Hs. injection Hs as <-.
  cbn [lift ret].
  destruct (is_str (dict_get kv "status") "failed" || is_str (dict_get kv "status") "cancelled")
    eqn:Hf.
  { intros [= <- <-]. split; [done|]. split; [done|]. exists 0%nat.
    rewrite Nat.add_0_r, app_nil_r.
    split_and!; try done; [lia|by left| |intros j; lia].
    rewrite Hstate. unfold terminal. rewrite Hc. simpl. exact Hf. }
  assert (terminal (job_state client batch_id (retrieved w)) = false) as Hpending.
  { rewrite Hstate. unfold terminal.
    apply orb_false_elim in Hf as [Hf1 Hf2]. by rewrite Hc, Hf1, Hf2. }
  unfold seq_ at 1, sleep.
  destruct (Qle_bool 0 interval) eqn:Hle.
  2:{ intros [= <- <-]. split; [done|]. split; [done|]. exists 0%nat.
      rewrite Nat.add_0_r, app_nil_r. split_and!; try done; [lia|by left|].
      right. eexists. split; [exact Hq|]. right. right.
      split_and!; try done; [|by exists kv].
      apply Qnot_le_lt. intros H. apply Qle_bool_iff in H. congruence. }
  apply Qle_bool_iff in Hle.
  set (w2 := {| retrieved := retrieved w1 |}).
  intros Hrec. destruct (IH w2 Hrec) as (Hd & Ho & Hr).
  split; [exact Hd|]. split; [exact Ho|].
  assert (retrieved w2 = S (retrieved w)) as Hw2 by done.
  assert (slept w2 = slept w ++ [interval]) as Hs2 by done.
  clearbody w2. clear Hrec IH Hd Ho.
  assert (∀ j n, (j < S n)%nat →
            (∀ j', (j' < n)%nat →
               terminal (job_state client batch_id (retrieved w2 + j')) = false) →
            terminal (job_state client batch_id (retrieved w + j)) = false) as Hbefore.
  { intros j n Hj Hall. destruct j as [|j].
    - by rewrite Nat.add_0_r.
    - replace (retrieved w + S j)%nat with (retrieved w2 + j)%nat by lia.
      apply Hall. lia. }
  destruct r as [e| |status].
  - destruct Hr as (n & Hn & Hret & Hsl & _ & He). exists (S n).
    replace (retrieved w + S n)%nat with (retrieved w2 + n)%nat by lia.
    split_and!; [lia|lia| |by right|].
    + rewrite Hsl, Hs2. apply replicate_snoc_cons.
    + destruct He as [He|(v & Hv & [He|[He|(_ & Hneg & _)]])].
      * by left.
      * right. exists v. split; [done|]. by left.
      * right. exists v. split; [done|]. right. by left.
      * by apply Qle_not_lt in Hle.
  - destruct Hr as (_ & Hret & Hsl & Hall). split_and!.
    + by right.
    + lia.
    + rewrite Hsl, Hs2. apply replicate_snoc_cons.
    + intros j Hj. by eapply Hbefore.
  - destruct Hr as (n & Hn & Hret & Hsl & _ & Hq' & Ht & Hall). exists (S n).
    replace (retrieved w + S n)%nat with (retrieved w2 + n)%nat by lia.
    split_and!; [lia|lia| |by right|done|done|].
    + rewrite Hsl, Hs2. apply replicate_snoc_cons.
    + intros j Hj. by eapply Hbefore.
Qed.

End PollFacts.

Lemma poll_batch_final_witness :
  batch_runner.downloaded
    {| batch_runner.retrieved := 2; batch_runner.downloaded := 0;
       batch_runner.slept := [15%Q]; batch_runner.outputs := None |}
  = batch_runner.downloaded aux.fresh ∧
  batch_runner.outputs
    {| batch_runner.retrieved := 2; batch_runner.downloaded := 0;
       batch_runner.slept := [15%Q]; batch_runner.outputs := None |}
  = batch_runner.outputs aux.fresh ∧
  ∃ n, (n < 5)%nat ∧
       batch_runner.retrieved
         {| batch_runner.retrieved := 2; batch_runner.downloaded := 0;
            batch_runner.slept := [15%Q]; batch_runner.outputs := None |}
       = S (batch_runner.retrieved aux.fresh + n) ∧
       batch_runner.slept
         {| batch_runner.retrieved := 2; batch_runner.downloaded := 0;
            batch_runner.slept := [15%Q]; batch_runner.outputs := None |}
       = batch_runner.slept aux.fresh ++ replicate n 15%Q ∧
       (n = 0%nat ∨ (0 <= 15)%Q) ∧
       batch_runner.retrieve_batch aux.demo_batch_client (py.JStr "batch-1")
         (batch_runner.retrieved aux.fresh + n)%nat
       = inr (py.JObj [("status", py.JStr "completed")]) ∧
       aux.terminal (aux.job_state aux.demo_batch_client (py.JStr "batch-1")
                       (batch_runner.retrieved aux.fresh + n)) = true ∧
       ∀ j, (j < n)%nat →
            aux.terminal (aux.job_state aux.demo_batch_client (py.JStr "batch-1")
                            (batch_runner.retrieved aux.fresh + j)) = false.
Proof.
  apply (poll_batch_final aux.demo_batch_client (py.JStr "batch-1") 15%Q 5 aux.fresh
           {| batch_runner.retrieved := 2; batch_runner.downloaded := 0;
              batch_runner.slept := [15%Q]; batch_runner.outputs := None |}
           (sync_runner.Returns (py.JObj [("status", py.JStr "completed")]))).
  by vm_compute.
Defined.

(** A negative interval: the run of the examples raises at the first pause,
    after one status query. *)
Lemma poll_batch_negative_interval_example :
  batch_runner.poll_batch 5 aux.demo_batch_client (py.JStr "batch-1") (-1)%Q aux.fresh
  = ({| batch_runner.retrieved := 1; batch_runner.downloaded := 0;
        batch_runner.slept := []; batch_runner.outputs := None |},
     sync_runner.Raises batch_runner.negative_sleep).
Proof. reflexivity. Qed.

(** ** sync_runner.py: reading the records *)

Section DetectFacts.
Import py text sync_runner sync_input more.

Lemma dict_set_elem (k v k' v' : string) (d : list (string * string)) :
  (k', v') ∈ dict_set k v d → (k', v') ∈ d ∨ (k' = k ∧ v' = v).
Proof.
  induction d as [|[k0 v0] d IH]; simpl.
  { intros H. apply list_elem_of_singleton in H. injection H as -> ->. by right. }
  destruct (String.eqb_spec k k0) as [->|Hne].
  - intros [[= -> ->]|H]%elem_of_cons; [by right|]. left. by right.
  - intros [[= -> ->]|H]%elem_of_cons; [left; by left|].
    destruct (IH H) as [?|?]; [left; by right|by right].
Qed.

Lemma dict_set_key (k v : string) (d : list (string * string)) :
  ∃ v', (k, v') ∈ dict_set k v d.
Proof.
  induction d as [|[k0 v0] d [v' IH]]; simpl.
  { exists v. by left. }
  destruct (String.eqb_spec k k0) as [->|Hne].
  - exists v. by left.
  - exists v'. by right.
Qed.

Lemma dict_set_keeps (k v k0 v0 : string) (d : list (string * string)) :
  (k0, v0) ∈ d → ∃ v', (k0, v') ∈ dict_set k v d.
Proof.
  induction d as [|[k1 v1] d IH]; [by intros ?%elem_of_nil|].
  simpl. intros [[= <- <-]|H]%elem_of_cons.
  - destruct (String.eqb_spec k k0) as [->|Hne]; eexists; by left.
  - destruct (IH H) as [v' Hv'].
    destruct (String.eqb_spec k k1) as [->|Hne]; eexists; right; [exact H|exact Hv'].
Qed.

Lemma lower_map_from (cols : list string) (d : list (string * string)) :
  (∀ k v, (k, v) ∈ foldl (λ d col, dict_set (lower col) col d) d cols →
          (k, v) ∈ d ∨ (v ∈ cols ∧ k = lower v)) ∧
  (∀ c, c ∈ cols → ∃ v, (lower c, v) ∈ foldl (λ d col, dict_set (lower col) col d) d cols) ∧
  (∀ k v, (k, v) ∈ d → ∃ v', (k, v') ∈ foldl (λ d col, dict_set (lower col) col d) d cols).
Proof.
  revert d. induction cols as [|c cols IH]; intros d.
  { simpl. split_and!; [by left|by intros ? ?%elem_of_nil|by eauto]. }
  cbn [foldl]. destruct (IH (dict_set (lower c) c d)) as (H1 & H2 & H3).
  split_and!.
  - intros k v Hkv. destruct (H1 k v Hkv) as [Hd|[Hv ->]].
    + destruct (dict_set_elem _ _ _ _ _ Hd) as [?|[-> ->]]; [by left|].
      right. split; [by left|done].
    + right. split; [by right|done].
  - intros c' [->|Hc']%elem_of_cons.
    + destruct (dict_set_key (lower c) c d) as [v' Hv']. by eapply H3.
    + by apply H2.
  - intros k v Hkv. destruct (dict_set_keeps (lower c) c k v d Hkv) as [v' Hv'].
    by eapply H3.
Qed.

Lemma lower_map_elem (cols : list string) (k v : string) :
  (k, v) ∈ lower_map cols → v ∈ cols ∧ k = lower v.
Proof.
  intros H. destruct (lower_map_from cols []) as (H1 & _ & _).
  destruct (H1 k v H) as [?%elem_of_nil|?]; done.
Qed.

Lemma lower_map_key (cols : list string) (c : string) :
  c ∈ cols → ∃ v, (lower c, v) ∈ lower_map cols.
Proof. intros H. destruct (lower_map_from cols []) as (_ & H2 & _). by apply H2. Qed.

Lemma find_first {A : Type} (f : A → bool) (l : list A) (x : A) :
  List.find f l = Some x →
  ∃ i, l !! i = Some x ∧ f x = true ∧ ∀ j y, (j < i)%nat → l !! j = Some y → f y = false.
Proof.
  induction l as [|a l IH]; [done|]. simpl. destruct (f a) eqn:Hfa.
  - intros [= <-]. exists 0%nat. split_and!; [done|done|]. intros j y Hj. lia.
  - intros H. destruct (IH H) as (i & Hi & Hx & Hbefore). exists (S i).
    split_and!; [done|done|]. intros [|j] y Hj; simpl.
    + by intros [= <-].
    + apply Hbefore. lia.
Qed.

Lemma find_none_elem {A : Type} (f : A → bool) (l : list A) :
  List.find f l = None ↔ ∀ x, x ∈ l → f x = false.
Proof.
  induction l as [|a l IH]; simpl.
  { split; [by intros _ ? ?%elem_of_nil|done]. }
  destruct (f a) eqn:Hfa.
  - split; [done|]. intros H. rewrite (H a) in Hfa; [done|by left].
  - rewrite IH. split.
    + intros H x [->|Hx]%elem_of_cons; [done|by apply H].
    + intros H x Hx. apply H. by right.
Qed.

Lemma forallb_elem {A : Type} (f : A → bool) (l : list A) :
  forallb f l = true ↔ ∀ x, x ∈ l → f x = true.
Proof.
  rewrite forallb_forall. split; intros H x Hx; apply H; by apply list_elem_of_In.
Qed.

(** X13. The column that detection picks. A column returned is a column of
    the header, and it is either a candidate or a column whose lower-case
    name contains every keyword. A candidate that is a column wins over
    every keyword match, the earliest candidate first, whatever the order of
    the columns. Nothing is returned exactly when no candidate is a column
    and no column contains all the keywords. *)
Theorem auto_detect_column_choice (columns candidates keywords : list string) :
  (∀ c, _auto_detect_column columns candidates keywords = Some c →
     c ∈ columns ∧
     (c ∈ candidates ∨ ∀ kw, kw ∈ keywords → contains kw (lower c) = true)) ∧
  (∀ cand, cand ∈ candidates → cand ∈ columns →
     ∃ i c, _auto_detect_column columns candidates keywords = Some c ∧
            candidates !! i = Some c ∧ c ∈ columns ∧
            ∀ j c', (j < i)%nat → candidates !! j = Some c' → c' ∉ columns) ∧
  (_auto_detect_column columns candidates keywords = None ↔
     (∀ cand, cand ∈ candidates → cand ∉ columns) ∧
     (∀ c, c ∈ columns → ¬ ∀ kw, kw ∈ keywords → contains kw (lower c) = true)).
Proof.
  unfold _auto_detect_column.
  destruct (List.find (λ cand, bool_decide (cand ∈ columns)) candidates) as [c0|] eqn:Hfind.
  - destruct (find_first _ _ _ Hfind) as (i & Hi & Hin%bool_decide_eq_true & Hbefore).
    split_and!.
    + intros c [= <-]. split; [done|]. left. by eapply list_elem_of_lookup_2.
    + intros cand Hcand Hcol. exists i, c0. split_and!; try done.
      intros j c' Hj Hc'. specialize (Hbefore j c' Hj Hc').
      by apply bool_decide_eq_false in Hbefore.
    + split; [done|]. intros [Hnone _]. destruct (Hnone c0); [|done].
      by eapply list_elem_of_lookup_2.
  - pose proof (proj1 (find_none_elem _ _) Hfind) as Hnone.
    assert (∀ cand, cand ∈ candidates → cand ∉ columns) as Hnone'.
    { intros cand Hc. apply (bool_decide_eq_false_1 _). by apply Hnone. }
    split_and!.
    + intros c Hc. apply fmap_Some in Hc as ([k v] & Hf & ->).
      destruct (find_first _ _ _ Hf) as (i & Hi & Hall & _).
      apply list_elem_of_lookup_2, lower_map_elem in Hi as [Hv ->].
      split; [done|]. right. by apply forallb_elem.
    + intros cand Hcand Hcol. by destruct (Hnone' cand).
    + rewrite fmap_None, find_none_elem. split.
      * intros Hall. split; [done|]. intros c Hc Hkw.
        destruct (lower_map_key columns c Hc) as [v Hv].
        specialize (Hall _ Hv). simpl in Hall.
        by rewrite (proj2 (forallb_elem _ _) Hkw) in Hall.
      * intros [_ Hall] [k v] Hkv. apply lower_map_elem in Hkv as [Hv ->]. simpl.
        destruct (forallb _ keywords) eqn:Hf; [|done].
        destruct (Hall v Hv). by apply forallb_elem.
Qed.

End DetectFacts.

Lemma auto_detect_column_choice_example :
  sync_input._auto_detect_column ["病历号"; "所见"; "检查所见"] ["检查所见"; "所见"] ["查"; "见"]
  = Some "检查所见" ∧
  sync_input._auto_detect_column ["ID"; "影像检查与所见"] ["检查所见"; "所见"] ["查"; "见"]
  = Some "影像检查与所见" ∧
  sync_input._auto_detect_column ["ID"; "Report"] ["检查所见"; "所见"] ["查"; "见"] = None.
Proof. by vm_compute. Qed.

Section ReadFacts.
Import py text sync_runner sync_input more.

Lemma len_take (n : nat) (s : string) : (len (take n s) ≤ n)%nat.
Proof.
  revert n. induction s as [|c r IH]; intros n; simpl; [lia|].
  destruct (is_continuation c) eqn:Hc.
  - simpl. rewrite Hc. apply IH.
  - destruct n as [|n]; simpl; [lia|]. rewrite Hc. specialize (IH n). lia.
Qed.

Lemma take_nonempty (n : nat) (s : string) : s ≠ "" → take (S n) s ≠ "".
Proof. destruct s as [|c r]; [done|]. simpl. by destruct (is_continuation c). Qed.

Lemma truncated_len (m : Z) (t : string) :
  (0 ≤ m)%Z → (Z.of_nat (len (truncated m t)) ≤ m)%Z.
Proof.
  intros Hm. unfold truncated. destruct (Z.ltb_spec m (Z.of_nat (len t))); [|done].
  unfold slice_to. destruct (Z.leb_spec 0 m); [|lia].
  pose proof (len_take (Z.to_nat m) t). lia.
Qed.

Lemma truncated_nonempty (m : Z) (t : string) :
  (1 ≤ m)%Z → t ≠ "" → truncated m t ≠ "".
Proof.
  intros Hm Ht. unfold truncated. destruct (_ <? _)%Z; [|done].
  unfold slice_to. destruct (Z.leb_spec 0 m); [|lia].
  replace (Z.to_nat m) with (S (Z.to_nat (m - 1))) by lia. by apply take_nonempty.
Qed.

Lemma id_at_nonempty (i : nat) (cell : string) : id_at i cell ≠ "".
Proof.
  unfold id_at. destruct (String.eqb_spec (strip cell) ""); [|done].
  by rewrite !append_cons.
Qed.

(** What the loop over the rows adds to the records kept so far. *)
Lemma read_rows_adds (text_columns : list string) (id_column : string)
    (max_chars : Z) (limit : option Z) (rows : list row) (records : list Record_) :
  ∃ new,
    read_rows text_columns id_column max_chars limit records rows = records ++ new ∧
    (length new ≤ length rows)%nat ∧
    row_data <$> new `sublist_of` rows ∧
    (∀ l, limit = Some l →
       (Z.of_nat (length (records ++ new)) ≤ Z.max l (Z.of_nat (length records) + 1))%Z) ∧
    (limit = None →
     row_data <$> new
     = List.filter (λ r, negb (String.eqb (text_of_row text_columns r) "")) rows) ∧
    ∀ i r, new !! i = Some r →
      text_of_row text_columns (row_data r) ≠ "" ∧
      text r = truncated max_chars (text_of_row text_columns (row_data r)) ∧
      id_value r = id_at (length records + i) (str_get (row_data r) id_column).
Proof.
  revert records. induction rows as [|r rest IH]; intros records.
  { exists []. simpl. rewrite app_nil_r. split_and!; try done. intros; lia. }
  cbn [read_rows].
  destruct (String.eqb_spec (text_of_row text_columns r) "") as [Hblank|Htext].
  { destruct (IH records) as (new & -> & Hlen & Hsub & Hlim & Hall & Hnew).
    exists new. split_and!; try done.
    - simpl. lia.
    - by apply sublist_cons.
    - intros Hl. simpl. rewrite Hblank. simpl. by apply Hall. }
  set (rec := {| id_value := _ |}).
  assert (row_data rec = r) as Hrow by done.
  assert (text_of_row text_columns (row_data rec) ≠ "" ∧
          text rec = truncated max_chars (text_of_row text_columns (row_data rec)) ∧
          id_value rec = id_at (length records + 0)
                           (str_get (row_data rec) id_column)) as Hrec.
  { split_and!; [done|done|]. unfold rec, id_at. cbn [id_value row_data].
    by rewrite Nat.add_0_r. }
  clearbody rec.
  destruct limit as [l|].
  - destruct (Z.leb_spec l (Z.of_nat (length (records ++ [rec])))) as [Hstop|Hgo].
    + exists [rec]. split_and!; try done.
      * simpl. lia.
      * simpl. rewrite Hrow. apply sublist_skip, sublist_nil_l.
      * intros l' [= <-]. rewrite length_app in *. simpl in *. lia.
      * intros [|i] r0; [|done]. by intros [= <-].
    + destruct (IH (records ++ [rec])) as (new & -> & Hlen & Hsub & Hlim & _ & Hnew).
      exists (rec :: new). rewrite <- app_assoc. split_and!; try done.
      * simpl. lia.
      * simpl. rewrite Hrow. by apply sublist_skip.
      * intros l' [= <-]. specialize (Hlim l eq_refl).
        rewrite <- app_assoc in Hlim. simpl in Hlim.
        rewrite !length_app in *. simpl in *. lia.
      * intros [|i] r0; simpl.
        { by intros [= <-]. }
        intros Hi. destruct (Hnew i r0 Hi) as (? & ? & Hid). split_and!; try done.
        rewrite Hid, length_app. simpl. f_equal. lia.
  - destruct (IH (records ++ [rec])) as (new & -> & Hlen & Hsub & _ & Hall & Hnew).
    exists (rec :: new). rewrite <- app_assoc. split_and!; try done.
    + simpl. lia.
    + simpl. rewrite Hrow. by apply sublist_skip.
    + intros _. cbn [fmap list_fmap List.filter]. rewrite Hrow.
      destruct (String.eqb_spec (text_of_row text_columns r) ""); [done|].
      simpl. f_equal. by apply Hall.
    + intros [|i] r0; simpl.
      { by intros [= <-]. }
      intros Hi. destruct (Hnew i r0 Hi) as (? & ? & Hid). split_and!; try done.
      rewrite Hid, length_app. simpl. f_equal. lia.
Qed.

End ReadFacts.

Section ReadClaims.
Import py text sync_runner sync_input more.
Context `{RT : Runtime}.

Lemma auto_detect_column_elem (columns candidates keywords : list string) (c : string) :
  _auto_detect_column columns candidates keywords = Some c → c ∈ columns.
Proof.
  unfold _auto_detect_column.
  destruct (List.find _ candidates) as [c0|] eqn:Hfind.
  - intros [= <-]. destruct (find_first _ _ _ Hfind) as (i & _ & Hin & _).
    by apply bool_decide_eq_true in Hin.
  - intros Hc. apply fmap_Some in Hc as ([k v] & Hf & ->).
    destruct (find_first _ _ _ Hf) as (i & Hi & _ & _).
    by apply list_elem_of_lookup_2, lower_map_elem in Hi as [Hv _].
Qed.

Lemma filter_nil_elem {A : Type} (f : A → bool) (l : list A) :
  List.filter f l = [] → ∀ x, x ∈ l → f x = false.
Proof.
  induction l as [|a l IH]; [by intros _ ? ?%elem_of_nil|].
  simpl. destruct (f a) eqn:Hfa; [done|].
  intros H x [->|Hx]%elem_of_cons; [done|by apply IH].
Qed.

Lemma text_columns_of_columns (columns : list string) (config : config_env.AppConfig)
    (text_col text_cols : option string) (text_columns : list string) :
  text_columns_of columns config text_col text_cols = inr text_columns →
  Forall (λ c, c ∈ columns) text_columns.
Proof.
  unfold text_columns_of. destruct (given text_cols).
  - destruct (List.filter _ _) eqn:Hmissing; [|done]. intros [= <-].
    apply Forall_forall. intros c Hc.
    pose proof (filter_nil_elem _ _ Hmissing c Hc) as Hin. simpl in Hin.
    apply negb_false_iff in Hin. by apply bool_decide_eq_true in Hin.
  - destruct (given text_col).
    + destruct (bool_decide _) eqn:Hin; [|done]. intros [= <-].
      apply Forall_singleton. by apply bool_decide_eq_true in Hin.
    + destruct (_auto_detect_column _ _ _) as [detected|] eqn:Hd; [|done].
      destruct (String.eqb detected ""); [done|]. intros [= <-].
      apply Forall_singleton. by eapply auto_detect_column_elem.
Qed.

(** X14. What the records read from a sheet look like. The records are
    taken from the rows in order, a row being skipped exactly when its text
    columns are blank (all of them kept when no limit is set, and never more
    than the limit, or one when the limit is below one); the text columns
    used are columns of the header; a record's id is the stripped text of
    the cell of the id column, which for a line too short to have that cell
    is the text [None], or [row_N] for the N-th record kept when that text
    is blank or the row has no such column, and is never empty; its text is
    the merged text of its row cut to [max_chars] characters, so it is never
    longer than a limit that is not negative and never empty under a limit
    of at least one. *)
Theorem read_csv_records_invariants (fieldnames : option (list string))
    (rows : list row) (config : config_env.AppConfig)
    (text_col text_cols id_col : option string) (limit : option Z)
    (records : list Record_) :
  read_csv_records fieldnames rows config text_col text_cols id_col limit = inr records →
  ∃ columns text_columns id_column,
    fieldnames = Some columns ∧
    Forall (λ c, c ∈ columns) text_columns ∧
    row_data <$> records `sublist_of` rows ∧
    (limit = None →
     row_data <$> records
     = List.filter (λ r, negb (String.eqb (text_of_row text_columns r) "")) rows) ∧
    (∀ l, limit = Some l → (Z.of_nat (length records) ≤ Z.max l 1)%Z) ∧
    ∀ i r, records !! i = Some r →
      text_of_row text_columns (row_data r) ≠ "" ∧
      id_value r = id_at i (str_get (row_data r) id_column) ∧
      (row_data r !! id_column = Some None → id_value r = "None") ∧
      (row_data r !! id_column = None → id_value r = "row_" +:+ pretty (i + 1)%nat) ∧
      id_value r ≠ "" ∧
      text r = truncated (config_env.max_chars (config_env.csv config))
                 (text_of_row text_columns (row_data r)) ∧
      ((0 ≤ config_env.max_chars (config_env.csv config))%Z →
       (Z.of_nat (len (text r)) ≤ config_env.max_chars (config_env.csv config))%Z) ∧
      ((1 ≤ config_env.max_chars (config_env.csv config))%Z → text r ≠ "").
Proof.
  unfold read_csv_records. destruct fieldnames as [columns|]; [|done].
  destruct (text_columns_of columns config text_col text_cols)
    as [|text_columns] eqn:Htc; [done|].
  destruct (id_column_of columns config id_col) as [|id_column]; [done|].
  simpl. intros [= <-].
  destruct (read_rows_adds text_columns id_column
              (config_env.max_chars (config_env.csv config)) limit rows [])
    as (new & -> & Hlen & Hsub & Hlim & Hall & Hnew).
  simpl. exists columns, text_columns, id_column.
  split_and!; try done.
  - by eapply text_columns_of_columns.
  - intros i r Hi. destruct (Hnew i r Hi) as (Hne & Htext & Hid). simpl in Hid.
    split_and!; try done.
    + intros Hcell. rewrite Hid. unfold str_get. unfold row in *. by rewrite Hcell.
    + intros Hcell. rewrite Hid. unfold str_get. unfold row in *. by rewrite Hcell.
    + rewrite Hid. apply id_at_nonempty.
    + intros Hm. rewrite Htext. by apply truncated_len.
    + intros Hm. rewrite Htext. by apply truncated_nonempty.
Qed.


End ReadClaims.

Lemma read_csv_records_invariants_witness :
  ∃ columns text_columns id_column,
    Some more.sheet_header = Some columns ∧
    Forall (λ c, c ∈ columns) text_columns ∧
    sync_runner.row_data <$> more.sheet_records `sublist_of` more.sheet_rows ∧
    (Some 5%Z = None →
     sync_runner.row_data <$> more.sheet_records
     = List.filter (λ r, negb (String.eqb (sync_input.text_of_row text_columns r) ""))
                   more.sheet_rows) ∧
    (∀ l, Some 5%Z = Some l → (Z.of_nat (length more.sheet_records) ≤ Z.max l 1)%Z) ∧
    ∀ i r, more.sheet_records !! i = Some r →
      sync_input.text_of_row text_columns (sync_runner.row_data r) ≠ "" ∧
      sync_runner.id_value r
      = more.id_at i (sync_input.str_get (sync_runner.row_data r) id_column) ∧
      (sync_runner.row_data r !! id_column = Some None → sync_runner.id_value r = "None") ∧
      (sync_runner.row_data r !! id_column = None →
       sync_runner.id_value r = "row_" +:+ pretty (i + 1)%nat) ∧
      sync_runner.id_value r ≠ "" ∧
      sync_runner.text r
      = more.truncated (config_env.max_chars (config_env.csv more.sheet_config))
          (sync_input.text_of_row text_columns (sync_runner.row_data r)) ∧
      ((0 ≤ config_env.max_chars (config_env.csv more.sheet_config))%Z →
       (Z.of_nat (text.len (sync_runner.text r))
        ≤ config_env.max_chars (config_env.csv more.sheet_config))%Z) ∧
      ((1 ≤ config_env.max_chars (config_env.csv more.sheet_config))%Z →
       sync_runner.text r ≠ "").
Proof.
  apply (read_csv_records_invariants (RT := aux.demo_runtime) (Some more.sheet_header)
           more.sheet_rows more.sheet_config None None None (Some 5%Z) more.sheet_records).
  by vm_compute.
Defined.


Lemma read_csv_records_missing_id_column_example :
  ∃ records,
    sync_input.read_csv_records (RT := aux.demo_runtime) (Some more.sheet_header)
      more.sheet_rows more.sheet_config None None (Some "Case") None = inr records ∧
    sync_runner.id_value <$> records = ["row_1"; "row_2"; "row_3"].
Proof. eexists. split; by vm_compute. Qed.

(** With the third column as the id column, the last line of the sheet,
    which is too short for it, is given the id [None]. *)
Lemma read_csv_records_short_line_example :
  ∃ records,
    sync_input.read_csv_records (RT := aux.demo_runtime) (Some more.sheet_header)
      more.sheet_rows more.sheet_config None None (Some "Note") None = inr records ∧
    sync_runner.id_value <$> records = ["a"; "row_2"; "None"].
Proof. eexists. split; by vm_compute. Qed.

(** ** convert_to_finetune.py and the merged text of a row *)

Section MergeFacts.
Import py text more.

Lemma join_ends (sep : string) (parts : list string) :
  Forall (λ p, head_ok p = true ∧ last_ok p = true) parts →
  parts ≠ [] →
  head_ok (join sep parts) = true ∧ last_ok (join sep parts) = true.
Proof.
  induction 1 as [|p rest [Hh Hl] Hrest IH]; [done|]. intros _.
  destruct rest as [|q rest]; [done|].
  destruct IH as [IHh IHl]; [done|].
  change (join sep (p :: q :: rest)) with (p +:+ sep +:+ join sep (q :: rest)).
  split; [by apply head_ok_app|].
  assert (join sep (q :: rest) ≠ "") as Hne by (by apply last_ok_nonempty).
  rewrite last_ok_app.
  - by rewrite last_ok_app.
  - destruct sep; [by rewrite append_nil_l|by rewrite append_cons].
Qed.

Lemma labelled_ends (col value : string) :
  last_ok value = true →
  head_ok ("[" +:+ col +:+ "]" +:+ newline +:+ value) = true ∧
  last_ok ("[" +:+ col +:+ "]" +:+ newline +:+ value) = true.
Proof.
  intros Hl. split; [by rewrite append_cons|].
  assert (value ≠ "") as Hne by (by apply last_ok_nonempty).
  rewrite last_ok_app; [|by destruct col; rewrite ?append_nil_l, ?append_cons].
  rewrite last_ok_app; [|by rewrite append_cons].
  rewrite last_ok_app; [|unfold newline; by rewrite append_cons].
  by rewrite last_ok_app.
Qed.

(** The two ways of reading a cell as a text agree. *)
Lemma get_or_empty_agree (row : sync_input.row) (col : string) :
  convert_to_finetune.get_or_empty row col = sync_input.get_or_empty row col.
Proof.
  unfold convert_to_finetune.get_or_empty, sync_input.get_or_empty.
  unfold sync_input.row in *. by destruct (row !! col) as [[value|]|].
Qed.

Lemma omap_pointwise {A B : Type} (f g : A → option B) (l : list A) :
  (∀ x, f x = g x) → omap f l = omap g l.
Proof.
  intros H. induction l as [|x l IH]; [done|]. cbn [omap list_omap].
  by rewrite H, IH.
Qed.

Lemma parts_ends (cell : string → string) (label : bool) (columns : list string) :
  Forall (λ p, head_ok p = true ∧ last_ok p = true)
    (omap (λ col,
             let value := strip (cell col) in
             if String.eqb value "" then None
             else if label
                  then Some ("[" +:+ col +:+ "]" +:+ newline +:+ value)
                  else Some value)
          columns).
Proof.
  apply Forall_forall. intros p Hp.
  apply list_elem_of_omap in Hp as (col & _ & Hp). simpl in Hp.
  destruct (String.eqb_spec (strip (cell col)) "") as [|Hne]; [done|].
  destruct (strip_ends (cell col)) as [?|[Hh Hl]]; [done|].
  destruct label; injection Hp as <-; [by apply labelled_ends|done].
Qed.

Lemma parts_nil (cell : string → string) (label : bool) (columns : list string) :
  omap (λ col,
          let value := strip (cell col) in
          if String.eqb value "" then None
          else if label
               then Some ("[" +:+ col +:+ "]" +:+ newline +:+ value)
               else Some value)
       columns = [] ↔
  ∀ col, col ∈ columns → strip (cell col) = "".
Proof.
  induction columns as [|c cols IH]; [by split; [intros _ ? ?%elem_of_nil|]|].
  cbn [omap list_omap].
  destruct (String.eqb_spec (strip (cell c)) "") as [Hc|Hc].
  - rewrite IH. split.
    + intros H col [->|Hin]%elem_of_cons; [done|by apply H].
    + intros H col Hin. apply H. by right.
  - split; [by destruct label|]. intros H. destruct Hc. apply H. by left.
Qed.

(** X16. The merged text of a row. [merge_columns] with labels is the text
    [read_csv_records] builds for the row, so both tools feed the model the
    same words. The merged text is empty exactly when every listed cell is
    blank, and it never has white space on either side: a test for a blank
    merged text is a test for an empty one. A single column is merged to its
    stripped cell, without a label. *)
Theorem merge_columns_text (row : sync_input.row) (columns : list string)
    (add_label : bool) :
  convert_to_finetune.merge_columns row columns true
  = sync_input.text_of_row columns row ∧
  (convert_to_finetune.merge_columns row columns add_label = "" ↔
   ∀ col, col ∈ columns → strip (convert_to_finetune.get_or_empty row col) = "") ∧
  strip (convert_to_finetune.merge_columns row columns add_label)
  = convert_to_finetune.merge_columns row columns add_label ∧
  (∀ col, convert_to_finetune.merge_columns row [col] add_label
          = strip (convert_to_finetune.get_or_empty row col)).
Proof.
  split_and!.
  - unfold convert_to_finetune.merge_columns, sync_input.text_of_row.
    rewrite andb_true_r. destruct columns as [|c cols]; [done|].
    rewrite (omap_pointwise _
               (λ col,
                  let value := strip (sync_input.get_or_empty row col) in
                  if String.eqb value "" then None
                  else if (1 <? length (c :: cols))%nat
                       then Some ("[" +:+ col +:+ "]" +:+ newline +:+ value)
                       else Some value) (c :: cols)).
    + by destruct (omap _ (c :: cols)).
    + intros col. cbn zeta. by rewrite get_or_empty_agree.
  - unfold convert_to_finetune.merge_columns.
    destruct columns as [|c cols]; [by split; [intros _ ? ?%elem_of_nil|]|].
    rewrite <- (parts_nil (convert_to_finetune.get_or_empty row)
                  ((1 <? length (c :: cols))%nat && add_label) (c :: cols)).
    pose proof (parts_ends (convert_to_finetune.get_or_empty row)
                  ((1 <? length (c :: cols))%nat && add_label) (c :: cols))
      as Hends.
    destruct (omap _ (c :: cols)) as [|p ps] eqn:Hparts; [done|].
    split; [|done]. intros Hjoin.
    destruct (join_ends (newline +:+ newline) (p :: ps) Hends) as [Hh _]; [done|].
    rewrite Hjoin in Hh. done.
  - unfold convert_to_finetune.merge_columns.
    destruct columns as [|c cols]; [done|].
    pose proof (parts_ends (convert_to_finetune.get_or_empty row)
                  ((1 <? length (c :: cols))%nat && add_label) (c :: cols))
      as Hends.
    destruct (omap _ (c :: cols)) as [|p ps] eqn:Hparts; [done|].
    destruct (join_ends (newline +:+ newline) (p :: ps) Hends) as [Hh Hl]; [done|].
    by apply strip_fixed.
  - intros col. unfold convert_to_finetune.merge_columns.
    cbn [omap list_omap length Nat.ltb Nat.leb andb].
    by destruct (String.eqb_spec (strip (convert_to_finetune.get_or_empty row col)) "")
      as [->|].
Qed.

End MergeFacts.

Section ConvertFacts.
Import py text more convert_to_finetune.
Context `{RT : Runtime}.

Lemma merge_columns_trimmed (row : sync_input.row) (columns : list string)
    (label : bool) :
  strip (merge_columns row columns label) = merge_columns row columns label.
Proof.
  unfold merge_columns. destruct columns as [|c cols]; [done|].
  pose proof (parts_ends (get_or_empty row)
                ((1 <? length (c :: cols))%nat && label) (c :: cols))
    as Hends.
  destruct (omap _ (c :: cols)) as [|p ps] eqn:Hparts; [done|].
  destruct (join_ends (newline +:+ newline) (p :: ps) Hends) as [Hh Hl]; [done|].
  by apply strip_fixed.
Qed.

(** X17. The lines of a fine-tuning file. Every line written starts with the
    system message, followed by a user message that is never blank and,
    only when assistant columns are given and not all blank in the row, an
    assistant message that is never blank. There is at most one line per
    row, the user columns are columns of the header, and no line at all is
    written when no user column is given. *)
Theorem convert_csv_to_jsonl_lines (fieldnames : option (list string))
    (rows : list sync_input.row) (system_content : string)
    (user_columns : list string) (assistant_columns : option (list string))
    (lines : list (list message)) :
  convert_csv_to_jsonl fieldnames rows system_content user_columns assistant_columns
  = inr lines →
  (∃ columns, fieldnames = Some columns ∧ Forall (λ c, c ∈ columns) user_columns) ∧
  (length lines ≤ length rows)%nat ∧
  (user_columns = [] → lines = []) ∧
  Forall (λ messages,
            ∃ row user, row ∈ rows ∧
              user = merge_columns row user_columns true ∧ user ≠ "" ∧ strip user = user ∧
              (messages = [("system", system_content); ("user", user)] ∨
               ∃ cs assistant,
                 assistant_columns = Some cs ∧
                 assistant = merge_columns row cs false ∧
                 assistant ≠ "" ∧ strip assistant = assistant ∧
                 messages = [("system", system_content); ("user", user);
                             ("assistant", assistant)]))
         lines.
Proof.
  intros H.
  assert (∃ columns, fieldnames = Some columns ∧ absent columns user_columns = [] ∧
            lines = omap (convert_row system_content user_columns assistant_columns) rows)
    as (columns & -> & Habsent & ->).
  { unfold convert_csv_to_jsonl in H. destruct fieldnames as [columns|]; [|done].
    exists columns. destruct (absent columns user_columns) eqn:Ha; [|done].
    split; [done|]. split; [done|].
    destruct assistant_columns as [[|c cs]|]; try by injection H.
    destruct (absent columns (c :: cs)); [by injection H|done]. }
  split_and!.
  - exists columns. split; [done|]. apply Forall_forall. intros c Hc.
    pose proof (filter_nil_elem _ _ Habsent c Hc) as Hin. simpl in Hin.
    apply negb_false_iff in Hin. by apply bool_decide_eq_true in Hin.
  - clear H. induction rows as [|r rest IH]; [done|]. cbn [omap list_omap].
    destruct (convert_row _ _ _ r); simpl; lia.
  - clear H. intros ->. induction rows as [|r rest IH]; [done|]. exact IH.
  - apply Forall_forall. intros messages Hm.
    apply list_elem_of_omap in Hm as (row & Hrow & Hm).
    exists row, (merge_columns row user_columns true).
    unfold convert_row in Hm. rewrite merge_columns_trimmed in Hm.
    destruct (String.eqb_spec (merge_columns row user_columns true) "") as [|Hu]; [done|].
    split_and!; try done; [apply merge_columns_trimmed|].
    destruct assistant_columns as [[|c cs]|]; try (left; by injection Hm).
    rewrite merge_columns_trimmed in Hm.
    destruct (String.eqb_spec (merge_columns row (c :: cs) false) "") as [|Ha];
      [left; by injection Hm|].
    right. exists (c :: cs), (merge_columns row (c :: cs) false).
    split_and!; try done; [apply merge_columns_trimmed|by injection Hm].
Qed.

End ConvertFacts.

Lemma convert_csv_to_jsonl_lines_witness :
  (∃ columns, Some more.sheet_header = Some columns ∧
              Forall (λ c, c ∈ columns) ["检查所见"; "Note"]) ∧
  (length [[("system", "s"); ("user", "[检查所见]" +:+ text.newline +:+ "left kidney"
                                       +:+ text.newline +:+ text.newline
                                       +:+ "[Note]" +:+ text.newline +:+ "a");
            ("assistant", "7")];
           [("system", "s"); ("user", "[Note]" +:+ text.newline +:+ "b");
            ("assistant", "8")];
           [("system", "s"); ("user", "[检查所见]" +:+ text.newline +:+ "right kidney")];
           [("system", "s"); ("user", "[检查所见]" +:+ text.newline +:+ "cyst");
            ("assistant", "9")]]
   ≤ length more.sheet_rows)%nat ∧
  (["检查所见"; "Note"] = [] →
   [[("system", "s"); ("user", "[检查所见]" +:+ text.newline +:+ "left kidney"
                               +:+ text.newline +:+ text.newline
                               +:+ "[Note]" +:+ text.newline +:+ "a");
     ("assistant", "7")];
    [("system", "s"); ("user", "[Note]" +:+ text.newline +:+ "b"); ("assistant", "8")];
    [("system", "s"); ("user", "[检查所见]" +:+ text.newline +:+ "right kidney")];
    [("system", "s"); ("user", "[检查所见]" +:+ text.newline +:+ "cyst");
     ("assistant", "9")]] = []) ∧
  Forall (λ messages,
            ∃ row user, row ∈ more.sheet_rows ∧
              user = convert_to_finetune.merge_columns row ["检查所见"; "Note"] true ∧
              user ≠ "" ∧ py.strip user = user ∧
              (messages = [("system", "s"); ("user", user)] ∨
               ∃ cs assistant,
                 Some ["No"] = Some cs ∧
                 assistant = convert_to_finetune.merge_columns row cs false ∧
                 assistant ≠ "" ∧ py.strip assistant = assistant ∧
                 messages = [("system", "s"); ("user", user); ("assistant", assistant)]))
    [[("system", "s"); ("user", "[检查所见]" +:+ text.newline +:+ "left kidney"
                                +:+ text.newline +:+ text.newline
                                +:+ "[Note]" +:+ text.newline +:+ "a");
      ("assistant", "7")];
     [("system", "s"); ("user", "[Note]" +:+ text.newline +:+ "b"); ("assistant", "8")];
     [("system", "s"); ("user", "[检查所见]" +:+ text.newline +:+ "right kidney")];
     [("system", "s"); ("user", "[检查所见]" +:+ text.newline +:+ "cyst");
      ("assistant", "9")]].
Proof.
  apply (convert_csv_to_jsonl_lines (RT := aux.demo_runtime) (Some more.sheet_header)
           more.sheet_rows "s" ["检查所见"; "Note"] (Some ["No"])).
  by vm_compute.
Defined.

(** ** config.py: the settings and the key *)

Section ConfigFacts.
Import py config_env more.
Context `{CV : Conversions}.

Lemma from_env_fields (env : environ) (provider : option string) (c : AppConfig) :
  from_env env provider = inr c →
  (base_url c, model c, api_key c)
  = match match provider with
          | Some p => if String.eqb p "" then None else lookup_provider p API_PROVIDERS
          | None => None
          end with
    | Some preset =>
        (provider_base_url preset, default_model preset,
         getenv env (api_key_env preset) "")
    | None =>
        (getenv env "API_BASE_URL" (getenv env "SILICONFLOW_BASE_URL" DEFAULT_BASE_URL),
         getenv env "API_MODEL" (getenv env "SILICONFLOW_MODEL" DEFAULT_MODEL),
         getenv env "API_KEY" (getenv env "SILICONFLOW_API_KEY" ""))
    end.
Proof.
  unfold from_env.
  destruct (match match provider with
                  | Some p => _
                  | None => None
                  end with
            | Some preset => _
            | None => _
            end) as [[url mdl] key] eqn:Hsel.
  destruct (float_env env "RCC_TEMPERATURE" _) as [|temperature]; [done|].
  destruct (int_env env "RCC_RPM" _) as [|rpm]; [done|].
  destruct (int_env env "RCC_CONCURRENCY" _) as [|concurrency]; [done|].
  destruct (float_env env "RCC_TIMEOUT" _) as [|timeout]; [done|].
  destruct (int_env env "RCC_MAX_RETRIES" _) as [|max_retries]; [done|].
  destruct (float_env env "RCC_RETRY_BACKOFF" _) as [|retry_backoff]; [done|].
  destruct (int_env env "RCC_MAX_CHARS" _) as [|chars]; [done|].
  simpl. intros [= <-]. simpl. rewrite <- Hsel.
  by destruct provider as [p|]; [destruct (String.eqb p "")|].
Qed.

Lemma lookup_provider_name (p : string) (preset : ProviderConfig) :
  lookup_provider p API_PROVIDERS = Some preset →
  p ≠ "" ∧
  fst <$> List.find (λ q, String.eqb (provider_base_url preset) (snd q)) config.API_PROVIDERS
  = Some p.
Proof.
  unfold API_PROVIDERS. cbn [lookup_provider].
  destruct (String.eqb_spec p "siliconflow") as [->|?]; [intros [= <-]; by vm_compute|].
  destruct (String.eqb_spec p "aliyun") as [->|?]; [intros [= <-]; by vm_compute|].
  destruct (String.eqb_spec p "openai") as [->|?]; [intros [= <-]; by vm_compute|].
  destruct (String.eqb_spec p "deepseek") as [->|?]; [intros [= <-]; by vm_compute|].
  destruct (String.eqb_spec p "qianduoduo") as [->|?]; [intros [= <-]; by vm_compute|].
  done.
Qed.

Lemma env_conversion_fails (env : environ) (e : exn) :
  (∀ name dflt, int_env env name dflt = inl e →
     ∃ s, env !! name = Some s ∧ int_of_str s = inl e) ∧
  (∀ name dflt, float_env env name dflt = inl e →
     ∃ s, env !! name = Some s ∧ float_of_str s = inl e).
Proof.
  split; intros name dflt; unfold int_env, float_env;
    destruct (env !! name) as [s|]; try done; intros H; by exists s.
Qed.

(** X18. The provider a configuration is read for is the provider it
    reports. For each of the preset providers, [from_env] gives a
    configuration that [get_provider] recognises as that provider, with the
    preset's model and the key of the preset's own variable, whatever the
    address variables of the environment say. Without a preset and without
    an address variable the provider is [siliconflow]. The call raises only
    when one of the seven numeric variables is set to a text that the
    conversion rejects, and then with the exception of that conversion. *)
Theorem from_env_provider (env : environ) (provider : option string) :
  (∀ c p preset,
     from_env env provider = inr c →
     provider = Some p → lookup_provider p API_PROVIDERS = Some preset →
     get_provider c = Some p ∧ model c = default_model preset ∧
     api_key c = getenv env (api_key_env preset) "") ∧
  (∀ c, from_env env provider = inr c →
     (provider = None ∨ provider = Some "custom") →
     env !! "API_BASE_URL" = None → env !! "SILICONFLOW_BASE_URL" = None →
     get_provider c = Some "siliconflow") ∧
  (∀ e, from_env env provider = inl e →
     ∃ name s, name ∈ NUMERIC_VARIABLES ∧ env !! name = Some s ∧
               (int_of_str s = inl e ∨ float_of_str s = inl e)).
Proof.
  split_and!.
  - intros c p preset Hc -> Hp.
    destruct (lookup_provider_name p preset Hp) as [Hne Hfind].
    pose proof (from_env_fields env (Some p) c Hc) as Hf.
    apply String.eqb_neq in Hne. cbn beta iota in Hf. rewrite Hne, Hp in Hf.
    injection Hf as Hu Hm Hk.
    split_and!; [|done|done].
    unfold get_provider, config.get_provider, runner_config. cbn [sync_runner.base_url].
    by rewrite Hu.
  - intros c Hc Hp Hurl Hsf.
    pose proof (from_env_fields env provider c Hc) as Hf.
    assert (match provider with
            | Some p => if String.eqb p "" then None else lookup_provider p API_PROVIDERS
            | None => None
            end = None) as Hnone by (by destruct Hp as [-> | ->]).
    rewrite Hnone in Hf. injection Hf as Hu _ _.
    unfold get_provider, config.get_provider, runner_config. cbn [sync_runner.base_url].
    rewrite Hu. unfold getenv. by rewrite Hurl, Hsf.
  - intros e. unfold from_env.
    destruct (match match provider with
                    | Some p => _
                    | None => None
                    end with
              | Some preset => _
              | None => _
              end) as [[url mdl] key].
    destruct (env_conversion_fails env e) as [Hint Hfloat].
    assert (∀ name, name ∈ NUMERIC_VARIABLES →
              (∀ dflt, int_env env name dflt = inl e →
                 ∃ name s, name ∈ NUMERIC_VARIABLES ∧ env !! name = Some s ∧
                           (int_of_str s = inl e ∨ float_of_str s = inl e)) ∧
              (∀ dflt, float_env env name dflt = inl e →
                 ∃ name s, name ∈ NUMERIC_VARIABLES ∧ env !! name = Some s ∧
                           (int_of_str s = inl e ∨ float_of_str s = inl e))) as Hfail.
    { intros name Hname. split; intros dflt H.
      - destruct (Hint _ _ H) as (s & Hs & Hi). exists name, s. by split_and!; [| |left].
      - destruct (Hfloat _ _ H) as (s & Hs & Hi). exists name, s. by split_and!; [| |right]. }
    destruct (float_env env "RCC_TEMPERATURE" _) as [e1|temperature] eqn:H1.
    { intros [= <-]. eapply (proj2 (Hfail "RCC_TEMPERATURE" _)), H1. }
    destruct (int_env env "RCC_RPM" _) as [e2|rpm] eqn:H2.
    { intros [= <-]. eapply (proj1 (Hfail "RCC_RPM" _)), H2. }
    destruct (int_env env "RCC_CONCURRENCY" _) as [e3|concurrency] eqn:H3.
    { intros [= <-]. eapply (proj1 (Hfail "RCC_CONCURRENCY" _)), H3. }
    destruct (float_env env "RCC_TIMEOUT" _) as [e4|timeout] eqn:H4.
    { intros [= <-]. eapply (proj2 (Hfail "RCC_TIMEOUT" _)), H4. }
    destruct (int_env env "RCC_MAX_RETRIES" _) as [e5|max_retries] eqn:H5.
    { intros [= <-]. eapply (proj1 (Hfail "RCC_MAX_RETRIES" _)), H5. }
    destruct (float_env env "RCC_RETRY_BACKOFF" _) as [e6|retry_backoff] eqn:H6.
    { intros [= <-]. eapply (proj2 (Hfail "RCC_RETRY_BACKOFF" _)), H6. }
    destruct (int_env env "RCC_MAX_CHARS" _) as [e7|chars] eqn:H7.
    { intros [= <-]. eapply (proj1 (Hfail "RCC_MAX_CHARS" _)), H7. }
    done.
    Unshelve. all: apply (bool_decide_unpack _); by vm_compute.
Qed.

Lemma first_set_sound (env : environ) (names : list string) (k : string) :
  first_set env names = Some k →
  k ≠ "" ∧ ∃ name, name ∈ names ∧ env !! name = Some k.
Proof.
  induction names as [|name rest IH]; [done|]. simpl.
  destruct (env !! name) as [s|] eqn:Hs.
  - destruct (String.eqb_spec s "") as [->|Hne].
    + intros H. destruct (IH H) as (? & n & ? & ?). split; [done|]. exists n.
      split; [by right|done].
    + intros [= <-]. split; [done|]. exists name. split; [by left|done].
  - intros H. destruct (IH H) as (? & n & ? & ?). split; [done|]. exists n.
    split; [by right|done].
Qed.

Lemma first_set_none (env : environ) (names : list string) :
  first_set env names = None ↔
  ∀ name, name ∈ names → env !! name = None ∨ env !! name = Some "".
Proof.
  induction names as [|name rest IH]; simpl.
  { split; [by intros _ ? ?%elem_of_nil|done]. }
  destruct (env !! name) as [s|] eqn:Hs.
  - destruct (String.eqb_spec s "") as [->|Hne].
    + rewrite IH. split.
      * intros H n [->|Hn]%elem_of_cons; [by right|by apply H].
      * intros H n Hn. apply H. by right.
    + split; [done|]. intros H. destruct (H name) as [Hn|Hn]; [by left| |]; congruence.
  - rewrite IH. split.
    + intros H n [->|Hn]%elem_of_cons; [by left|by apply H].
    + intros H n Hn. apply H. by right.
Qed.

(** X19. The key [ensure_api_key] hands out is never empty. A key in the
    configuration wins over the environment; without one, the key is the
    value of one of the six key variables; and the call raises, always the
    same RuntimeError, exactly when the configuration has no key and each of
    the six variables is unset or empty. *)
Theorem ensure_api_key_sources (env : environ) (config : option AppConfig) :
  (∀ k, ensure_api_key env config = inr k →
     k ≠ "" ∧
     ((∃ c, config = Some c ∧ api_key c = k) ∨
      ∃ name, name ∈ KEY_VARIABLES ∧ env !! name = Some k)) ∧
  (∀ c, config = Some c → api_key c ≠ "" → ensure_api_key env config = inr (api_key c)) ∧
  (∀ e, ensure_api_key env config = inl e →
     e = no_api_key ∧
     (∀ c, config = Some c → api_key c = "") ∧
     ∀ name, name ∈ KEY_VARIABLES → env !! name = None ∨ env !! name = Some "") ∧
  ((∀ c, config = Some c → api_key c = "") →
   (∀ name, name ∈ KEY_VARIABLES → env !! name = None ∨ env !! name = Some "") →
   ensure_api_key env config = inl no_api_key).
Proof.
  assert (∀ k, key_from_environment env = inr k →
            k ≠ "" ∧ ∃ name, name ∈ KEY_VARIABLES ∧ env !! name = Some k) as Hok.
  { intros k. unfold key_from_environment.
    destruct (first_set env KEY_VARIABLES) eqn:Hf; [|done].
    intros [= <-]. by apply first_set_sound. }
  assert (∀ e, key_from_environment env = inl e →
            e = no_api_key ∧
            ∀ name, name ∈ KEY_VARIABLES → env !! name = None ∨ env !! name = Some "")
    as Hfail.
  { intros e. unfold key_from_environment.
    destruct (first_set env KEY_VARIABLES) eqn:Hf; [done|].
    intros [= <-]. split; [done|]. by apply first_set_none. }
  split_and!.
  - intros k. unfold ensure_api_key. destruct config as [c|].
    + destruct (String.eqb_spec (api_key c) "") as [He|Hne]; simpl.
      * intros H. destruct (Hok k H). split; [done|]. by right.
      * intros [= <-]. split; [done|]. left. by exists c.
    + intros H. destruct (Hok k H). split; [done|]. by right.
  - intros c -> Hne. unfold ensure_api_key.
    by destruct (String.eqb_spec (api_key c) "").
  - intros e. unfold ensure_api_key. destruct config as [c|].
    + destruct (String.eqb_spec (api_key c) "") as [He|Hne]; simpl; [|done].
      intros H. destruct (Hfail e H). split_and!; try done. by intros c' [= <-].
    + intros H. destruct (Hfail e H). by split_and!.
  - intros Hc Henv.
    assert (key_from_environment env = inl no_api_key) as Hk.
    { unfold key_from_environment. by rewrite (proj2 (first_set_none _ _) Henv). }
    unfold ensure_api_key. destruct config as [c|]; [|done].
    by rewrite (Hc c eq_refl).
Qed.

End ConfigFacts.

Lemma from_env_provider_witness :
  config_env.get_provider more.deepseek_settings = Some "deepseek" ∧
  config_env.model more.deepseek_settings = "deepseek-chat" ∧
  config_env.api_key more.deepseek_settings
  = config_env.getenv more.demo_environ "DEEPSEEK_API_KEY" "".
Proof.
  apply (proj1 (from_env_provider (CV := more.demo_conversions) more.demo_environ
                  (Some "deepseek"))
           more.deepseek_settings "deepseek"
           {| config_env.provider_base_url := "https://api.deepseek.com/v1";
              config_env.default_model := "deepseek-chat";
              config_env.api_key_env := "DEEPSEEK_API_KEY" |}); by vm_compute.
Defined.

Lemma ensure_api_key_sources_witness :
  "sk-demo" ≠ "" ∧
  ((∃ c, Some more.deepseek_settings = Some c ∧ config_env.api_key c = "sk-demo") ∨
   ∃ name, name ∈ config_env.KEY_VARIABLES ∧ more.demo_environ !! name = Some "sk-demo").
Proof.
  apply (proj1 (ensure_api_key_sources more.demo_environ (Some more.deepseek_settings))).
  by vm_compute.
Defined.

Lemma from_env_provider_example :
  (∃ c, config_env.from_env (CV := more.demo_conversions) more.demo_environ None = inr c ∧
        config_env.get_provider c = None ∧
        sync_runner.rpm (config_env.rate_limit c) = 12%Z ∧
        config_env.max_chars (config_env.csv c) = 500%Z) ∧
  config_env.from_env (CV := more.demo_conversions)
    (<["RCC_RPM" := "fast"]> more.demo_environ) None
  = inl (py.ValueError "fast").
Proof. split; [eexists; split_and!; by vm_compute|by vm_compute]. Qed.

(** ** cli.py: the overrides and the summary *)

Section CliFacts.
Import py sync_runner more.

Lemma or_text_or_text (o : option string) (d : string) :
  cli.or_text o (cli.or_text o d) = cli.or_text o d.
Proof. destruct o as [s|]; [|done]. simpl. by destruct (String.eqb s ""). Qed.

Lemma default_default {A : Type} (o : option A) (d : A) :
  default (default d o) o = default d o.
Proof. by destruct o. Qed.

(** X20. Applying the options of the command line twice is the same as
    applying them once, and a command line without options leaves the
    configuration as it is. An address given on the command line decides the
    provider the configuration reports, whatever provider it was read for;
    without one the provider is unchanged. *)
Theorem apply_overrides_idempotent (config : config_env.AppConfig) (args : cli.Namespace) :
  cli.apply_overrides (cli.apply_overrides config args) args
  = cli.apply_overrides config args ∧
  cli.apply_overrides config no_options = config ∧
  (∀ u, cli.api_url args = Some u → u ≠ "" →
     config_env.get_provider (cli.apply_overrides config args)
     = fst <$> List.find (λ p, String.eqb u (snd p)) config.API_PROVIDERS) ∧
  ((cli.api_url args = None ∨ cli.api_url args = Some "") →
   config_env.get_provider (cli.apply_overrides config args)
   = config_env.get_provider config).
Proof.
  split_and!.
  - unfold cli.apply_overrides. cbn.
    by rewrite !or_text_or_text, !default_default.
  - by destruct config as [? ? ? ? ? ? [] []].
  - intros u Hu Hne. unfold config_env.get_provider, config.get_provider. cbn.
    rewrite Hu. cbn. apply String.eqb_neq in Hne. by rewrite Hne.
  - intros Hu. unfold config_env.get_provider, config.get_provider. cbn.
    by destruct Hu as [-> | ->].
Qed.

Lemma filter_split {A : Type} (f g : A → bool) (l : list A) :
  (∀ x, g x = negb (f x)) →
  (length (List.filter f l) + length (List.filter g l))%nat = length l.
Proof.
  intros Hfg. induction l as [|a l IH]; [done|]. simpl. rewrite Hfg.
  destruct (f a); simpl; lia.
Qed.

Lemma is_error_success (o : outcome) : cli.is_error o = negb (cli.is_success o).
Proof.
  destruct o as [[r e] err]. unfold cli.is_error, cli.is_success.
  destruct e, (truthy _); done.
Qed.

Lemma settled_success (o : outcome) : settled o → cli.is_success o = extracted o.
Proof. by destruct o as [[r [e|]] [err|]]. Qed.

(** X21. The figures of the summary add up. The number of successes and the
    number of failures printed make the total, every outcome that is not a
    success is an error entry, and at most twenty entries are listed. On
    outcomes that hold either an extraction or an error text, as those of
    both paths do, the successes are the outcomes with an extraction and
    every entry listed carries its error text, an empty one included. *)
Theorem summarise_counts (results : list outcome) :
  let s := cli.summarise results in
  cli.total s = length results ∧
  (Z.of_nat (cli.succeeded s) + cli.failed s = Z.of_nat (cli.total s))%Z ∧
  cli.failed s = Z.of_nat (length (List.filter cli.is_error results)) ∧
  length (cli.errors s) = Nat.min 20 (length (List.filter cli.is_error results)) ∧
  (Forall settled results →
   cli.succeeded s = length (List.filter extracted results) ∧
   Forall (λ entry, is_Some entry.2) (cli.errors s)).
Proof.
  intros s. unfold s, cli.summarise. cbn [cli.total cli.succeeded cli.failed cli.errors].
  pose proof (filter_split cli.is_success cli.is_error results is_error_success) as Hsplit.
  split_and!; [done|lia|lia| |].
  - by rewrite length_take, length_fmap.
  - intros Hs. split.
    + clear Hsplit. induction Hs as [|o rest Ho Hrest IH]; [done|]. simpl.
      rewrite (settled_success o Ho). destruct (extracted o); simpl; by rewrite IH.
    + apply Forall_take, Forall_fmap, Forall_forall. intros o Ho.
      apply list_elem_of_In, filter_In in Ho as [Hin Herr].
      apply list_elem_of_In in Hin.
      pose proof (proj1 (Forall_forall _ _) Hs o Hin) as Hset.
      destruct o as [[r [e|]] [err|]]; try done. simpl. by eexists.
Qed.

End CliFacts.

Lemma apply_overrides_idempotent_witness :
  config_env.get_provider (cli.apply_overrides config_env.defaults more.url_options)
  = fst <$> List.find (λ p, String.eqb "https://api.deepseek.com/v1" (snd p))
                      config.API_PROVIDERS.
Proof.
  apply (proj1 (proj2 (proj2 (apply_overrides_idempotent config_env.defaults
                                more.url_options)))); by vm_compute.
Defined.

Lemma apply_overrides_idempotent_example :
  config_env.get_provider
    (cli.apply_overrides config_env.defaults more.url_options) = Some "deepseek" ∧
  config_env.template_id (cli.apply_overrides config_env.defaults more.url_options)
  = "rcc" ∧
  sync_runner.rpm (config_env.rate_limit
                     (cli.apply_overrides config_env.defaults more.url_options)) = 0%Z ∧
  sync_runner.interval
    (sync_runner.RateLimiter_init
       (sync_runner.rpm (config_env.rate_limit
                           (cli.apply_overrides config_env.defaults more.url_options))) 0)
  = 60%Q.
Proof. split_and!; by vm_compute. Qed.

Lemma summarise_counts_witness :
  cli.succeeded
    (cli.summarise [(aux.rec "A" "x", Some more.tidy_result, None);
                    (aux.rec "B" "y", None, Some "");
                    (aux.rec "C" "z", None, Some "boom")])
  = length (List.filter more.extracted
              [(aux.rec "A" "x", Some more.tidy_result, None);
               (aux.rec "B" "y", None, Some "");
               (aux.rec "C" "z", None, Some "boom")]) ∧
  Forall (λ entry, is_Some entry.2)
    (cli.errors
       (cli.summarise [(aux.rec "A" "x", Some more.tidy_result, None);
                       (aux.rec "B" "y", None, Some "");
                       (aux.rec "C" "z", None, Some "boom")])).
Proof.
  apply (summarise_counts [(aux.rec "A" "x", Some more.tidy_result, None);
                           (aux.rec "B" "y", None, Some "");
                           (aux.rec "C" "z", None, Some "boom")]).
  repeat apply Forall_cons_2; [done..|apply Forall_nil_2].
Defined.

(** ** patient_friendly.py *)

Section PatientFacts.
Import py sync_runner more.
Context `{RT : Runtime}.

Lemma patient_retry_loop (op : nat → exn + json) (config : AppConfig) (todo a : nat) :
  snd (patient_friendly.retry_loop op config todo a) = snd (retry_loop op config todo a) ∧
  attempts (fst (patient_friendly.retry_loop op config todo a))
  = attempts (fst (retry_loop op config todo a)) ∧
  length (sleeps (fst (patient_friendly.retry_loop op config todo a)))
  = length (sleeps (fst (retry_loop op config todo a))) ∧
  ((∀ j exc, op j = inl exc → is_429 (str_exn exc) = true →
             _extract_429_retry_delay (str_exn exc) = None) →
   patient_friendly.retry_loop op config todo a = retry_loop op config todo a).
Proof.
  revert a. induction todo as [|todo IH]; intros a; [done|].
  cbn [patient_friendly.retry_loop retry_loop].
  destruct (op a) as [exc|resp] eqn:Hop; [|done].
  destruct (_ <=? _)%Z; [done|].
  destruct (IH (S a)) as (Hres & Hatt & Hsl & Hsame).
  destruct (patient_friendly.retry_loop op config todo (S a)) as [trace result].
  destruct (retry_loop op config todo (S a)) as [trace' result'].
  cbn [fst snd] in *. split_and!.
  - done.
  - by rewrite !attempts_acquire, !attempts_call, !attempts_sleep, Hatt.
  - unfold sleeps in *. cbn [omap list_omap length] in *. by rewrite Hsl.
  - intros Hnone. injection (Hsame Hnone) as -> ->. do 3 f_equal.
    unfold patient_friendly.retry_delay, retry_delay.
    destruct (is_429 (str_exn exc)) eqn:Hq; [|done].
    by rewrite (Hnone a exc Hop Hq).
Qed.

(** X22. The patient-friendly tool retries like the extraction tool. When
    the client answers the attempts alike, under the same configuration both
    wrappers make the same number of attempts, pause as often, and end with
    the same answer or exception;
    they differ only in how long they pause after a quota failure whose
    message suggests a delay, which the patient-friendly wrapper ignores:
    when no quota message suggests a delay the two calls are the same. *)
Theorem patient_friendly_retry_agrees (op : nat → exn + json) (config : AppConfig) :
  snd (patient_friendly._call_with_retry op config) = snd (_call_with_retry op config) ∧
  attempts (fst (patient_friendly._call_with_retry op config))
  = attempts (fst (_call_with_retry op config)) ∧
  length (sleeps (fst (patient_friendly._call_with_retry op config)))
  = length (sleeps (fst (_call_with_retry op config))) ∧
  ((∀ j exc, op j = inl exc → is_429 (str_exn exc) = true →
             _extract_429_retry_delay (str_exn exc) = None) →
   patient_friendly._call_with_retry op config = _call_with_retry op config).
Proof. apply patient_retry_loop. Qed.

Lemma to_dict_row (r : patient_friendly.PatientFriendlyResult) :
  sync_output.writerow patient_friendly.fieldnames (patient_friendly.to_dict r)
  = inr (result_row r).
Proof.
  unfold sync_output.writerow. rewrite bool_decide_true.
  - done.
  - intros k v. unfold patient_friendly.to_dict.
    rewrite !lookup_insert_Some, lookup_singleton_Some.
    intros [[<- _]|[_ [[<- _]|[_ [[<- _]|[_ [<- _]]]]]]];
      apply (bool_decide_unpack _); by vm_compute.
Qed.

Lemma patient_write_all (items : list (Record_ * option patient_friendly.PatientFriendlyResult))
    (out : list patient_friendly.PatientFriendlyResult * list (list json)) :
  Forall (λ item, is_Some item.2) items →
  patient_friendly.write_outputs_from out items
  = inr (out.1 ++ omap snd items, out.2 ++ (result_row <$> omap snd items)).
Proof.
  intros Hall. revert out. induction Hall as [|[record result] rest [r Hr] Hrest IH];
    intros out.
  { simpl. rewrite !app_nil_r. by destruct out. }
  simpl in Hr. subst result. cbn [patient_friendly.write_outputs_from].
  unfold patient_friendly.write_result. rewrite to_dict_row. simpl.
  rewrite IH. simpl. by rewrite <- !app_assoc.
Qed.

(** X23. Every record gets a patient-friendly result, and the fallback row
    of the writer is never used. Each item [process_records] returns holds a
    result for one of the records, with that record's id and text; on
    success the simplified text is stripped and there is no error, on
    failure the simplified text is empty and the error is the text of the
    exception. The CSV writer refuses none of these items, and writing them
    gives one JSON line and one CSV row per item, the row listing id,
    original text, simplified text and error of the item's own result. *)
Theorem patient_friendly_results (records : list Record_)
    (client : nat → nat → exn + json) (config : AppConfig) (completion : list nat)
    (items : list (Record_ * option patient_friendly.PatientFriendlyResult)) :
  patient_friendly.process_records records client config completion = Returns items →
  Forall (λ item,
            item.1 ∈ records ∧
            ∃ r, item.2 = Some r ∧
                 patient_friendly.id_value r = id_value item.1 ∧
                 patient_friendly.original_text r = text item.1 ∧
                 strip (patient_friendly.simplified_text r)
                 = patient_friendly.simplified_text r ∧
                 (is_Some (patient_friendly.error r) →
                  patient_friendly.simplified_text r = ""))
         items ∧
  patient_friendly.write_outputs items
  = inr (omap snd items, result_row <$> omap snd items) ∧
  length (omap snd items) = length items.
Proof.
  unfold patient_friendly.process_records.
  destruct (_ <? _)%Z; [done|]. destruct (_ && _); [done|]. intros [= <-].
  assert (Forall (λ item : Record_ * option patient_friendly.PatientFriendlyResult,
            item.1 ∈ records ∧
            ∃ r, item.2 = Some r ∧
                 patient_friendly.id_value r = id_value item.1 ∧
                 patient_friendly.original_text r = text item.1 ∧
                 strip (patient_friendly.simplified_text r)
                 = patient_friendly.simplified_text r ∧
                 (is_Some (patient_friendly.error r) →
                  patient_friendly.simplified_text r = ""))
            (omap (λ i, patient_friendly.worker config (client i) <$> records !! i)
                  completion)) as Hall.
  { apply Forall_forall. intros item Hitem.
    apply list_elem_of_omap in Hitem as (i & _ & Hi).
    destruct (records !! i) as [record|] eqn:Hrec; [|done]. injection Hi as <-.
    unfold patient_friendly.worker.
    destruct (py.bind _ _) as [exc|simplified] eqn:Hb; cbn [fst snd].
    - split; [by eapply list_elem_of_lookup_2|]. eexists. split; [done|]. by split_and!.
    - split; [by eapply list_elem_of_lookup_2|]. eexists. split; [done|].
      split_and!; try done; [|by intros [? ?]]. cbn.
      destruct (snd _) as [|resp]; [done|]. simpl in Hb.
      destruct (message_content resp) as [|txt]; [done|]. simpl in Hb.
      destruct txt; try done. injection Hb as <-. apply strip_strip. }
  split; [exact Hall|].
  assert (Forall (λ item : Record_ * option patient_friendly.PatientFriendlyResult,
                    is_Some item.2)
            (omap (λ i, patient_friendly.worker config (client i) <$> records !! i)
                  completion)) as Hsome.
  { eapply Forall_impl; [exact Hall|]. intros item (_ & r & -> & _). by eexists. }
  split.
  - unfold patient_friendly.write_outputs. by rewrite patient_write_all.
  - clear Hall. induction Hsome as [|item rest [r Hr] Hrest IH]; [done|].
    cbn [omap list_omap]. rewrite Hr. simpl. by rewrite IH.
Qed.

End PatientFacts.

Lemma patient_friendly_retry_agrees_witness :
  patient_friendly._call_with_retry (RT := aux.demo_runtime) aux.flaky_op aux.demo_config
  = sync_runner._call_with_retry (RT := aux.demo_runtime) aux.flaky_op aux.demo_config.
Proof.
  apply (patient_friendly_retry_agrees (RT := aux.demo_runtime) aux.flaky_op aux.demo_config).
  intros [|[|j]] exc Hop; simpl in Hop; try done; injection Hop as <-; by vm_compute.
Defined.

Lemma patient_friendly_retry_agrees_example :
  sync_runner.sleeps
    (fst (patient_friendly._call_with_retry (RT := aux.demo_runtime)
            aux.quota_op aux.demo_config)) = [10%Q] ∧
  Forall2 Qeq
    (sync_runner.sleeps
       (fst (sync_runner._call_with_retry (RT := aux.demo_runtime)
               aux.quota_op aux.demo_config))) [7%Q].
Proof.
  split; [by vm_compute|].
  constructor; [by vm_compute|constructor].
Qed.

Lemma patient_friendly_results_witness :
  Forall (λ item : sync_runner.Record_ * option patient_friendly.PatientFriendlyResult,
            item.1 ∈ [aux.rec "1" "x"; aux.rec "2" "y"] ∧
            ∃ r, item.2 = Some r ∧
                 patient_friendly.id_value r = sync_runner.id_value item.1 ∧
                 patient_friendly.original_text r = sync_runner.text item.1 ∧
                 py.strip (patient_friendly.simplified_text r)
                 = patient_friendly.simplified_text r ∧
                 (is_Some (patient_friendly.error r) →
                  patient_friendly.simplified_text r = ""))
    more.plain_items ∧
  patient_friendly.write_outputs more.plain_items
  = inr (omap snd more.plain_items, more.result_row <$> omap snd more.plain_items) ∧
  length (omap snd more.plain_items) = length more.plain_items.
Proof.
  apply (patient_friendly_results (RT := aux.demo_runtime)
           [aux.rec "1" "x"; aux.rec "2" "y"] more.plain_client
           aux.demo_config [1; 0]%nat more.plain_items).
  by vm_compute.
Defined.

(** ** From the sheet to the request file, and from the settings to the batch *)

Section PipelineFacts.
Import py templates sync_runner batch_runner aux more.
Context `{RT : Runtime} `{CV : config_env.Conversions}.
Variable TEMPLATES : gmap string ExtractionTemplate.
Variable build_prompt : ExtractionTemplate → string.

Lemma read_csv_records_ids (fieldnames : option (list string))
    (rows : list sync_input.row) (config : config_env.AppConfig)
    (text_col text_cols id_col : option string) (limit : option Z)
    (records : list Record_) :
  sync_input.read_csv_records fieldnames rows config text_col text_cols id_col limit
  = inr records →
  Forall (λ r, id_value r ≠ "") records.
Proof.
  unfold sync_input.read_csv_records. destruct fieldnames as [columns|]; [|done].
  destruct (sync_input.text_columns_of _ _ _ _) as [|text_columns]; [done|].
  destruct (sync_input.id_column_of _ _ _) as [|id_column]; [done|].
  simpl. intros [= <-].
  destruct (read_rows_adds text_columns id_column
              (config_env.max_chars (config_env.csv config)) limit rows [])
    as (new & -> & _ & _ & _ & _ & Hnew).
  simpl. apply Forall_forall. intros r Hr.
  apply list_elem_of_lookup in Hr as [i Hi].
  destruct (Hnew i r Hi) as (_ & _ & ->). apply id_at_nonempty.
Qed.

(** X24. The records read from a sheet go into the request file under their
    own ids. A record returned by [read_csv_records] never has an empty id,
    so the writer's fallback key [row] is never used for it; and when the
    ids read are pairwise distinct, the keys of the request file are these
    ids, in order, and the map returned gives every record back for its
    id. *)
Theorem read_then_write_request (fieldnames : option (list string))
    (rows : list sync_input.row) (config : config_env.AppConfig)
    (text_col text_cols id_col : option string) (limit : option Z)
    (records : list Record_) (t : ExtractionTemplate) :
  sync_input.read_csv_records fieldnames rows config text_col text_cols id_col limit
  = inr records →
  TEMPLATES !! config_env.template_id config = Some t →
  NoDup (id_value <$> records) →
  base_id <$> records = id_value <$> records ∧
  ∃ lines m,
    write_request_jsonl TEMPLATES build_prompt records (config_env.runner_config config)
    = inr (lines, m) ∧
    custom_id <$> lines = id_value <$> records ∧
    ∀ r, r ∈ records → m !! id_value r = Some r.
Proof.
  intros Hread Ht Hnd.
  pose proof (read_csv_records_ids _ _ _ _ _ _ _ _ Hread) as Hids.
  assert (base_id <$> records = id_value <$> records) as Hbase.
  { apply list_fmap_ext. intros i r Hr. unfold base_id.
    pose proof (proj1 (Forall_forall _ _) Hids r (list_elem_of_lookup_2 _ _ _ Hr)) as Hne.
    apply String.eqb_neq in Hne. by rewrite Hne. }
  split; [done|].
  destruct (write_request_jsonl_keys TEMPLATES build_prompt records
              (config_env.runner_config config) t Ht) as (lines & m & Hw & Hkeys & _ & Hmap).
  exists lines, m. split; [done|].
  assert (custom_id <$> lines = id_value <$> records) as Hcustom.
  { rewrite Hkeys, <- Hbase. apply list_eq. intros i. rewrite list_lookup_fmap.
    destruct (records !! i) as [r|] eqn:Hr.
    - apply submission_keys_distinct; [by rewrite Hbase|done].
    - apply lookup_ge_None. rewrite length_submission_keys. by apply lookup_ge_None. }
  split; [done|]. intros r Hr. apply list_elem_of_lookup in Hr as [i Hi].
  apply (Hmap ltac:(by rewrite Hcustom) i r); [done|].
  by rewrite Hcustom, list_lookup_fmap, Hi.
Qed.

(** X25. Which providers the settings can run a batch for. A configuration
    read by [from_env] for a preset provider passes the provider check of
    [run_batch] exactly for [siliconflow], [aliyun] and [openai]; read for
    any other preset, the run raises its RuntimeError naming that provider
    for every environment, every list of records and every client, with no
    status query, no download and no pause made, and no result file
    written. *)
Theorem from_env_batch_support (env : config_env.environ) (p : string)
    (preset : config_env.ProviderConfig) (c : config_env.AppConfig) :
  config_env.from_env env (Some p) = inr c →
  config_env.lookup_provider p config_env.API_PROVIDERS = Some preset →
  (supported (config.get_provider (config_env.runner_config c)) = true ↔
   p ∈ ["siliconflow"; "aliyun"; "openai"]) ∧
  (p ∉ ["siliconflow"; "aliyun"; "openai"] →
   ∀ fuel env' records client poll_interval w,
     run_batch TEMPLATES build_prompt fuel env' records c client poll_interval w
     = (w, Raises (unsupported (Some p)))).
Proof.
  intros Hc Hp.
  destruct (lookup_provider_name p preset Hp) as [Hne Hfind].
  pose proof (from_env_fields env (Some p) c Hc) as Hf.
  apply String.eqb_neq in Hne. cbn beta iota in Hf. rewrite Hne, Hp in Hf.
  injection Hf as Hu _ _.
  assert (config.get_provider (config_env.runner_config c) = Some p) as Hprov.
  { unfold config.get_provider, config_env.runner_config. cbn [base_url]. by rewrite Hu. }
  assert (supported (Some p) = true ↔ p ∈ ["siliconflow"; "aliyun"; "openai"]) as Hsup.
  { unfold supported. rewrite !orb_true_iff, !String.eqb_eq.
    rewrite !elem_of_cons, elem_of_nil. tauto. }
  split; [by rewrite Hprov|].
  intros Hnot fuel env' records client poll_interval w.
  unfold run_batch, config_env.get_provider.
  rewrite Hprov. destruct (supported (Some p)) eqn:Hs; [|done].
  destruct Hnot. by apply Hsup.
Qed.

End PipelineFacts.

Lemma read_then_write_request_witness :
  aux.base_id <$> more.sheet_records = sync_runner.id_value <$> more.sheet_records ∧
  ∃ lines m,
    batch_runner.write_request_jsonl more.rcc_templates aux.demo_prompt more.sheet_records
      (config_env.runner_config more.sheet_config) = inr (lines, m) ∧
    batch_runner.custom_id <$> lines = sync_runner.id_value <$> more.sheet_records ∧
    ∀ r, r ∈ more.sheet_records → m !! sync_runner.id_value r = Some r.
Proof.
  apply (read_then_write_request (RT := aux.demo_runtime) more.rcc_templates aux.demo_prompt
           (Some more.sheet_header) more.sheet_rows more.sheet_config None None None
           (Some 5%Z) more.sheet_records aux.demo_template).
  - by vm_compute.
  - by vm_compute.
  - apply (bool_decide_unpack _). by vm_compute.
Defined.

Lemma from_env_batch_support_witness :
  (batch_runner.supported
     (config.get_provider (config_env.runner_config more.deepseek_settings)) = true ↔
   "deepseek" ∈ ["siliconflow"; "aliyun"; "openai"]) ∧
  ("deepseek" ∉ ["siliconflow"; "aliyun"; "openai"] →
   ∀ fuel env' records client poll_interval w,
     batch_runner.run_batch (RT := aux.demo_runtime) aux.demo_templates aux.demo_prompt
       fuel env' records more.deepseek_settings client poll_interval w
     = (w, sync_runner.Raises (batch_runner.unsupported (Some "deepseek")))).
Proof.
  apply (from_env_batch_support (RT := aux.demo_runtime) (CV := more.demo_conversions)
           aux.demo_templates aux.demo_prompt more.demo_environ "deepseek"
           {| config_env.provider_base_url := "https://api.deepseek.com/v1";
              config_env.default_model := "deepseek-chat";
              config_env.api_key_env := "DEEPSEEK_API_KEY" |} more.deepseek_settings);
    by vm_compute.
Defined.
